(** * Interview Pilot: a shallow embedding of the client and its contracts

    The development follows the TypeScript sources of the front end
    ([lib/types.ts], [lib/constants.ts], [lib/api.ts],
    [components/InterviewChat.tsx], [components/HintPanel.tsx],
    [components/ChatMessage.tsx], [components/VoiceRecorder.tsx]).
    React state is threaded explicitly, an [await] splits a handler into
    the part that runs before the request and the continuation that runs
    when the response arrives, and calls that leave the component (HTTP
    requests, console output, callbacks to the parent) are returned as a
    list of effects. *)

From Stdlib Require Import ZArith NArith PArith List Bool Lia String Ascii QArith.
From Stdlib Require Import Floats.SpecFloat.
Import ListNotations.

Set Implicit Arguments.
Local Open Scope Z_scope.

(* ===================================================================== *)
(** ** JavaScript strings *)
(* ===================================================================== *)

Module JS.

(** A JavaScript string is a sequence of UTF-16 code units. *)
Definition jsstring := list N.

Definition of_string (s : string) : jsstring :=
  map N_of_ascii (list_ascii_of_string s).

(** [WhiteSpace] and [LineTerminator] of ECMA-262, the code units that
    [String.prototype.trim] strips. *)
Definition isWhiteSpace (c : N) : bool :=
  ( (9 <=? c) && (c <=? 13)          (* TAB, LF, VT, FF, CR *)
  || (c =? 32)                       (* SPACE *)
  || (c =? 160)                      (* NO-BREAK SPACE *)
  || (c =? 5760)                     (* OGHAM SPACE MARK *)
  || (8192 <=? c) && (c <=? 8202)    (* EN QUAD .. HAIR SPACE *)
  || (c =? 8232) || (c =? 8233)      (* LINE / PARAGRAPH SEPARATOR *)
  || (c =? 8239)                     (* NARROW NO-BREAK SPACE *)
  || (c =? 8287)                     (* MEDIUM MATHEMATICAL SPACE *)
  || (c =? 12288)                    (* IDEOGRAPHIC SPACE *)
  || (c =? 65279)                    (* ZERO WIDTH NO-BREAK SPACE *)
  )%N.

Fixpoint trimStart (s : jsstring) : jsstring :=
  match s with
  | c :: s' => if isWhiteSpace c then trimStart s' else s
  | [] => []
  end.

Definition trimEnd (s : jsstring) : jsstring := rev (trimStart (rev s)).

(** [s.trim()] *)
Definition trim (s : jsstring) : jsstring := trimEnd (trimStart s).

(** Truthiness of a string: the empty string is falsy. *)
Definition truthy (s : jsstring) : bool :=
  match s with [] => false | _ :: _ => true end.

(** Truthiness of an optional string property ([undefined] is falsy). *)
Definition truthy_opt (s : option jsstring) : bool :=
  match s with Some s => truthy s | None => false end.

(** A string that is empty or made of whitespace only. *)
Definition blank (s : jsstring) : bool := forallb isWhiteSpace s.

End JS.
Import JS.

(* ===================================================================== *)
(** ** lib/types.ts *)
(* ===================================================================== *)

Inductive Persona := HM | Tech | HR.

Inductive Mode := practice | real.

Inductive Quality := strong | adequate | weak | evasive.

Record HintData := {
  bullets : option (list jsstring);
  personal_hooks : option (list jsstring);
  avoid : option (list jsstring);
  example_answer : option jsstring
}.

Record AnswerAnalysis := {
  quality : Quality;
  confidence_score : Z;
  specificity_score : Z;
  star_score : Z;
  key_points_covered : option (list jsstring);
  missing_points : option (list jsstring);
  flags : option (list jsstring);
  summary : option jsstring
}.

Record Contradiction := { description : jsstring; severity : jsstring }.

Record ConsistencyResult := {
  consistent : bool;
  contradictions : option (list Contradiction);
  concerns : option (list jsstring)
}.

(** [RoutingResult.action] is declared as a plain [string]. *)
Record RoutingResult := {
  next_persona : Persona;
  action : jsstring;
  reason : jsstring;
  suggested_topic : option jsstring
}.

Record VoiceMetrics := {
  response_latency_s : option Q;
  answer_duration_s : Q;
  filler_count : Z;
  filler_words : option (list jsstring);
  word_count : Z;
  filler_rate_per_min : Q
}.

Record NextQuestionResponse := {
  done : bool;
  message : option jsstring;
  question : option jsstring;
  nq_persona : option Persona;
  nq_topic : option jsstring;
  nq_hints : option HintData
}.

Record AnswerRequest := {
  answer : jsstring;
  voice_metrics : option VoiceMetrics
}.

Record AnswerResponse := {
  analysis : AnswerAnalysis;
  consistency : option ConsistencyResult;
  routing : RoutingResult;
  turn_number : Z;
  is_interview_over : bool
}.

Inductive Role := interviewer | user.

(** Message ids are the strings [q-<Date.now()>] and [a-<Date.now()>];
    the prefix and the clock value are kept apart, two ids are equal
    exactly when both agree. *)
Inductive MsgId := QId (now : Z) | AId (now : Z).

Definition MsgId_eqb (a b : MsgId) : bool :=
  match a, b with
  | QId x, QId y => x =? y
  | AId x, AId y => x =? y
  | _, _ => false
  end.

Record ChatMessage := {
  id : MsgId;
  role : Role;
  persona : option Persona;
  text : jsstring;
  topic : option jsstring;
  msg_analysis : option AnswerAnalysis;
  hints : option HintData
}.

(* ===================================================================== *)
(** ** components/InterviewChat.tsx *)
(* ===================================================================== *)

Module Chat.

Inductive InputMode := voice | text_mode.

Record Props := {
  sessionId : jsstring;
  totalQuestions : Z;
  mode : Mode;
  vocabularyName : option jsstring
}.

(** The [useState] cells of the component and the [hasFetchedFirst] ref. *)
Record State := {
  messages : list ChatMessage;
  inputText : jsstring;
  inputMode : InputMode;
  loading : bool;
  currentHints : option HintData;
  currentQuestion : Z;
  lastAnalysis : option AnswerAnalysis;
  lastPersona : option Persona;
  isDone : bool;
  currentPersona : option Persona;
  currentQuestionText : jsstring;
  voiceTranscript : jsstring;
  hasFetchedFirst : bool
}.

Definition initial : State := {|
  messages := []; inputText := []; inputMode := voice; loading := false;
  currentHints := None; currentQuestion := 0; lastAnalysis := None;
  lastPersona := None; isDone := false; currentPersona := None;
  currentQuestionText := []; voiceTranscript := []; hasFetchedFirst := false
|}.

Definition setMessages (f : list ChatMessage -> list ChatMessage) (s : State) :=
  {| messages := f (messages s); inputText := inputText s;
     inputMode := inputMode s; loading := loading s;
     currentHints := currentHints s; currentQuestion := currentQuestion s;
     lastAnalysis := lastAnalysis s; lastPersona := lastPersona s;
     isDone := isDone s; currentPersona := currentPersona s;
     currentQuestionText := currentQuestionText s;
     voiceTranscript := voiceTranscript s;
     hasFetchedFirst := hasFetchedFirst s |}.

Definition setInputText (v : jsstring) (s : State) :=
  {| messages := messages s; inputText := v;
     inputMode := inputMode s; loading := loading s;
     currentHints := currentHints s; currentQuestion := currentQuestion s;
     lastAnalysis := lastAnalysis s; lastPersona := lastPersona s;
     isDone := isDone s; currentPersona := currentPersona s;
     currentQuestionText := currentQuestionText s;
     voiceTranscript := voiceTranscript s;
     hasFetchedFirst := hasFetchedFirst s |}.

Definition setInputMode (v : InputMode) (s : State) :=
  {| messages := messages s; inputText := inputText s;
     inputMode := v; loading := loading s;
     currentHints := currentHints s; currentQuestion := currentQuestion s;
     lastAnalysis := lastAnalysis s; lastPersona := lastPersona s;
     isDone := isDone s; currentPersona := currentPersona s;
     currentQuestionText := currentQuestionText s;
     voiceTranscript := voiceTranscript s;
     hasFetchedFirst := hasFetchedFirst s |}.

Definition setLoading (v : bool) (s : State) :=
  {| messages := messages s; inputText := inputText s;
     inputMode := inputMode s; loading := v;
     currentHints := currentHints s; currentQuestion := currentQuestion s;
     lastAnalysis := lastAnalysis s; lastPersona := lastPersona s;
     isDone := isDone s; currentPersona := currentPersona s;
     currentQuestionText := currentQuestionText s;
     voiceTranscript := voiceTranscript s;
     hasFetchedFirst := hasFetchedFirst s |}.

Definition setCurrentHints (v : option HintData) (s : State) :=
  {| messages := messages s; inputText := inputText s;
     inputMode := inputMode s; loading := loading s;
     currentHints := v; currentQuestion := currentQuestion s;
     lastAnalysis := lastAnalysis s; lastPersona := lastPersona s;
     isDone := isDone s; currentPersona := currentPersona s;
     currentQuestionText := currentQuestionText s;
     voiceTranscript := voiceTranscript s;
     hasFetchedFirst := hasFetchedFirst s |}.

Definition setCurrentQuestion (f : Z -> Z) (s : State) :=
  {| messages := messages s; inputText := inputText s;
     inputMode := inputMode s; loading := loading s;
     currentHints := currentHints s; currentQuestion := f (currentQuestion s);
     lastAnalysis := lastAnalysis s; lastPersona := lastPersona s;
     isDone := isDone s; currentPersona := currentPersona s;
     currentQuestionText := currentQuestionText s;
     voiceTranscript := voiceTranscript s;
     hasFetchedFirst := hasFetchedFirst s |}.

Definition setLastAnalysis (v : option AnswerAnalysis) (s : State) :=
  {| messages := messages s; inputText := inputText s;
     inputMode := inputMode s; loading := loading s;
     currentHints := currentHints s; currentQuestion := currentQuestion s;
     lastAnalysis := v; lastPersona := lastPersona s;
     isDone := isDone s; currentPersona := currentPersona s;
     currentQuestionText := currentQuestionText s;
     voiceTranscript := voiceTranscript s;
     hasFetchedFirst := hasFetchedFirst s |}.

Definition setLastPersona (v : option Persona) (s : State) :=
  {| messages := messages s; inputText := inputText s;
     inputMode := inputMode s; loading := loading s;
     currentHints := currentHints s; currentQuestion := currentQuestion s;
     lastAnalysis := lastAnalysis s; lastPersona := v;
     isDone := isDone s; currentPersona := currentPersona s;
     currentQuestionText := currentQuestionText s;
     voiceTranscript := voiceTranscript s;
     hasFetchedFirst := hasFetchedFirst s |}.

Definition setIsDone (v : bool) (s : State) :=
  {| messages := messages s; inputText := inputText s;
     inputMode := inputMode s; loading := loading s;
     currentHints := currentHints s; currentQuestion := currentQuestion s;
     lastAnalysis := lastAnalysis s; lastPersona := lastPersona s;
     isDone := v; currentPersona := currentPersona s;
     currentQuestionText := currentQuestionText s;
     voiceTranscript := voiceTranscript s;
     hasFetchedFirst := hasFetchedFirst s |}.

Definition setCurrentPersona (v : option Persona) (s : State) :=
  {| messages := messages s; inputText := inputText s;
     inputMode := inputMode s; loading := loading s;
     currentHints := currentHints s; currentQuestion := currentQuestion s;
     lastAnalysis := lastAnalysis s; lastPersona := lastPersona s;
     isDone := isDone s; currentPersona := v;
     currentQuestionText := currentQuestionText s;
     voiceTranscript := voiceTranscript s;
     hasFetchedFirst := hasFetchedFirst s |}.

Definition setCurrentQuestionText (v : jsstring) (s : State) :=
  {| messages := messages s; inputText := inputText s;
     inputMode := inputMode s; loading := loading s;
     currentHints := currentHints s; currentQuestion := currentQuestion s;
     lastAnalysis := lastAnalysis s; lastPersona := lastPersona s;
     isDone := isDone s; currentPersona := currentPersona s;
     currentQuestionText := v;
     voiceTranscript := voiceTranscript s;
     hasFetchedFirst := hasFetchedFirst s |}.

Definition setVoiceTranscript (f : jsstring -> jsstring) (s : State) :=
  {| messages := messages s; inputText := inputText s;
     inputMode := inputMode s; loading := loading s;
     currentHints := currentHints s; currentQuestion := currentQuestion s;
     lastAnalysis := lastAnalysis s; lastPersona := lastPersona s;
     isDone := isDone s; currentPersona := currentPersona s;
     currentQuestionText := currentQuestionText s;
     voiceTranscript := f (voiceTranscript s);
     hasFetchedFirst := hasFetchedFirst s |}.

Definition setHasFetchedFirst (v : bool) (s : State) :=
  {| messages := messages s; inputText := inputText s;
     inputMode := inputMode s; loading := loading s;
     currentHints := currentHints s; currentQuestion := currentQuestion s;
     lastAnalysis := lastAnalysis s; lastPersona := lastPersona s;
     isDone := isDone s; currentPersona := currentPersona s;
     currentQuestionText := currentQuestionText s;
     voiceTranscript := voiceTranscript s;
     hasFetchedFirst := v |}.

(** What leaves the component: the two calls of [lib/api.ts] it makes and
    its [console.error] lines. *)
Inductive ConsoleLine :=
| FailedToGetNextQuestion
| FailedToSubmitAnswer
| VoiceError (msg : jsstring).

Inductive Effect :=
| CallGetNextQuestion (sid : jsstring)
| CallSubmitAnswer (sid : jsstring) (data : AnswerRequest)
| ConsoleError (line : ConsoleLine).

(** The values a [useCallback] closure of one render holds: [loading] and
    [currentPersona] appear in the dependency list of
    [handleSubmitAnswer], so the handler of a render reads that render's
    values. *)
Record Closure := { c_loading : bool; c_currentPersona : option Persona }.

Definition closureOf (s : State) : Closure :=
  {| c_loading := loading s; c_currentPersona := currentPersona s |}.

(** A suspended [await]: the rest of the handler, run when the promise
    settles. *)
Inductive Pending :=
| AwaitSubmitAnswer (userMsgId : MsgId) (c : Closure)
| AwaitGetNextQuestion.

Record World := { st : State; pending : list Pending }.

Definition isAwaitSubmit (p : Pending) : bool :=
  match p with AwaitSubmitAnswer _ _ => true | AwaitGetNextQuestion => false end.

(** Number of [submitAnswer] requests whose response has not arrived. *)
Definition inFlightSubmits (w : World) : nat :=
  List.length (filter isAwaitSubmit (pending w)).

Inductive Result (A : Type) := Resolved (a : A) | Rejected.
Arguments Rejected {A}.

(** [fetchNextQuestion], up to its [await]. *)
Definition fetchNextQuestion (p : Props) (w : World) : World * list Effect :=
  ({| st := setLoading true (st w);
      pending := pending w ++ [AwaitGetNextQuestion] |},
   [CallGetNextQuestion (sessionId p)]).

(** [fetchNextQuestion], from the [await] to the end of [finally]. *)
Definition fetchNextQuestion_resume (now : Z)
    (r : Result NextQuestionResponse) (s : State) : State * list Effect :=
  match r with
  | Resolved res =>
      if done res then (setLoading false (setIsDone true s), [])
      else
        match question res, nq_persona res with
        | Some q, Some per =>
            if truthy q then
              let msg := {| id := QId now; role := interviewer;
                            persona := Some per; text := q;
                            topic := nq_topic res; msg_analysis := None;
                            hints := nq_hints res |} in
              (setLoading false
                 (setCurrentQuestion (fun prev => prev + 1)
                    (setCurrentQuestionText q
                       (setCurrentPersona (Some per)
                          (setCurrentHints (nq_hints res)
                             (setMessages (fun prev => prev ++ [msg]) s))))),
               [])
            else (setLoading false s, [])
        | _, _ => (setLoading false s, [])
        end
  | Rejected =>
      (setLoading false s, [ConsoleError FailedToGetNextQuestion])
  end.

(** The mount effect, with its Strict Mode guard. *)
Definition mountEffect (p : Props) (w : World) : World * list Effect :=
  if hasFetchedFirst (st w) then (w, [])
  else fetchNextQuestion p
         {| st := setHasFetchedFirst true (st w); pending := pending w |}.

(** [handleSubmitAnswer], up to its [await].  [c] is the closure of the
    render the handler belongs to, [now] the value of [Date.now()]. *)
Definition handleSubmitAnswer (p : Props) (c : Closure) (now : Z)
    (answerText : jsstring) (voiceMetrics : option VoiceMetrics)
    (w : World) : World * list Effect :=
  if negb (truthy (trim answerText)) || c_loading c then (w, [])
  else
    let userMsg := {| id := AId now; role := user; persona := None;
                      text := answerText; topic := None;
                      msg_analysis := None; hints := None |} in
    ({| st := setLoading true
                (setCurrentHints None
                   (setVoiceTranscript (fun _ => [])
                      (setInputText []
                         (setMessages (fun prev => prev ++ [userMsg]) (st w)))));
        pending := pending w ++ [AwaitSubmitAnswer (id userMsg) c] |},
     [CallSubmitAnswer (sessionId p)
        {| answer := answerText; voice_metrics := voiceMetrics |}]).

Definition withAnalysis (a : AnswerAnalysis) (m : ChatMessage) : ChatMessage :=
  {| id := id m; role := role m; persona := persona m; text := text m;
     topic := topic m; msg_analysis := Some a; hints := hints m |}.

(** [handleSubmitAnswer], from the [await] on.  When the interview goes
    on, the handler awaits [fetchNextQuestion], whose own continuation
    ends with [setLoading(false)], as the [finally] of this handler does. *)
Definition handleSubmitAnswer_resume (p : Props) (userMsgId : MsgId)
    (c : Closure) (r : Result AnswerResponse) (w : World)
    : World * list Effect :=
  match r with
  | Resolved res =>
      let s1 :=
        setLastPersona (c_currentPersona c)
          (setLastAnalysis (Some (analysis res))
             (setMessages
                (map (fun m => if MsgId_eqb (id m) userMsgId
                               then withAnalysis (analysis res) m else m))
                (st w))) in
      if is_interview_over res
      then ({| st := setLoading false (setIsDone true s1);
               pending := pending w |}, [])
      else fetchNextQuestion p {| st := s1; pending := pending w |}
  | Rejected =>
      ({| st := setLoading false (st w); pending := pending w |},
       [ConsoleError FailedToSubmitAnswer])
  end.

Definition handleTextSubmit (p : Props) (now : Z) (w : World) :=
  handleSubmitAnswer p (closureOf (st w)) now (inputText (st w)) None w.

Definition handleVoiceDone (p : Props) (c : Closure) (now : Z)
    (transcript : jsstring) (voiceMetrics : VoiceMetrics) (w : World) :=
  handleSubmitAnswer p c now transcript (Some voiceMetrics) w.

Definition handleVoiceTranscript (txt : jsstring) (isFinal : bool)
    (s : State) : State :=
  if isFinal
  then setVoiceTranscript (fun prev => prev ++ [32%N] ++ txt) s
  else setVoiceTranscript (fun _ => txt) s.

End Chat.

(* ===================================================================== *)
(** ** lib/constants.ts *)
(* ===================================================================== *)

Record QualityStyle := { q_label : string; q_color : string; q_bgColor : string }.

(** The entries of the object literal [QUALITY_CONFIG], by key: [None]
    for a key the literal does not define.  (A JavaScript lookup of
    such a key goes on to [Object.prototype], where names like
    [constructor] are defined; the components look up quality labels
    only, which the literal all defines.) *)
Definition QUALITY_CONFIG (key : string) : option QualityStyle :=
  if String.eqb key "strong" then
    Some {| q_label := "Strong"; q_color := "#059669"; q_bgColor := "#ecfdf5" |}
  else if String.eqb key "adequate" then
    Some {| q_label := "Adequate"; q_color := "#d97706"; q_bgColor := "#fffbeb" |}
  else if String.eqb key "weak" then
    Some {| q_label := "Weak"; q_color := "#dc2626"; q_bgColor := "#fef2f2" |}
  else if String.eqb key "evasive" then
    Some {| q_label := "Evasive"; q_color := "#dc2626"; q_bgColor := "#fef2f2" |}
  else None.

(** The string literal a [Quality] stands for in [types.ts]. *)
Definition quality_key (q : Quality) : string :=
  match q with
  | strong => "strong" | adequate => "adequate"
  | weak => "weak" | evasive => "evasive"
  end.

Record PersonaStyle := { p_label : string; p_color : string;
                         p_bgColor : string; p_borderColor : string }.

(** [PERSONA_CONFIG] (the icon, an emoji, is left out). *)
Definition PERSONA_CONFIG (p : Persona) : PersonaStyle :=
  match p with
  | HM => {| p_label := "Hiring Manager"; p_color := "#2563eb";
             p_bgColor := "#eff6ff"; p_borderColor := "#bfdbfe" |}
  | Tech => {| p_label := "Technical Lead"; p_color := "#059669";
               p_bgColor := "#ecfdf5"; p_borderColor := "#a7f3d0" |}
  | HR => {| p_label := "HR Partner"; p_color := "#7c3aed";
             p_bgColor := "#f5f3ff"; p_borderColor := "#c4b5fd" |}
  end.

(* ===================================================================== *)
(** ** components/HintPanel.tsx *)
(* ===================================================================== *)

Module HintPanel.

(** [onReveal] is an optional callback; only whether it was passed
    matters here. *)
Record Props := { hints : HintData; disabled : bool; onReveal : bool }.

Record State := { open : bool; showExample : bool }.

Definition initial : State := {| open := false; showExample := false |}.

(** [xs?.length] as a condition: absent and empty arrays are falsy. *)
Definition hasLength (xs : option (list jsstring)) : bool :=
  match xs with Some (_ :: _) => true | _ => false end.

Inductive ExampleView :=
| ShowExampleButton                (* "Still stuck? Show example answer" *)
| ExampleAnswer (txt : jsstring).  (* the example answer itself *)

(** The rendered panel.  Everything but the toggle button sits inside the
    [collapsible] element, which carries the class [open] when [open]. *)
Record View := {
  toggleDisabled : bool;
  collapsibleOpen : bool;
  keyPoints : option (list jsstring);
  fromYourResume : option (list jsstring);
  avoidSection : option (list jsstring);
  exampleSection : option ExampleView
}.

Definition section (xs : option (list jsstring)) : option (list jsstring) :=
  if hasLength xs then xs else None.

(** The component body; [None] is [return null]. *)
Definition render (p : Props) (s : State) : option View :=
  if negb (hasLength (bullets (hints p)))
     && negb (hasLength (personal_hooks (hints p)))
  then None
  else Some {|
    toggleDisabled := disabled p;
    collapsibleOpen := open s;
    keyPoints := section (bullets (hints p));
    fromYourResume := section (personal_hooks (hints p));
    avoidSection := section (avoid (hints p));
    exampleSection :=
      match example_answer (hints p) with
      | Some ex =>
          if truthy ex
          then Some (if negb (showExample s) then ShowExampleButton
                     else ExampleAnswer ex)
          else None
      | None => None
      end |}.

Inductive Callback := OnReveal.

Definition handleToggle (p : Props) (s : State) : State * list Callback :=
  ({| open := negb (open s); showExample := showExample s |},
   if negb (open s) && onReveal p then [OnReveal] else []).

Inductive Action := ClickToggle | ClickShowExample.

(** A click reaches a handler only through a button of the rendered
    panel: nothing is clickable when the component returned [null], a
    disabled toggle ignores clicks, and the example button exists only
    while the example is not shown. *)
Definition click (p : Props) (a : Action) (s : State) : State * list Callback :=
  match render p s with
  | None => (s, [])
  | Some v =>
      match a with
      | ClickToggle =>
          if toggleDisabled v then (s, []) else handleToggle p s
      | ClickShowExample =>
          match exampleSection v with
          | Some ShowExampleButton =>
              ({| open := open s; showExample := true |}, [])
          | _ => (s, [])
          end
      end
  end.

Fixpoint clicks (p : Props) (acts : list Action) (s : State)
    : State * list Callback :=
  match acts with
  | [] => (s, [])
  | a :: rest =>
      let '(s1, cb1) := click p a s in
      let '(s2, cb2) := clicks p rest s1 in
      (s2, cb1 ++ cb2)
  end.

(** What the user can read of the avoid list and of the example answer:
    both live inside the collapsible element, shown when it is open. *)
Definition shownAvoid (v : option View) : option (list jsstring) :=
  match v with
  | Some v => if collapsibleOpen v then avoidSection v else None
  | None => None
  end.

Definition shownExample (v : option View) : option jsstring :=
  match v with
  | Some v =>
      if collapsibleOpen v then
        match exampleSection v with
        | Some (ExampleAnswer ex) => Some ex
        | _ => None
        end
      else None
  | None => None
  end.

End HintPanel.

(* ===================================================================== *)
(** ** components/ChatMessage.tsx *)
(* ===================================================================== *)

Module ChatMessageView.

Record PersonaLabel := { pl_style : PersonaStyle; pl_topic : option jsstring }.

Record Badge := { b_style : QualityStyle; b_confidence : option Z }.

Record View := {
  isUser : bool;
  personaLabel : option PersonaLabel;
  bubbleStyle : option PersonaStyle;
  bubbleText : jsstring;
  badge : option Badge
}.

Definition isUserRole (r : Role) : bool :=
  match r with user => true | interviewer => false end.

Definition render (m : ChatMessage) : View :=
  let isUser := isUserRole (role m) in
  let pConfig := option_map PERSONA_CONFIG (persona m) in
  let qConfig :=
    match msg_analysis m with
    | Some a => QUALITY_CONFIG (quality_key (quality a))
    | None => None
    end in
  {| isUser := isUser;
     personaLabel :=
       if negb isUser then
         match pConfig with
         | Some pc =>
             Some {| pl_style := pc;
                     pl_topic := if truthy_opt (topic m) then topic m else None |}
         | None => None
         end
       else None;
     bubbleStyle := if negb isUser then pConfig else None;
     bubbleText := text m;
     badge :=
       if isUser then
         match qConfig with
         | Some qc =>
             Some {| b_style := qc;
                     b_confidence := option_map confidence_score (msg_analysis m) |}
         | None => None
         end
       else None |}.

End ChatMessageView.

(* ===================================================================== *)
(** ** JavaScript numbers *)
(* ===================================================================== *)


Module Num.

(** A JavaScript number is an IEEE-754 binary64 value; the Standard
    Library's [spec_float] operations are instantiated at [prec = 53],
    [emax = 1024].  An element of a [Float32Array] is a binary32 value
    ([prec = 24], [emax = 128]). *)
Definition prec64 : Z := 53.
Definition emax64 : Z := 1024.
Definition prec32 : Z := 24.
Definition emax32 : Z := 128.

Definition isFloat32 (x : spec_float) : bool := valid_binary prec32 emax32 x.

(** Reading a [Float32Array] element gives the binary64 number of the
    same value. *)
Definition ofFloat32 (x : spec_float) : spec_float :=
  match x with
  | S754_finite s m e => binary_round prec64 emax64 s m e
  | _ => x
  end.

(** Number of binary digits of a mantissa. *)
Definition digits (m : positive) : nat := Pos.to_nat (digits2_pos m).

(** The binary64 number [(-1)^sg * m * 2^e] in canonical form, for a
    mantissa of at most 53 digits: the mantissa is shifted left until it
    has 53 digits. *)
Definition dyadic (sg : bool) (m : positive) (e : Z) : spec_float :=
  S754_finite sg (Pos.shiftl_nat m (53 - digits m))
    (e - Z.of_nat (53 - digits m)).

(** A shift record with no bit shifted out. *)
Definition exact (m : positive) : shr_record :=
  {| shr_m := Zpos m; shr_r := false; shr_s := false |}.

(** An integer literal as a number. *)
Definition ofZ (n : Z) : spec_float := binary_normalize prec64 emax64 n 0 false.

(** [Math.min(a, b)] and [Math.max(a, b)]: NaN if either is NaN, and
    [-0] counts as smaller than [+0]. *)
Definition Math_min (a b : spec_float) : spec_float :=
  match SFcompare a b with
  | None => S754_nan
  | Some Lt => a
  | Some Gt => b
  | Some Eq =>
      match a, b with
      | S754_zero sa, S754_zero sb => S754_zero (sa || sb)
      | _, _ => a
      end
  end.

Definition Math_max (a b : spec_float) : spec_float :=
  match SFcompare a b with
  | None => S754_nan
  | Some Lt => b
  | Some Gt => a
  | Some Eq =>
      match a, b with
      | S754_zero sa, S754_zero sb => S754_zero (sa && sb)
      | _, _ => a
      end
  end.

Definition lt (a b : spec_float) : bool := SFltb a b.

Definition mul (a b : spec_float) : spec_float := SFmul prec64 emax64 a b.

(** The mathematical integer obtained by dropping the fraction of a
    finite number (rounding toward zero). *)
Definition truncate (x : spec_float) : Z :=
  match x with
  | S754_finite s m e => cond_Zopp s (Z.shiftl (Zpos m) e)
  | _ => 0
  end.

(** [ToInt16], the conversion applied when a number is stored into an
    [Int16Array]: NaN, zeros and infinities give 0, anything else is
    truncated and wrapped modulo 2^16 into the signed range. *)
Definition ToInt16 (x : spec_float) : Z :=
  match x with
  | S754_finite _ _ _ =>
      let int16bit := (truncate x) mod 65536 in
      if 32768 <=? int16bit then int16bit - 65536 else int16bit
  | _ => 0
  end.

End Num.

(* ===================================================================== *)
(** ** components/VoiceRecorder.tsx *)
(* ===================================================================== *)

Module VoiceRecorder.

(** The component's state and, for the four refs, whether each holds an
    object. *)
Record State := {
  recording : bool;
  partialText : jsstring;
  wsRef : bool;
  mediaRef : bool;
  processorRef : bool;
  contextRef : bool
}.

Definition initial : State := {|
  recording := false; partialText := []; wsRef := false;
  mediaRef := false; processorRef := false; contextRef := false |}.

Definition cleanup (s : State) : State :=
  {| recording := recording s; partialText := partialText s;
     wsRef := wsRef s; mediaRef := false; processorRef := false;
     contextRef := false |}.

Definition setRecording (v : bool) (s : State) : State :=
  {| recording := v; partialText := partialText s; wsRef := wsRef s;
     mediaRef := mediaRef s; processorRef := processorRef s;
     contextRef := contextRef s |}.

Definition setPartialText (v : jsstring) (s : State) : State :=
  {| recording := recording s; partialText := v; wsRef := wsRef s;
     mediaRef := mediaRef s; processorRef := processorRef s;
     contextRef := contextRef s |}.

(** A parsed server message, by its [type] field; any other value of
    [type] falls through every branch of the handler. *)
Inductive ServerMessage :=
| MsgPartial (txt : jsstring)
| MsgFinal (txt : jsstring)
| MsgDone (transcript : jsstring) (vm : VoiceMetrics)
| MsgError (message : jsstring)
| MsgOther.

(** Calls of the props [onTranscript], [onDone] and [onError]. *)
Inductive Callback :=
| OnTranscript (txt : jsstring) (isFinal : bool)
| OnDone (transcript : jsstring) (voiceMetrics : VoiceMetrics)
| OnError (msg : jsstring).

Definition WebSocketConnectionFailed : jsstring :=
  of_string "WebSocket connection failed".

Definition FailedToAccessMicrophone : jsstring :=
  of_string "Failed to access microphone".

(** [ws.onmessage] *)
Definition onmessage (msg : ServerMessage) (s : State) : State * list Callback :=
  match msg with
  | MsgPartial txt => (setPartialText txt s, [OnTranscript txt false])
  | MsgFinal txt => (setPartialText [] s, [OnTranscript txt true])
  | MsgDone transcript vm =>
      (cleanup (setRecording false s), [OnDone transcript vm])
  | MsgError message => (cleanup (setRecording false s), [OnError message])
  | MsgOther => (s, [])
  end.

(** [ws.onerror] *)
Definition onerror (s : State) : State * list Callback :=
  (cleanup (setRecording false s), [OnError WebSocketConnectionFailed]).

(** [ws.onopen]: the audio graph is built and recording starts. *)
Definition onopen (s : State) : State * list Callback :=
  (setRecording true
     {| recording := recording s; partialText := partialText s;
        wsRef := wsRef s; mediaRef := mediaRef s; processorRef := true;
        contextRef := true |}, []).

(** The [catch] of [startRecording]: [getUserMedia] was rejected, with an
    [Error] carrying a message or with something else. *)
Definition startRecording_catch (errMessage : option jsstring) (s : State)
    : State * list Callback :=
  (s, [OnError match errMessage with
               | Some m => m
               | None => FailedToAccessMicrophone
               end]).

(** What a recording run can deliver to the component. *)
Inductive SocketEvent :=
| WsOpen
| WsMessage (msg : ServerMessage)
| WsError
| GetUserMediaRejected (errMessage : option jsstring).

Definition handle (e : SocketEvent) (s : State) : State * list Callback :=
  match e with
  | WsOpen => onopen s
  | WsMessage msg => onmessage msg s
  | WsError => onerror s
  | GetUserMediaRejected m => startRecording_catch m s
  end.

(** The events by which the voice pipeline fails, with the message the
    component reports for each. *)
Definition failureMessage (e : SocketEvent) : option jsstring :=
  match e with
  | WsMessage (MsgError message) => Some message
  | WsError => Some WebSocketConnectionFailed
  | GetUserMediaRejected (Some m) => Some m
  | GetUserMediaRejected None => Some FailedToAccessMicrophone
  | _ => None
  end.

(** The body of the loop of [processor.onaudioprocess] for one sample:
    [s = Math.max(-1, Math.min(1, float32[i]))], then
    [int16[i] = s < 0 ? s * 0x8000 : s * 0x7fff]. *)
Definition clampSample (x : spec_float) : spec_float :=
  Num.Math_max (Num.ofZ (-1)) (Num.Math_min (Num.ofZ 1) (Num.ofFloat32 x)).

Definition scaleSample (s : spec_float) : spec_float :=
  if Num.lt s (Num.ofZ 0) then Num.mul s (Num.ofZ 32768)
  else Num.mul s (Num.ofZ 32767).

Definition pcmSample (x : spec_float) : Z :=
  Num.ToInt16 (scaleSample (clampSample x)).

(** The array [int16] the loop fills from the channel data [float32]. *)
Definition int16 (float32 : list spec_float) : list Z :=
  map pcmSample float32.

(** The scale factor: [0x8000] for negative samples, [0x7fff] otherwise. *)
Definition scaleOf (sg : bool) : positive :=
  if sg then 32768%positive else 32767%positive.

(** The scaled magnitude of a finite sample [(-1)^sg * m * 2^e], with
    its fraction dropped, capped at the scale factor (the magnitude of a
    sample clamped to 1). *)
Definition magnitude (sg : bool) (m : positive) (e : Z) : Z :=
  Z.min (Zpos (scaleOf sg)) (Z.shiftl (Zpos m * Zpos (scaleOf sg)) e).

Definition inInt16 (z : Z) : Prop := -32768 <= z <= 32767.

End VoiceRecorder.

(* ===================================================================== *)
(** ** The rendered interview screen and the running client *)
(* ===================================================================== *)

Module Client.

Import Chat.

Inductive InputArea :=
| VoiceInput (disabled : bool)
| TextInput (value : jsstring) (disabled : bool) (sendDisabled : bool).

Record Coaching := {
  co_currentQuestion : Z;
  co_totalQuestions : Z;
  co_lastAnalysis : option AnswerAnalysis;
  co_lastPersona : option Persona
}.

Record MainView := {
  chatMessages : list ChatMessageView.View;
  hintPanel : option HintPanel.View;
  loadingIndicator : bool;
  transcriptPreview : option jsstring;
  inputArea : InputArea;
  coaching : Coaching
}.

Inductive View :=
| InterviewComplete (answered : Z)
| Interview (v : MainView).

(** The [HintPanel] element of the JSX,
    [currentHints && mode === "practice" && <HintPanel hints=.. disabled=.. />]:
    no [onReveal] is passed. *)
Definition hintPanelProps (p : Props) (s : State) : option HintPanel.Props :=
  if isDone s then None
  else
    match currentHints s, mode p with
    | Some h, practice =>
        Some {| HintPanel.hints := h; HintPanel.disabled := loading s;
                HintPanel.onReveal := false |}
    | _, _ => None
    end.

Definition isVoice (m : InputMode) : bool :=
  match m with voice => true | text_mode => false end.

(** The [VoiceRecorder] element is part of the tree in voice mode. *)
Definition recorderMounted (s : State) : bool :=
  negb (isDone s) && isVoice (inputMode s).

Definition render (p : Props) (s : State) (panel : HintPanel.State) : View :=
  if isDone s then InterviewComplete (currentQuestion s)
  else Interview {|
    chatMessages := map ChatMessageView.render (messages s);
    hintPanel :=
      match hintPanelProps p s with
      | Some hp => HintPanel.render hp panel
      | None => None
      end;
    loadingIndicator := loading s;
    transcriptPreview :=
      if truthy (voiceTranscript s) && isVoice (inputMode s)
      then Some (voiceTranscript s) else None;
    inputArea :=
      match inputMode s with
      | voice => VoiceInput (loading s)
      | text_mode =>
          TextInput (inputText s) (loading s)
            (loading s || negb (truthy (trim (inputText s))))
      end;
    coaching := {| co_currentQuestion := currentQuestion s;
                   co_totalQuestions := totalQuestions p;
                   co_lastAnalysis := lastAnalysis s;
                   co_lastPersona := lastPersona s |} |}.

(** The hint panel on screen, if any. *)
Definition shownPanel (v : View) : option HintPanel.View :=
  match v with
  | Interview m => hintPanel m
  | InterviewComplete _ => None
  end.

Definition withoutHints (m : ChatMessage) : ChatMessage :=
  {| id := id m; role := role m; persona := persona m; text := text m;
     topic := topic m; msg_analysis := msg_analysis m; hints := None |}.

(** The state with every hint removed, from the current question and
    from the stored messages. *)
Definition eraseHints (s : State) : State :=
  setCurrentHints None (setMessages (map withoutHints) s).

(** The three components together.  The state of a child component lives
    while the child is in the tree and starts afresh when it is mounted
    again. *)
Record Client := {
  chat : World;
  recorder : VoiceRecorder.State;
  panel : HintPanel.State
}.

Definition initial : Client :=
  {| chat := {| st := Chat.initial; pending := [] |};
     recorder := VoiceRecorder.initial;
     panel := HintPanel.initial |}.

Definition remount (p : Props) (c : Client) : Client :=
  {| chat := chat c;
     recorder := if recorderMounted (st (chat c)) then recorder c
                 else VoiceRecorder.initial;
     panel := match hintPanelProps p (st (chat c)) with
              | Some _ => panel c
              | None => HintPanel.initial
              end |}.

(** What can happen to the mounted component.  A socket event carries
    the closure of the render in which [startRecording] installed the
    socket handlers: the [onDone] they call is the one of that render. *)
Inductive Event :=
| MountEffect
| ChangeInput (v : jsstring)
| SetInputMode (m : InputMode)
| SubmitForm (now : Z)
| Socket (c : Closure) (now : Z) (e : VoiceRecorder.SocketEvent)
| SubmitAnswerSettles (r : Result AnswerResponse)
| GetNextQuestionSettles (now : Z) (r : Result NextQuestionResponse)
| PanelClick (a : HintPanel.Action).

(** The first suspended continuation of the wanted kind, and the others. *)
Fixpoint takePending (want : Pending -> bool) (l : list Pending)
    : option (Pending * list Pending) :=
  match l with
  | [] => None
  | x :: rest =>
      if want x then Some (x, rest)
      else match takePending want rest with
           | Some (y, rest') => Some (y, x :: rest')
           | None => None
           end
  end.

(** The props InterviewChat passes to the recorder:
    [onTranscript = handleVoiceTranscript], [onDone = handleVoiceDone],
    [onError = msg => console.error("Voice error:", msg)]. *)
Definition dispatch (p : Props) (c : Closure) (now : Z)
    (cb : VoiceRecorder.Callback) (w : World) : World * list Effect :=
  match cb with
  | VoiceRecorder.OnTranscript txt isFinal =>
      ({| st := handleVoiceTranscript txt isFinal (st w);
          pending := pending w |}, [])
  | VoiceRecorder.OnDone transcript vm => handleVoiceDone p c now transcript vm w
  | VoiceRecorder.OnError msg => (w, [ConsoleError (VoiceError msg)])
  end.

Fixpoint dispatchAll (p : Props) (c : Closure) (now : Z)
    (cbs : list VoiceRecorder.Callback) (w : World) : World * list Effect :=
  match cbs with
  | [] => (w, [])
  | cb :: rest =>
      let '(w1, e1) := dispatch p c now cb w in
      let '(w2, e2) := dispatchAll p c now rest w1 in
      (w2, e1 ++ e2)
  end.

Definition isAwaitNext (x : Pending) : bool := negb (isAwaitSubmit x).

Definition handleEvent (p : Props) (ev : Event) (c : Client)
    : Client * list Effect :=
  match ev with
  | MountEffect =>
      let '(w, eff) := mountEffect p (chat c) in
      ({| chat := w; recorder := recorder c; panel := panel c |}, eff)
  | ChangeInput v =>
      ({| chat := {| st := setInputText v (st (chat c));
                     pending := pending (chat c) |};
          recorder := recorder c; panel := panel c |}, [])
  | SetInputMode m =>
      ({| chat := {| st := setInputMode m (st (chat c));
                     pending := pending (chat c) |};
          recorder := recorder c; panel := panel c |}, [])
  | SubmitForm now =>
      let '(w, eff) := handleTextSubmit p now (chat c) in
      ({| chat := w; recorder := recorder c; panel := panel c |}, eff)
  | Socket cl now e =>
      let '(r, cbs) := VoiceRecorder.handle e (recorder c) in
      let '(w, eff) := dispatchAll p cl now cbs (chat c) in
      ({| chat := w; recorder := r; panel := panel c |}, eff)
  | SubmitAnswerSettles r =>
      match takePending isAwaitSubmit (pending (chat c)) with
      | Some (AwaitSubmitAnswer userMsgId cl, rest) =>
          let '(w, eff) :=
            handleSubmitAnswer_resume p userMsgId cl r
              {| st := st (chat c); pending := rest |} in
          ({| chat := w; recorder := recorder c; panel := panel c |}, eff)
      | _ => (c, [])
      end
  | GetNextQuestionSettles now r =>
      match takePending isAwaitNext (pending (chat c)) with
      | Some (_, rest) =>
          let '(s, eff) := fetchNextQuestion_resume now r (st (chat c)) in
          ({| chat := {| st := s; pending := rest |};
              recorder := recorder c; panel := panel c |}, eff)
      | None => (c, [])
      end
  | PanelClick a =>
      match hintPanelProps p (st (chat c)) with
      | Some hp =>
          (* the panel was given no [onReveal]: its callbacks go nowhere *)
          ({| chat := chat c; recorder := recorder c;
              panel := fst (HintPanel.click hp a (panel c)) |}, [])
      | None => (c, [])
      end
  end.

Definition step (p : Props) (ev : Event) (c : Client) : Client * list Effect :=
  let '(c', eff) := handleEvent p ev c in (remount p c', eff).

Fixpoint run (p : Props) (evs : list Event) (c : Client)
    : Client * list Effect :=
  match evs with
  | [] => (c, [])
  | ev :: rest =>
      let '(c1, e1) := step p ev c in
      let '(c2, e2) := run p rest c1 in
      (c2, e1 ++ e2)
  end.

(** The component after its first commit: the mount effect has run. *)
Definition mounted (p : Props) : Client := fst (step p MountEffect initial).

(** A [done] message is handled by the render that is on screen: the
    closure the socket handler holds agrees with the current state. *)
Definition fresh (ev : Event) (c : Client) : bool :=
  match ev with
  | Socket cl _ (VoiceRecorder.WsMessage (VoiceRecorder.MsgDone _ _)) =>
      Bool.eqb (c_loading cl) (loading (st (chat c)))
  | _ => true
  end.

Fixpoint freshRun (p : Props) (evs : list Event) (c : Client) : bool :=
  match evs with
  | [] => true
  | ev :: rest => fresh ev c && freshRun p rest (fst (step p ev c))
  end.

(** The invariant of the running component: the mount effect has run,
    at most one continuation is suspended, and [loading] is set while
    one is. *)
Definition Inv (c : Client) : Prop :=
  hasFetchedFirst (st (chat c)) = true /\
  (List.length (pending (chat c)) <= 1)%nat /\
  (pending (chat c) <> [] -> loading (st (chat c)) = true).

Definition isPanelClick (ev : Event) : bool :=
  match ev with PanelClick _ => true | _ => false end.

(** A run with the clicks on the hint panel left out. *)
Definition withoutPanelClicks (evs : list Event) : list Event :=
  filter (fun ev => negb (isPanelClick ev)) evs.

Definition isSubmit (e : Effect) : bool :=
  match e with CallSubmitAnswer _ _ => true | _ => false end.

(** The [submitAnswer] requests among some effects. *)
Definition submits (effs : list Effect) : list Effect := filter isSubmit effs.

End Client.

(* ===================================================================== *)
(** ** The back end, as the specification describes it

    The Python back end (agents, tools, state) is not part of the
    sources at hand; the front end only declares the shapes of its
    answers in [lib/types.ts].  The definitions of this part follow the
    wording of the specification. *)
(* ===================================================================== *)

Module Analysis.















End Analysis.

Module Orchestrator.

Inductive Phase :=
| SETUP | RESEARCHING | PLANNING | INTERVIEWING | EVALUATING | DONE.

Inductive Action := follow_up | next_question | switch_persona | end_interview.

Record PlanItem := {
  pi_question : jsstring;
  pi_persona : Persona;
  pi_topic : jsstring;
  pi_priority : jsstring;
  pi_depth : jsstring
}.

(** A finalized turn, with the plan item it belongs to and the routing
    decision taken after it. *)
Record Turn := {
  t_number : nat;
  t_item : nat;
  t_persona : Persona;
  t_quality : Quality;
  t_action : Action
}.

Section Session.

(** The final report is left abstract. *)
Variable Report : Type.

(** Modelled from the spec: the "configured limit" of evasive answers
    past which routing ends the interview; the specification gives no
    number. *)
Variable evasive_limit : nat.

Record Session := {
  phase : Phase;
  s_mode : Mode;
  plan : list PlanItem;
  index : nat;          (* current plan item *)
  followups : nat;      (* follow-ups already asked on the current item *)
  turns : list Turn;
  report : option Report
}.

(** Modelled from the spec: the fixed rotation of personas, "HM->Tech->HR->HM". *)
Definition rotate (p : Persona) : Persona :=
  match p with HM => Tech | Tech => HR | HR => HM end.

Definition Persona_eqb (a b : Persona) : bool :=
  match a, b with
  | HM, HM | Tech, Tech | HR, HR => true
  | _, _ => false
  end.

(** Whether the current plan item closes the contiguous block of its
    persona. *)
Definition lastOfBlock (s : Session) : bool :=
  match nth_error (plan s) (index s), nth_error (plan s) (S (index s)) with
  | Some cur, Some nxt => negb (Persona_eqb (pi_persona cur) (pi_persona nxt))
  | _, _ => true
  end.

Definition isEvasive (q : Quality) : bool :=
  match q with evasive => true | _ => false end.

(** The evasive answers of the session so far. *)
Definition evasiveAnswers (s : Session) : nat :=
  List.length (filter (fun t => isEvasive (t_quality t)) (turns s)).

(** Modelled from the spec: the routing decision of the persona router
    (missing).  Section 4.1: routing emits [end_interview] on "repeated
    evasive answers past a configured limit": the answer is evasive and
    with it the evasive answers of the session exceed the limit.
    Section 4.2: otherwise evasive answers, critical flags and weak
    answers ask for a follow-up while none was asked on the item ("at
    most one follow-up per plan item before forced advance"); adequate
    and strong answers, or an exhausted budget, advance, with
    [switch_persona] at the end of a persona's block. *)
Definition route (q : Quality) (criticalFlag : bool) (s : Session) : Action :=
  let wantsFollowUp :=
    match q with
    | evasive | weak => true
    | adequate | strong => criticalFlag
    end in
  if isEvasive q && (evasive_limit <? S (evasiveAnswers s))%nat
  then end_interview
  else if wantsFollowUp && (followups s =? 0)%nat then follow_up
  else if lastOfBlock s then switch_persona
  else next_question.

Definition currentPersona (s : Session) : Persona :=
  match nth_error (plan s) (index s) with
  | Some it => pi_persona it
  | None => HM
  end.

Inductive Error := InvalidSessionState | EmptySession.

Definition isInterviewing (p : Phase) : bool :=
  match p with INTERVIEWING => true | _ => false end.

(** Modelled from the spec: the turn pipeline of the master agent
    (missing), after analysis: the routing decision is taken, the turn
    is appended with the next turn number, and the session stays on the
    item (follow-up), moves to the next one, or goes to [EVALUATING] when
    the plan is exhausted, "or immediately if routing emits
    [end_interview]".  "Submit answer fails with InvalidState if
    session is not INTERVIEWING." *)
Definition submit_answer (q : Quality) (criticalFlag : bool) (s : Session)
    : Session + Error :=
  if negb (isInterviewing (phase s)) then inr InvalidSessionState
  else
    let act := route q criticalFlag s in
    let t := {| t_number := S (List.length (turns s)); t_item := index s;
                t_persona := currentPersona s; t_quality := q;
                t_action := act |} in
    match act with
    | follow_up =>
        inl {| phase := INTERVIEWING; s_mode := s_mode s; plan := plan s;
               index := index s; followups := S (followups s);
               turns := turns s ++ [t]; report := report s |}
    | end_interview =>
        inl {| phase := EVALUATING; s_mode := s_mode s; plan := plan s;
               index := index s; followups := followups s;
               turns := turns s ++ [t]; report := report s |}
    | _ =>
        inl {| phase := if (List.length (plan s) <=? S (index s))%nat
                        then EVALUATING else INTERVIEWING;
               s_mode := s_mode s; plan := plan s;
               index := S (index s); followups := 0;
               turns := turns s ++ [t]; report := report s |}
    end.

(** A run of the pipeline over the analyses of successive answers; it
    stops at the first refused submission. *)
Fixpoint submit_all (answers : list (Quality * bool)) (s : Session) : Session :=
  match answers with
  | [] => s
  | (q, c) :: rest =>
      match submit_answer q c s with
      | inl s' => submit_all rest s'
      | inr _ => s
      end
  end.

(** The routing decisions of a session, in order, each with its plan
    item. *)
Definition decisions (s : Session) : list (nat * Action) :=
  map (fun t => (t_item t, t_action t)) (turns s).












(** A session as planning leaves it: the interview starts on the first
    plan item, nothing asked yet. *)
Definition planned (m : Mode) (items : list PlanItem) : Session :=
  {| phase := INTERVIEWING; s_mode := m; plan := items; index := 0;
     followups := 0; turns := []; report := None |}.

(** Modelled from the spec: [get_next] of the back end (missing):
    "{done, question?, persona?, topic?, hints?} (hints omitted/empty
    when mode=real)"; a [done] signal once the plan is exhausted.
    [hintsFor] stands for the hint generator. *)
Definition get_next (hintsFor : PlanItem -> HintData) (s : Session)
    : NextQuestionResponse :=
  match nth_error (plan s) (index s) with
  | Some it =>
      if isInterviewing (phase s) then
        {| done := false; message := None;
           question := Some (pi_question it);
           nq_persona := Some (pi_persona it);
           nq_topic := Some (pi_topic it);
           nq_hints := match s_mode s with
                       | practice => Some (hintsFor it)
                       | real => None
                       end |}
      else {| done := true; message := None; question := None;
              nq_persona := None; nq_topic := None; nq_hints := None |}
  | None => {| done := true; message := None; question := None;
               nq_persona := None; nq_topic := None; nq_hints := None |}
  end.

Definition isDonePhase (p : Phase) : bool :=
  match p with DONE => true | _ => false end.

(** Modelled from the spec: [evaluate] of the back end (missing), an
    "idempotent get-or-compute": an already-[DONE] session returns the
    cached report, a session with zero turns fails with [EmptySession],
    otherwise the evaluation agent [agent] runs over the turn history,
    its report is stored and the session becomes [DONE]. *)
Definition evaluate (agent : list Turn -> Report) (s : Session)
    : (Report + Error) * Session :=
  match isDonePhase (phase s), report s with
  | true, Some r => (inl r, s)
  | _, _ =>
      match turns s with
      | [] => (inr EmptySession, s)
      | _ :: _ =>
          let r := agent (turns s) in
          (inl r,
           {| phase := DONE; s_mode := s_mode s; plan := plan s;
              index := index s; followups := followups s;
              turns := turns s; report := Some r |})
      end
  end.

End Session.

End Orchestrator.

(* ===================================================================== *)
(** ** Sample data *)
(* ===================================================================== *)

Module Sample.

Import Chat Client.

Definition props (m : Mode) : Props :=
  {| sessionId := of_string "s-1"; totalQuestions := 2; mode := m;
     vocabularyName := None |}.

Definition someHints : HintData :=
  {| bullets := Some [of_string "name the project"];
     personal_hooks := None;
     avoid := Some [of_string "rambling"];
     example_answer := Some (of_string "In my last role I led ...") |}.

(** Hints with neither bullets nor personal hooks. *)
Definition bareHints : HintData :=
  {| bullets := Some []; personal_hooks := None;
     avoid := Some [of_string "rambling"];
     example_answer := Some (of_string "In my last role I led ...") |}.

Definition firstQuestion : NextQuestionResponse :=
  {| done := false; message := None;
     question := Some (of_string "Tell me about a project.");
     nq_persona := Some HM; nq_topic := Some (of_string "leadership");
     nq_hints := Some someHints |}.

Definition someMetrics : VoiceMetrics :=
  {| response_latency_s := Some (3 # 2); answer_duration_s := 12 # 1;
     filler_count := 1; filler_words := Some [of_string "um"];
     word_count := 30; filler_rate_per_min := 5 # 1 |}.

(** The user types an answer and presses Send twice. *)
Definition typedTwice : list Event :=
  [ GetNextQuestionSettles 1 (Resolved firstQuestion);
    SetInputMode text_mode;
    ChangeInput (of_string "I led the migration.");
    SubmitForm 2;
    ChangeInput (of_string "again");
    SubmitForm 3 ].

Definition plan : list Orchestrator.PlanItem :=
  [ {| Orchestrator.pi_question := of_string "Tell me about a project.";
       Orchestrator.pi_persona := HM;
       Orchestrator.pi_topic := of_string "leadership";
       Orchestrator.pi_priority := of_string "high";
       Orchestrator.pi_depth := of_string "deep" |};
    {| Orchestrator.pi_question := of_string "Design a rate limiter.";
       Orchestrator.pi_persona := Tech;
       Orchestrator.pi_topic := of_string "system design";
       Orchestrator.pi_priority := of_string "high";
       Orchestrator.pi_depth := of_string "deep" |};
    {| Orchestrator.pi_question := of_string "Why this company?";
       Orchestrator.pi_persona := HR;
       Orchestrator.pi_topic := of_string "motivation";
       Orchestrator.pi_priority := of_string "medium";
       Orchestrator.pi_depth := of_string "shallow" |} ].

(** Evasive twice on the first item, then a weak and a strong answer on
    the second, then an adequate answer with a critical flag. *)
Definition answers : list (Quality * bool) :=
  [ (evasive, false); (evasive, false); (weak, false); (strong, false);
    (adequate, true); (adequate, true) ].




(** Binary32 samples: 1, -0.3 (nearest binary32), 2^33 + 5 * 2^10, and
    the smallest negative subnormal. *)
Definition buffer : list spec_float :=
  [ S754_finite false 8388608 (-23);
    S754_finite true 10066330 (-25);
    S754_finite false 8388613 10;
    S754_finite true 1 (-149);
    S754_infinity true; S754_nan; S754_zero true ].

(** The first question is on screen, in practice mode; the user opens
    the hints and then asks for the example answer. *)
Definition revealExample : list Event :=
  [ GetNextQuestionSettles 1 (Resolved firstQuestion);
    PanelClick HintPanel.ClickToggle;
    PanelClick HintPanel.ClickShowExample ].

(** The closure of a render that shows a question and is not loading. *)
Definition idle : Closure :=
  {| c_loading := false; c_currentPersona := Some HM |}.

Definition answered : AnswerResponse :=
  {| analysis := {| quality := adequate; confidence_score := 60;
                    specificity_score := 55; star_score := 50;
                    key_points_covered := None; missing_points := None;
                    flags := None; summary := None |};
     consistency := None;
     routing := {| next_persona := HM; action := of_string "next_question";
                   reason := []; suggested_topic := None |};
     turn_number := 1; is_interview_over := false |}.

(** The first question is answered by voice, the second one is typed,
    and Send is pressed twice. *)
Definition spokenThenTyped : list Event :=
  [ GetNextQuestionSettles 1 (Resolved firstQuestion);
    Socket idle 2 VoiceRecorder.WsOpen;
    Socket idle 3 (VoiceRecorder.WsMessage
                     (VoiceRecorder.MsgPartial (of_string "I led")));
    Socket idle 4 (VoiceRecorder.WsMessage
                     (VoiceRecorder.MsgDone (of_string "I led the migration.")
                        someMetrics));
    SubmitAnswerSettles (Resolved answered);
    GetNextQuestionSettles 5 (Resolved firstQuestion) ] ++ typedTwice.

(** A recording under way on the first question. *)
Definition recordingStarted : list Event :=
  [ GetNextQuestionSettles 1 (Resolved firstQuestion);
    Socket idle 2 VoiceRecorder.WsOpen;
    Socket idle 3 (VoiceRecorder.WsMessage
                     (VoiceRecorder.MsgPartial (of_string "I led"))) ].

(** Two [done] messages on the socket of one recording: the handlers
    installed by [startRecording] call the [onDone] of the render in
    which the recording was started, whose [loading] is false. *)
Definition twoDones : list Event :=
  [ GetNextQuestionSettles 1 (Resolved firstQuestion);
    Socket idle 2 VoiceRecorder.WsOpen;
    Socket idle 3 (VoiceRecorder.WsMessage
                     (VoiceRecorder.MsgDone (of_string "I led the migration.")
                        someMetrics));
    Socket idle 4 (VoiceRecorder.WsMessage
                     (VoiceRecorder.MsgDone (of_string "I led the migration.")
                        someMetrics)) ].

(** A recording that fails: the server reports an error. *)
Definition failedRecording : list Event :=
  recordingStarted ++
  [ Socket idle 4 (VoiceRecorder.WsMessage
                     (VoiceRecorder.MsgError (of_string "transcribe failed"))) ].

(** After the error the socket is still open and a [done] message
    arrives on it. *)
Definition errorThenDone : list Event :=
  failedRecording ++
  [ Socket idle 5 (VoiceRecorder.WsMessage
                     (VoiceRecorder.MsgDone (of_string "I led") someMetrics)) ].

(** A limit of evasive answers no sample interview reaches, and one
    the second evasive answer passes. *)
Definition lenient : nat := 3.

End Sample.

(* ===================================================================== *)
(** ** What the chat shows: observations on the state of InterviewChat *)
(* ===================================================================== *)

Module Transcript.

Import Chat Client.

Definition isInterviewer (m : ChatMessage) : bool :=
  match role m with interviewer => true | user => false end.

Definition isUser (m : ChatMessage) : bool :=
  match role m with user => true | interviewer => false end.

(** Number of questions in the chat. *)
Definition questionsShown (s : State) : nat :=
  List.length (filter isInterviewer (messages s)).

(** The texts of the answers in the chat, in order. *)
Definition userTexts (s : State) : list jsstring :=
  map text (filter isUser (messages s)).

(** The answers of the [submitAnswer] requests among some effects, in
    order. *)
Fixpoint postedAnswers (effs : list Effect) : list jsstring :=
  match effs with
  | [] => []
  | CallSubmitAnswer _ d :: rest => answer d :: postedAnswers rest
  | _ :: rest => postedAnswers rest
  end.

(** A message without its analysis badge. *)
Definition bare (m : ChatMessage) : ChatMessage :=
  {| id := id m; role := role m; persona := persona m; text := text m;
     topic := topic m; msg_analysis := None; hints := hints m |}.

(** The chat with the analysis badges left out. *)
Definition transcript (s : State) : list ChatMessage :=
  map bare (messages s).

(** No question carries an analysis. *)
Definition questionsPlain (s : State) : bool :=
  forallb (fun m => if isInterviewer m
                    then match msg_analysis m with None => true | Some _ => false end
                    else true)
          (messages s).

(** The hints of the current question are those stored with the last
    message of the chat, a question. *)
Definition hintsOfLastQuestion (s : State) : Prop :=
  match currentHints s with
  | None => True
  | Some h =>
      exists earlier m,
        messages s = earlier ++ [m]
        /\ role m = interviewer /\ hints m = Some h
  end.

(** The message [handleSubmitAnswer] appends for an answer. *)
Definition userMessage (now : Z) (answerText : jsstring) : ChatMessage :=
  {| id := AId now; role := user; persona := None; text := answerText;
     topic := None; msg_analysis := None; hints := None |}.

(** The update of the messages when the analysis of the answer
    [userMsgId] arrives. *)
Definition annotate (a : AnswerAnalysis) (userMsgId : MsgId)
    (msgs : list ChatMessage) : list ChatMessage :=
  map (fun m => if MsgId_eqb (id m) userMsgId then withAnalysis a m else m) msgs.

(** What one event can do to the chat: nothing to the messages, append
    an answer, attach an analysis, or append a question. *)
Inductive Change (s s' : State) (eff : list Effect) : Prop :=
| Unchanged :
    messages s' = messages s -> currentQuestion s' = currentQuestion s ->
    currentHints s' = currentHints s -> postedAnswers eff = [] ->
    (isDone s = true -> isDone s' = true) ->
    Change s s' eff
| Answered (now : Z) (txt : jsstring) :
    messages s' = messages s ++ [userMessage now txt] ->
    currentQuestion s' = currentQuestion s ->
    currentHints s' = None -> postedAnswers eff = [txt] ->
    isDone s' = isDone s ->
    Change s s' eff
| Analysed (a : AnswerAnalysis) (u : MsgId) :
    messages s' = annotate a u (messages s) ->
    currentQuestion s' = currentQuestion s ->
    currentHints s' = currentHints s -> postedAnswers eff = [] ->
    (isDone s = true -> isDone s' = true) ->
    Change s s' eff
| Asked (m : ChatMessage) :
    messages s' = messages s ++ [m] ->
    role m = interviewer -> msg_analysis m = None ->
    currentHints s' = hints m ->
    currentQuestion s' = currentQuestion s + 1 ->
    postedAnswers eff = [] -> isDone s' = isDone s ->
    Change s s' eff.

(** Whether the Send button of the text form is disabled, when the form
    is on screen. *)
Definition sendDisabled (v : View) : option bool :=
  match v with
  | Interview m =>
      match inputArea m with
      | TextInput _ _ d => Some d
      | VoiceInput _ => None
      end
  | InterviewComplete _ => None
  end.

(** While an answer awaits its response, its bubble is the last message
    of the chat and has no analysis yet. *)
Definition awaitedAnswerIsLast (w : World) : Prop :=
  forall u cl,
    pending w = [AwaitSubmitAnswer u cl] ->
    exists earlier m,
      messages (st w) = earlier ++ [m]
      /\ id m = u /\ role m = user /\ msg_analysis m = None.

(** While a request is in flight no hints are on offer. *)
Definition noHintsWhileBusy (w : World) : Prop :=
  pending w <> [] -> currentHints (st w) = None.

(** The loading indicator stands for a request in flight. *)
Definition loadingIsAwaiting (w : World) : Prop :=
  pending w = [] -> loading (st w) = false.

(** A run in which the interview is over at once. *)
Definition overAtOnce : list Event :=
  [ GetNextQuestionSettles 1
      (Resolved {| done := true; message := None; question := None;
                   nq_persona := None; nq_topic := None; nq_hints := None |}) ].

End Transcript.

(* ===================================================================== *)
(** ** Observations on HintPanel and on the PCM conversion *)
(* ===================================================================== *)

Module PanelRuns.

Import HintPanel.

Definition isToggle (a : Action) : bool :=
  match a with ClickToggle => true | ClickShowExample => false end.

(** Number of clicks on the toggle button. *)
Definition toggles (acts : list Action) : nat :=
  List.length (filter isToggle acts).

(** The panel renders something: it has bullets or personal hooks. *)
Definition rendered (p : Props) : bool :=
  hasLength (bullets (hints p)) || hasLength (personal_hooks (hints p)).

(** A panel with everything in it, reporting its openings. *)
Definition reporting : Props :=
  {| hints := Sample.someHints; disabled := false; onReveal := true |}.

End PanelRuns.

Module Sample2.

Import Chat Client.

(** The first question is answered by voice; the response is awaited. *)
Definition answerPosted : list Event :=
  Sample.recordingStarted ++
  [ Socket Sample.idle 4
      (VoiceRecorder.WsMessage
         (VoiceRecorder.MsgDone (of_string "I led the migration.")
            Sample.someMetrics)) ].

(** The first question is answered and the analysis has arrived; the
    second question is awaited. *)
Definition secondQuestionAwaited : list Event :=
  answerPosted ++ [ SubmitAnswerSettles (Resolved Sample.answered) ].

End Sample2.

(* ===================================================================== *)
(** ** lib/types.ts: starting an interview *)
(* ===================================================================== *)

Module StartApi.

Inductive Model := haiku | sonnet.

Record StartRequest := {
  sr_company : jsstring;
  sr_role : jsstring;
  resume_path : option jsstring;
  linkedin_path : option jsstring;
  linkedin_url : option jsstring;
  sr_mode : Mode;
  model : option Model;
  question_count : option Z
}.

Record ResearchBriefSummary := {
  rb_company : jsstring;
  gaps_count : Z;
  keywords_count : Z
}.

Record Vocabulary := { vocabulary_name : jsstring; status : jsstring }.

Record StartResponse := {
  session_id : jsstring;
  research_brief_summary : ResearchBriefSummary;
  plan_length : Z;
  vocabulary : option Vocabulary
}.

(** [a === b] on strings. *)
Fixpoint str_eqb (a b : jsstring) : bool :=
  match a, b with
  | [], [] => true
  | x :: a', y :: b' => N.eqb x y && str_eqb a' b'
  | _, _ => false
  end.

(** No string occurs twice. *)
Fixpoint noRepeat (xs : list jsstring) : bool :=
  match xs with
  | [] => true
  | x :: rest => negb (existsb (str_eqb x) rest) && noRepeat rest
  end.

(** The element at position [n] of a list, and the others. *)
Fixpoint takeNth {A : Type} (n : nat) (l : list A) : option (A * list A) :=
  match l, n with
  | [], _ => None
  | x :: rest, O => Some (x, rest)
  | x :: rest, S n' =>
      match takeNth n' rest with
      | Some (y, rest') => Some (y, x :: rest')
      | None => None
      end
  end.

End StartApi.

(* ===================================================================== *)
(** ** app/page.tsx *)
(* ===================================================================== *)

Module Phase.

Inductive t := setup | researching | interview | report.

End Phase.

Module Home.

Import StartApi.

Section Page.

(** The page hands what [evaluateInterview] resolves to, the body of
    the response, to [Report] without looking into it; it only tests
    it for truthiness ([report && ...]). *)
Variable EvaluationReport : Type.
Variable truthyReport : EvaluationReport -> bool.

Record State := {
  phase : Phase.t;
  loading : bool;
  sessionId : jsstring;
  company : jsstring;
  role : jsstring;
  mode : Mode;
  totalQuestions : Z;
  vocabularyName : option jsstring;
  report : option EvaluationReport
}.

Definition initial : State := {|
  phase := Phase.setup; loading := false; sessionId := []; company := [];
  role := []; mode := practice; totalQuestions := 0; vocabularyName := None;
  report := None |}.

Definition setPhase (v : Phase.t) (s : State) : State :=
  {| phase := v; loading := loading s; sessionId := sessionId s;
     company := company s; role := role s; mode := mode s;
     totalQuestions := totalQuestions s; vocabularyName := vocabularyName s;
     report := report s |}.

Definition setLoading (v : bool) (s : State) : State :=
  {| phase := phase s; loading := v; sessionId := sessionId s;
     company := company s; role := role s; mode := mode s;
     totalQuestions := totalQuestions s; vocabularyName := vocabularyName s;
     report := report s |}.

Definition setSessionId (v : jsstring) (s : State) : State :=
  {| phase := phase s; loading := loading s; sessionId := v;
     company := company s; role := role s; mode := mode s;
     totalQuestions := totalQuestions s; vocabularyName := vocabularyName s;
     report := report s |}.

Definition setCompany (v : jsstring) (s : State) : State :=
  {| phase := phase s; loading := loading s; sessionId := sessionId s;
     company := v; role := role s; mode := mode s;
     totalQuestions := totalQuestions s; vocabularyName := vocabularyName s;
     report := report s |}.

Definition setRole (v : jsstring) (s : State) : State :=
  {| phase := phase s; loading := loading s; sessionId := sessionId s;
     company := company s; role := v; mode := mode s;
     totalQuestions := totalQuestions s; vocabularyName := vocabularyName s;
     report := report s |}.

Definition setMode (v : Mode) (s : State) : State :=
  {| phase := phase s; loading := loading s; sessionId := sessionId s;
     company := company s; role := role s; mode := v;
     totalQuestions := totalQuestions s; vocabularyName := vocabularyName s;
     report := report s |}.

Definition setTotalQuestions (v : Z) (s : State) : State :=
  {| phase := phase s; loading := loading s; sessionId := sessionId s;
     company := company s; role := role s; mode := mode s;
     totalQuestions := v; vocabularyName := vocabularyName s;
     report := report s |}.

Definition setVocabularyName (v : option jsstring) (s : State) : State :=
  {| phase := phase s; loading := loading s; sessionId := sessionId s;
     company := company s; role := role s; mode := mode s;
     totalQuestions := totalQuestions s; vocabularyName := v;
     report := report s |}.

Definition setReport (v : option EvaluationReport) (s : State) : State :=
  {| phase := phase s; loading := loading s; sessionId := sessionId s;
     company := company s; role := role s; mode := mode s;
     totalQuestions := totalQuestions s; vocabularyName := vocabularyName s;
     report := v |}.

Inductive ConsoleLine := FailedToStartInterview | FailedToGenerateReport.

Inductive AlertLine :=
| StartFailedAlert     (* "Failed to start interview. Please check ..." *)
| EvaluateFailedAlert. (* "Failed to generate evaluation report." *)

Inductive Effect :=
| CallStartInterview (data : StartRequest)
| CallEvaluateInterview (sid : jsstring)
| ConsoleError (line : ConsoleLine)
| Alert (line : AlertLine).

(** A suspended [await]. *)
Inductive Pending := AwaitStartInterview | AwaitEvaluateInterview.

Record World := { st : State; pending : list Pending }.

(** [handleStart], up to its [await]. *)
Definition handleStart (data : StartRequest) (w : World) : World * list Effect :=
  ({| st := setPhase Phase.researching
              (setLoading true
                 (setMode (sr_mode data)
                    (setRole (sr_role data)
                       (setCompany (sr_company data) (st w)))));
      pending := pending w ++ [AwaitStartInterview] |},
   [CallStartInterview data]).

(** [handleStart], from the [await] to the end of [finally];
    [res.vocabulary?.vocabulary_name] is [undefined] for a [null]
    vocabulary. *)
Definition handleStart_resume (r : Chat.Result StartResponse) (s : State)
    : State * list Effect :=
  match r with
  | Chat.Resolved res =>
      (setLoading false
         (setPhase Phase.interview
            (setVocabularyName (option_map vocabulary_name (vocabulary res))
               (setTotalQuestions (plan_length res)
                  (setSessionId (session_id res) s)))), [])
  | Chat.Rejected =>
      (setLoading false (setPhase Phase.setup s),
       [ConsoleError FailedToStartInterview; Alert StartFailedAlert])
  end.

(** [handleInterviewEnd], up to its [await].  The callback is rebuilt
    when [sessionId] changes and InterviewChat gets the current one, so
    the session id it sends is the one of the state. *)
Definition handleInterviewEnd (w : World) : World * list Effect :=
  ({| st := setLoading true (st w);
      pending := pending w ++ [AwaitEvaluateInterview] |},
   [CallEvaluateInterview (sessionId (st w))]).

Definition handleInterviewEnd_resume (r : Chat.Result EvaluationReport)
    (s : State) : State * list Effect :=
  match r with
  | Chat.Resolved evalReport =>
      (setLoading false (setPhase Phase.report (setReport (Some evalReport) s)),
       [])
  | Chat.Rejected =>
      (setLoading false s,
       [ConsoleError FailedToGenerateReport; Alert EvaluateFailedAlert])
  end.

Definition handleRestart (s : State) : State :=
  setVocabularyName None
    (setTotalQuestions 0
       (setReport None (setSessionId [] (setPhase Phase.setup s)))).

(** *** The JSX *)

Record Header := {
  hd_company : jsstring;
  hd_role : jsstring;
  modeLabel : option string    (* shown during the interview only *)
}.

(** The main content; the four conditions of the JSX name four
    different phases, so that at most one holds. *)
Inductive Main :=
| SetupFormView (loading : bool)
| ResearchProgressView (company role : jsstring)
| InterviewChatView (props : Chat.Props)
| ReportView (r : EvaluationReport).

Record View := {
  historyVisible : bool;
  header : option Header;
  main : option Main;
  overlay : bool      (* "Generating evaluation report..." *)
}.

Definition isReport (p : Phase.t) : bool :=
  match p with Phase.report => true | _ => false end.

Definition render (s : State) : View :=
  {| historyVisible :=
       match phase s with Phase.setup => true | _ => false end;
     header :=
       match phase s with
       | Phase.interview =>
           Some {| hd_company := company s; hd_role := role s;
                   modeLabel := Some match mode s with
                                     | practice => "Practice Mode"%string
                                     | real => "Real Mode"%string
                                     end |}
       | Phase.report =>
           Some {| hd_company := company s; hd_role := role s;
                   modeLabel := None |}
       | _ => None
       end;
     main :=
       match phase s with
       | Phase.setup => Some (SetupFormView (loading s))
       | Phase.researching => Some (ResearchProgressView (company s) (role s))
       | Phase.interview =>
           if truthy (sessionId s)
           then Some (InterviewChatView
                        {| Chat.sessionId := sessionId s;
                           Chat.totalQuestions := totalQuestions s;
                           Chat.mode := mode s;
                           Chat.vocabularyName := vocabularyName s |})
           else None
       | Phase.report =>
           match report s with
           | Some r => if truthyReport r then Some (ReportView r) else None
           | None => None
           end
       end;
     overlay := loading s && isReport (phase s) |}.

(** *** What can happen to the page *)

Inductive Event :=
| OnStart (data : StartRequest)                 (* SetupForm calls [onStart] *)
| StartInterviewSettles (r : Chat.Result StartResponse)
| OnInterviewEnd                                (* "View Report" *)
| EvaluateInterviewSettles (r : Chat.Result EvaluationReport)
| ClickExit (confirmed : bool)                  (* the answer to [confirm] *)
| OnRestart.                                    (* Report calls [onRestart] *)

Definition isAwaitStart (x : Pending) : bool :=
  match x with AwaitStartInterview => true | AwaitEvaluateInterview => false end.

Definition isAwaitEvaluate (x : Pending) : bool := negb (isAwaitStart x).

(** The first suspended continuation of the wanted kind, and the others. *)
Fixpoint takePending (want : Pending -> bool) (l : list Pending)
    : option (Pending * list Pending) :=
  match l with
  | [] => None
  | x :: rest =>
      if want x then Some (x, rest)
      else match takePending want rest with
           | Some (y, rest') => Some (y, x :: rest')
           | None => None
           end
  end.

Definition step (ev : Event) (w : World) : World * list Effect :=
  match ev with
  | OnStart data => handleStart data w
  | StartInterviewSettles r =>
      match takePending isAwaitStart (pending w) with
      | Some (_, rest) =>
          let '(s, eff) := handleStart_resume r (st w) in
          ({| st := s; pending := rest |}, eff)
      | None => (w, [])
      end
  | OnInterviewEnd => handleInterviewEnd w
  | EvaluateInterviewSettles r =>
      match takePending isAwaitEvaluate (pending w) with
      | Some (_, rest) =>
          let '(s, eff) := handleInterviewEnd_resume r (st w) in
          ({| st := s; pending := rest |}, eff)
      | None => (w, [])
      end
  | ClickExit confirmed =>
      if confirmed
      then ({| st := handleRestart (st w); pending := pending w |}, [])
      else (w, [])
  | OnRestart => ({| st := handleRestart (st w); pending := pending w |}, [])
  end.

Fixpoint run (evs : list Event) (w : World) : World * list Effect :=
  match evs with
  | [] => (w, [])
  | ev :: rest =>
      let '(w1, e1) := step ev w in
      let '(w2, e2) := run rest w1 in
      (w2, e1 ++ e2)
  end.

Definition loaded : World := {| st := initial; pending := [] |}.

(** A callback is called by an element that is on screen: [onStart] by
    the SetupForm, [onInterviewEnd] by the InterviewChat, [onRestart]
    by the Report, and the Exit button sits in the header. *)
Definition onScreen (ev : Event) (s : State) : bool :=
  match ev with
  | OnStart _ =>
      match main (render s) with Some (SetupFormView _) => true | _ => false end
  | OnInterviewEnd =>
      match main (render s) with Some (InterviewChatView _) => true | _ => false end
  | OnRestart =>
      match main (render s) with Some (ReportView _) => true | _ => false end
  | ClickExit _ =>
      match header (render s) with Some _ => true | None => false end
  | StartInterviewSettles _ | EvaluateInterviewSettles _ => true
  end.

Fixpoint wellTimed (evs : list Event) (w : World) : bool :=
  match evs with
  | [] => true
  | ev :: rest => onScreen ev (st w) && wellTimed rest (fst (step ev w))
  end.

(** The session ids the server gave in a run. *)
Fixpoint startResponses (evs : list Event) : list StartResponse :=
  match evs with
  | [] => []
  | StartInterviewSettles (Chat.Resolved res) :: rest =>
      res :: startResponses rest
  | _ :: rest => startResponses rest
  end.

(** The session data are those of the response [res]. *)
Definition sessionOf (res : StartResponse) (p : Chat.Props) : Prop :=
  Chat.sessionId p = session_id res
  /\ Chat.totalQuestions p = plan_length res
  /\ Chat.vocabularyName p = option_map vocabulary_name (vocabulary res).

(** In the interview phase there is a session, in the report phase a
    report. *)
Definition filled (s : State) : Prop :=
  (phase s = Phase.interview -> truthy (sessionId s) = true)
  /\ (phase s = Phase.report ->
      exists r, report s = Some r /\ truthyReport r = true).

(** The reports the server gave in a run. *)
Fixpoint reports (evs : list Event) : list EvaluationReport :=
  match evs with
  | [] => []
  | EvaluateInterviewSettles (Chat.Resolved r) :: rest => r :: reports rest
  | _ :: rest => reports rest
  end.

(** The session data of the state are those of one response. *)
Definition sessionFrom (res : StartResponse) (s : State) : Prop :=
  sessionId s = session_id res
  /\ totalQuestions s = plan_length res
  /\ vocabularyName s = option_map vocabulary_name (vocabulary res).

End Page.

(** A visit: the form is submitted, the interview is held, the report
    is asked for and arrives. *)
Definition someRequest : StartRequest :=
  {| sr_company := of_string "Acme"; sr_role := of_string "Engineer";
     resume_path := None; linkedin_path := None; linkedin_url := None;
     sr_mode := practice; model := Some haiku; question_count := None |}.

Definition someResponse : StartResponse :=
  {| session_id := of_string "s-1";
     research_brief_summary :=
       {| rb_company := of_string "Acme"; gaps_count := 2;
          keywords_count := 7 |};
     plan_length := 8; vocabulary := None |}.

(** Any report counts. *)
Definition anyReport (r : unit) : bool := true.

(** The response of [evaluateInterview] is a falsy value. *)
Definition falsyReport : list (Event bool) :=
  [ OnStart bool someRequest;
    StartInterviewSettles bool (Chat.Resolved someResponse);
    OnInterviewEnd bool;
    EvaluateInterviewSettles (Chat.Resolved false) ].

Definition started : list (Event unit) :=
  [ OnStart unit someRequest;
    StartInterviewSettles unit (Chat.Resolved someResponse) ].

Definition visit : list (Event unit) :=
  started ++ [ OnInterviewEnd unit;
               EvaluateInterviewSettles (Chat.Resolved tt) ].

End Home.

(* ===================================================================== *)
(** ** components/SetupForm.tsx *)
(* ===================================================================== *)

Module SetupForm.

Import StartApi.

Record CompanyRoleOption := {
  id : jsstring;
  company : jsstring;
  role : jsstring
}.

Inductive LinkedinMode := pdf | url.

Record UploadResponse := { filename : jsstring; path : jsstring }.

(** [[...new Set(xs)]]: the distinct strings, each at its first
    occurrence. *)
Fixpoint distinct (xs : list jsstring) : list jsstring :=
  match xs with
  | [] => []
  | x :: rest => x :: filter (fun y => negb (str_eqb x y)) (distinct rest)
  end.

Section Form.

(** A [File] of the browser. *)
Variable File : Type.

Record State := {
  companyRoles : list CompanyRoleOption;
  selectedId : jsstring;
  mode : Mode;
  model : Model;
  resumeFile : option File;
  linkedinFile : option File;
  linkedinUrl : jsstring;
  linkedinMode : LinkedinMode;
  uploading : bool
}.

Definition initial : State := {|
  companyRoles := []; selectedId := []; mode := practice; model := haiku;
  resumeFile := None; linkedinFile := None; linkedinUrl := [];
  linkedinMode := pdf; uploading := false |}.

Definition setCompanyRoles (v : list CompanyRoleOption) (s : State) : State :=
  {| companyRoles := v; selectedId := selectedId s; mode := mode s;
     model := model s; resumeFile := resumeFile s;
     linkedinFile := linkedinFile s; linkedinUrl := linkedinUrl s;
     linkedinMode := linkedinMode s; uploading := uploading s |}.

Definition setSelectedId (v : jsstring) (s : State) : State :=
  {| companyRoles := companyRoles s; selectedId := v; mode := mode s;
     model := model s; resumeFile := resumeFile s;
     linkedinFile := linkedinFile s; linkedinUrl := linkedinUrl s;
     linkedinMode := linkedinMode s; uploading := uploading s |}.

Definition setUploading (v : bool) (s : State) : State :=
  {| companyRoles := companyRoles s; selectedId := selectedId s;
     mode := mode s; model := model s; resumeFile := resumeFile s;
     linkedinFile := linkedinFile s; linkedinUrl := linkedinUrl s;
     linkedinMode := linkedinMode s; uploading := v |}.

(** The [then] and the [catch] of the mount effect. *)
Definition companyRolesLoaded (r : Chat.Result (list CompanyRoleOption))
    (s : State) : State :=
  match r with
  | Chat.Resolved company_roles =>
      match company_roles with
      | first :: _ => setSelectedId (id first) (setCompanyRoles company_roles s)
      | [] => setCompanyRoles company_roles s
      end
  | Chat.Rejected => setCompanyRoles [] s
  end.

(** [companyRoles.find((cr) => cr.id === selectedId)] *)
Definition selected (s : State) : option CompanyRoleOption :=
  find (fun cr => str_eqb (id cr) (selectedId s)) (companyRoles s).

Definition companies (s : State) : list jsstring :=
  distinct (map company (companyRoles s)).

(** [selected?.company || ""] *)
Definition selectedCompany (s : State) : jsstring :=
  match selected s with
  | Some cr => if truthy (company cr) then company cr else []
  | None => []
  end.

Definition rolesForCompany (s : State) : list CompanyRoleOption :=
  filter (fun cr => str_eqb (company cr) (selectedCompany s)) (companyRoles s).

Definition handleCompanyChange (c : jsstring) (s : State) : State :=
  match find (fun cr => str_eqb (company cr) c) (companyRoles s) with
  | Some first => setSelectedId (id first) s
  | None => s
  end.

Definition handleRoleChange (r : jsstring) (s : State) : State :=
  match find (fun cr => str_eqb (company cr) (selectedCompany s)
                        && str_eqb (role cr) r) (companyRoles s) with
  | Some m => setSelectedId (id m) s
  | None => s
  end.

Inductive Effect :=
| CallUploadFile (f : File)
| OnStart (data : StartRequest)
| ConsoleErrorUploadFailed
| AlertUploadFailed.

Definition isLinkedinUrl (m : LinkedinMode) : bool :=
  match m with url => true | pdf => false end.

(** The argument of [onStart]. *)
Definition startRequest (s : State) (sel : CompanyRoleOption)
    (resumePath linkedinPath : option jsstring) : StartRequest :=
  {| sr_company := company sel;
     sr_role := role sel;
     resume_path := resumePath;
     linkedin_path := linkedinPath;
     linkedin_url :=
       if isLinkedinUrl (linkedinMode s) && truthy (trim (linkedinUrl s))
       then Some (trim (linkedinUrl s)) else None;
     sr_mode := mode s;
     StartApi.model := Some (model s);
     question_count := None |}.

(** [handleSubmit].  The handler works on the values of the render it
    belongs to, here [s]; [first] and [second] are the outcomes of the
    first and of the second call of [uploadFile], if they are made. *)
Definition handleSubmit (first second : Chat.Result UploadResponse)
    (s : State) : State * list Effect :=
  match selected s with
  | None => (s, [])
  | Some sel =>
      let failed (eff : list Effect) :=
        (setUploading false (setUploading true s),
         eff ++ [ConsoleErrorUploadFailed; AlertUploadFailed]) in
      let linkedin (next : Chat.Result UploadResponse)
                   (resumePath : option jsstring) (eff : list Effect) :=
        match linkedinMode s, linkedinFile s with
        | pdf, Some f =>
            match next with
            | Chat.Resolved res =>
                (setUploading true s,
                 eff ++ [CallUploadFile f;
                         OnStart (startRequest s sel resumePath
                                    (Some (path res)))])
            | Chat.Rejected => failed (eff ++ [CallUploadFile f])
            end
        | _, _ =>
            (setUploading true s,
             eff ++ [OnStart (startRequest s sel resumePath None)])
        end in
      match resumeFile s with
      | Some f =>
          match first with
          | Chat.Resolved res =>
              linkedin second (Some (path res)) [CallUploadFile f]
          | Chat.Rejected => failed [CallUploadFile f]
          end
      | None => linkedin first None []
      end
  end.

(** The calls of [onStart] among some effects. *)
Fixpoint started (effs : list Effect) : list StartRequest :=
  match effs with
  | [] => []
  | OnStart data :: rest => data :: started rest
  | _ :: rest => started rest
  end.

End Form.

(** Two companies, one of them with two roles. *)
Definition options : list CompanyRoleOption :=
  [ {| id := of_string "acme-swe"; company := of_string "Acme";
       role := of_string "Software Engineer" |};
    {| id := of_string "globex-pm"; company := of_string "Globex";
       role := of_string "Product Manager" |};
    {| id := of_string "acme-sre"; company := of_string "Acme";
       role := of_string "Site Reliability Engineer" |} ].

Definition filledIn : State nat :=
  {| companyRoles := options; selectedId := of_string "acme-swe";
     mode := real; model := sonnet; resumeFile := Some 1%nat;
     linkedinFile := Some 2%nat;
     linkedinUrl := of_string "  https://linkedin.com/in/someone ";
     linkedinMode := url; uploading := false |}.

Definition uploaded : UploadResponse :=
  {| filename := of_string "cv.pdf"; path := of_string "/uploads/cv.pdf" |}.

End SetupForm.

(* ===================================================================== *)
(** ** components/PasswordGate.tsx *)
(* ===================================================================== *)

Module PasswordGate.

Import StartApi.

Record State := {
  checking : bool;
  required : bool;
  authenticated : bool;
  input : jsstring;
  error : jsstring
}.

Definition initial : State := {|
  checking := true; required := false; authenticated := false;
  input := []; error := [] |}.

Definition setChecking (v : bool) (s : State) : State :=
  {| checking := v; required := required s; authenticated := authenticated s;
     input := input s; error := error s |}.

Definition setRequired (v : bool) (s : State) : State :=
  {| checking := checking s; required := v; authenticated := authenticated s;
     input := input s; error := error s |}.

Definition setAuthenticated (v : bool) (s : State) : State :=
  {| checking := checking s; required := required s; authenticated := v;
     input := input s; error := error s |}.

Definition setInput (v : jsstring) (s : State) : State :=
  {| checking := checking s; required := required s;
     authenticated := authenticated s; input := v; error := error s |}.

Definition setError (v : jsstring) (s : State) : State :=
  {| checking := checking s; required := required s;
     authenticated := authenticated s; input := input s; error := v |}.

(** A suspended request: the check of the mount effect, or the request
    [verifyPassword] makes with the password [pw]. *)
Inductive Pending := AwaitAuthCheck | AwaitVerify (pw : jsstring).

(** The component with the item [interview-pilot-pw] of the session
    storage. *)
Record World := {
  st : State;
  storage : option jsstring;
  pending : list Pending
}.

Inductive Effect :=
| CallAuthCheck                       (* GET /api/auth/check *)
| CallVerify (pw : jsstring).         (* GET company-roles, X-App-Password *)

(** [getStoredPassword]: [sessionStorage.getItem(STORAGE_KEY) || ""]. *)
Definition getStoredPassword (w : World) : jsstring :=
  match storage w with
  | Some v => if truthy v then v else []
  | None => []
  end.

(** [verifyPassword], up to its [await]. *)
Definition verifyPassword (pw : jsstring) (w : World) : World * list Effect :=
  ({| st := st w; storage := storage w;
      pending := pending w ++ [AwaitVerify pw] |}, [CallVerify pw]).

(** What the request of [verifyPassword] comes to: a response that is
    [ok], one that is not, or no response. *)
Inductive Outcome := Ok | NotOk | Threw.

Definition IncorrectPassword : jsstring := of_string "Incorrect password".
Definition CannotConnect : jsstring := of_string "Cannot connect to server".

(** [verifyPassword], from its [await] on. *)
Definition verifyPassword_resume (pw : jsstring) (o : Outcome) (w : World)
    : World :=
  match o with
  | Ok =>
      {| st := setError [] (setAuthenticated true (st w));
         storage := Some pw; pending := pending w |}
  | NotOk =>
      {| st := setError IncorrectPassword (st w);
         storage := None; pending := pending w |}
  | Threw =>
      {| st := setError CannotConnect (st w);
         storage := storage w; pending := pending w |}
  end.

(** The mount effect and its handlers: [then], [catch], [finally]. *)
Definition mountEffect (w : World) : World * list Effect :=
  ({| st := st w; storage := storage w;
      pending := pending w ++ [AwaitAuthCheck] |}, [CallAuthCheck]).

Definition mountEffect_resume (r : Chat.Result bool) (w : World)
    : World * list Effect :=
  match r with
  | Chat.Resolved data_required =>
      let w1 := {| st := setRequired data_required (st w);
                   storage := storage w; pending := pending w |} in
      let '(w2, eff) :=
        if negb data_required
        then ({| st := setAuthenticated true (st w1);
                 storage := storage w1; pending := pending w1 |}, [])
        else
          let stored := getStoredPassword w1 in
          if truthy stored then verifyPassword stored w1 else (w1, []) in
      ({| st := setChecking false (st w2); storage := storage w2;
          pending := pending w2 |}, eff)
  | Chat.Rejected =>
      ({| st := setChecking false (setAuthenticated true (st w));
          storage := storage w; pending := pending w |}, [])
  end.

Definition handleSubmit (w : World) : World * list Effect :=
  if truthy (trim (input (st w)))
  then verifyPassword (trim (input (st w))) w
  else (w, []).

Inductive View :=
| Loading
| Children
| Form (value : jsstring) (errorLine : option jsstring).

Definition render (s : State) : View :=
  if checking s then Loading
  else if negb (required s) || authenticated s then Children
  else Form (input s) (if truthy (error s) then Some (error s) else None).

Inductive Event :=
| AuthCheckSettles (r : Chat.Result bool)
| ChangeInput (v : jsstring)
| SubmitForm
| VerifySettles (n : nat) (o : Outcome).   (* the request at position [n] *)

Definition step (ev : Event) (w : World) : World * list Effect :=
  match ev with
  | AuthCheckSettles r =>
      match pending w with
      | AwaitAuthCheck :: rest =>
          mountEffect_resume r
            {| st := st w; storage := storage w; pending := rest |}
      | _ => (w, [])
      end
  | ChangeInput v =>
      ({| st := setInput v (st w); storage := storage w;
          pending := pending w |}, [])
  | SubmitForm => handleSubmit w
  | VerifySettles n o =>
      match takeNth n (pending w) with
      | Some (AwaitVerify pw, rest) =>
          (verifyPassword_resume pw o
             {| st := st w; storage := storage w; pending := rest |}, [])
      | _ => (w, [])
      end
  end.

Fixpoint run (evs : list Event) (w : World) : World * list Effect :=
  match evs with
  | [] => (w, [])
  | ev :: rest =>
      let '(w1, e1) := step ev w in
      let '(w2, e2) := run rest w1 in
      (w2, e1 ++ e2)
  end.

(** The gate after its first commit, with what the session storage
    holds. *)
Definition mounted (stored : option jsstring) : World :=
  fst (mountEffect {| st := initial; storage := stored; pending := [] |}).

(** The password the event [ev] reports as accepted by the server, if
    it settles a request of [verifyPassword] with an [ok] response. *)
Definition acceptedBy (ev : Event) (w : World) : list jsstring :=
  match ev with
  | VerifySettles n Ok =>
      match takeNth n (pending w) with
      | Some (AwaitVerify pw, _) => [pw]
      | _ => []
      end
  | _ => []
  end.

(** The passwords the server accepted in a run. *)
Fixpoint accepted (evs : list Event) (w : World) : list jsstring :=
  match evs with
  | [] => []
  | ev :: rest => acceptedBy ev w ++ accepted rest (fst (step ev w))
  end.

(** The check of the mount effect settles with the event [ev], and it
    either failed or says that no password is required. *)
Definition waivedBy (ev : Event) (w : World) : bool :=
  match ev, pending w with
  | AuthCheckSettles Chat.Rejected, AwaitAuthCheck :: _ => true
  | AuthCheckSettles (Chat.Resolved false), AwaitAuthCheck :: _ => true
  | _, _ => false
  end.

Fixpoint waived (evs : list Event) (w : World) : bool :=
  match evs with
  | [] => false
  | ev :: rest => waivedBy ev w || waived rest (fst (step ev w))
  end.

(** [authenticated] is set, and the form is skipped, for a reason
    ([b]: one was seen). *)
Definition justified (b : bool) (w : World) : Prop :=
  (authenticated (st w) = true -> b = true)
  /\ (checking (st w) = false -> required (st w) = true \/ b = true).

(** A wrong password is typed, then the right one. *)
Definition secondTry : list Event :=
  [ AuthCheckSettles (Chat.Resolved true);
    ChangeInput (of_string "guess"); SubmitForm; VerifySettles 0 NotOk;
    ChangeInput (of_string " s3cret "); SubmitForm; VerifySettles 0 Ok ].

End PasswordGate.

(* ===================================================================== *)
(** ** components/ResearchProgress.tsx *)
(* ===================================================================== *)

Module ResearchProgress.

Record Step := { label : string; agent : string }.

Definition STEPS : list Step :=
  [ {| label := "Searching for job description"; agent := "Research Agent" |};
    {| label := "Analyzing job requirements"; agent := "Research Agent" |};
    {| label := "Researching company information"; agent := "Research Agent" |};
    {| label := "Checking interview reviews"; agent := "Research Agent" |};
    {| label := "Analyzing competitive landscape"; agent := "Research Agent" |};
    {| label := "Generating interview plan"; agent := "Master Agent" |} ]%string.

(** The updater of the interval. *)
Definition tick (prev : nat) : nat :=
  if (prev <? List.length STEPS - 1)%nat then (prev + 1)%nat else prev.

(** The state after [n] ticks of the interval. *)
Definition currentStep (n : nat) : nat := Nat.iter n tick 0%nat.

Inductive Icon := CheckMark | Spinner | Dot.

Record Row := {
  icon : Icon;
  dark : bool;                    (* the label in the dark colour *)
  rowLabel : string;
  agentShown : option string
}.

Fixpoint rows (cur i : nat) (steps : list Step) : list Row :=
  match steps with
  | [] => []
  | step :: rest =>
      {| icon := if (i <? cur)%nat then CheckMark
                 else if (i =? cur)%nat then Spinner else Dot;
         dark := (i <=? cur)%nat;
         rowLabel := label step;
         agentShown := if (i =? cur)%nat then Some (agent step) else None |}
      :: rows cur (S i) rest
  end.

(** The step list of the JSX, [STEPS.map((step, i) => ...)]. *)
Definition render (cur : nat) : list Row := rows cur 0 STEPS.

Definition isSpinner (r : Row) : bool :=
  match icon r with Spinner => true | _ => false end.

End ResearchProgress.

Unset Implicit Arguments.

(* ===================================================================== *)
(** * Properties *)
(* ===================================================================== *)

Section TrimFacts.

Lemma trimStart_blank (s : jsstring) : blank s = true -> trimStart s = [].
Proof.
  induction s as [|c s IH]; simpl; [reflexivity|].
  intros H. apply andb_true_iff in H as [Hc Hs].
  rewrite Hc. exact (IH Hs).
Qed.

Lemma trimStart_nil_blank (s : jsstring) : trimStart s = [] -> blank s = true.
Proof.
  induction s as [|c s IH]; simpl; [reflexivity|].
  destruct (isWhiteSpace c) eqn:Hc; [intros H; simpl; auto | discriminate].
Qed.

(** What [trimStart] leaves starts with a character that is kept. *)
Lemma trimStart_head (s : jsstring) c t :
  trimStart s = c :: t -> isWhiteSpace c = false.
Proof.
  induction s as [|d s IH]; simpl; [discriminate|].
  destruct (isWhiteSpace d) eqn:Hd; [exact IH|].
  intros H. injection H as -> _. exact Hd.
Qed.

Lemma blank_rev (s : jsstring) : blank (rev s) = blank s.
Proof.
  unfold blank. induction s as [|c s IH]; simpl; [reflexivity|].
  rewrite forallb_app, IH. simpl. rewrite andb_true_r. apply andb_comm.
Qed.

Lemma trim_blank (s : jsstring) : blank s = true -> trim s = [].
Proof.
  intros H. unfold trim, trimEnd. rewrite (trimStart_blank s H). reflexivity.
Qed.

Lemma trim_nil_blank (s : jsstring) : trim s = [] -> blank s = true.
Proof.
  unfold trim, trimEnd. intros H.
  assert (Hr : trimStart (rev (trimStart s)) = []).
  { destruct (trimStart (rev (trimStart s))) as [|c l]; [reflexivity|].
    simpl in H. apply app_eq_nil in H as [_ H]. discriminate. }
  apply trimStart_nil_blank in Hr. rewrite blank_rev in Hr.
  destruct (trimStart s) as [|c t] eqn:Ht.
  - now apply trimStart_nil_blank.
  - apply trimStart_head in Ht. simpl in Hr. rewrite Ht in Hr. discriminate.
Qed.

(** The guard [!answerText.trim()] holds exactly for blank texts. *)
Lemma truthy_trim (s : jsstring) : truthy (trim s) = negb (blank s).
Proof.
  destruct (blank s) eqn:Hb.
  - rewrite (trim_blank s Hb). reflexivity.
  - destruct (trim s) eqn:Ht; [|reflexivity].
    apply trim_nil_blank in Ht. congruence.
Qed.

End TrimFacts.

(* ===================================================================== *)
(** ** The submission guard of [handleSubmitAnswer] *)
(* ===================================================================== *)

Module ChatFacts.

Import Chat Client.

(** The guard [if (!answerText.trim() || loading) return;]. *)
Lemma handleSubmitAnswer_guard p c now txt vm w :
  blank txt = true \/ c_loading c = true ->
  handleSubmitAnswer p c now txt vm w = (w, []).
Proof.
  intros H. unfold handleSubmitAnswer. rewrite truthy_trim.
  destruct H as [-> | ->]; simpl; [reflexivity|].
  now rewrite orb_true_r.
Qed.

(** Past the guard, the answer is posted as given. *)
Lemma handleSubmitAnswer_submits p c now txt vm w :
  blank txt = false -> c_loading c = false ->
  snd (handleSubmitAnswer p c now txt vm w)
  = [CallSubmitAnswer (sessionId p) {| answer := txt; voice_metrics := vm |}]
  /\ loading (st (fst (handleSubmitAnswer p c now txt vm w))) = true
  /\ pending (fst (handleSubmitAnswer p c now txt vm w))
     = pending w ++ [AwaitSubmitAnswer (AId now) c].
Proof.
  intros Hb Hl. unfold handleSubmitAnswer. rewrite truthy_trim, Hb, Hl.
  simpl. repeat split.
Qed.

(** The effects of [handleSubmitAnswer] are at most the one request. *)
Lemma handleSubmitAnswer_effects p c now txt vm w :
  snd (handleSubmitAnswer p c now txt vm w) = []
  \/ snd (handleSubmitAnswer p c now txt vm w)
     = [CallSubmitAnswer (sessionId p) {| answer := txt; voice_metrics := vm |}].
Proof.
  unfold handleSubmitAnswer.
  destruct (negb (truthy (trim txt)) || c_loading c); simpl; auto.
Qed.

(** *** The invariant of the running component *)

Lemma Inv_mounted p : Inv (mounted p).
Proof.
  unfold Inv, mounted. simpl. repeat split; auto.
Qed.

Lemma Inv_remount p c : Inv c -> Inv (remount p c).
Proof. intros H. exact H. Qed.

Lemma takePending_short want (l : list Pending) x rest :
  (List.length l <= 1)%nat -> takePending want l = Some (x, rest) ->
  l = [x] /\ rest = [].
Proof.
  destruct l as [|y [|z l]]; simpl; intros Hl H; try discriminate; try lia.
  destruct (want y); [|discriminate]. injection H as -> <-. auto.
Qed.

Lemma fetchNextQuestion_resume_loading now r s :
  loading (fst (fetchNextQuestion_resume now r s)) = false
  /\ hasFetchedFirst (fst (fetchNextQuestion_resume now r s)) = hasFetchedFirst s.
Proof.
  unfold fetchNextQuestion_resume.
  destruct r as [res|]; [|split; reflexivity].
  destruct (done res); [split; reflexivity|].
  destruct (question res) as [q|]; [|split; reflexivity].
  destruct (nq_persona res); [|split; reflexivity].
  destruct (truthy q); split; reflexivity.
Qed.

Lemma Inv_handleEvent p ev c :
  Inv c -> fresh ev c = true -> Inv (fst (handleEvent p ev c)).
Proof.
  intros (Hf & Hlen & Hload) Hfresh.
  destruct ev as [ | v | m | now | cl now e | r | now r | a ]; simpl.
  - (* MountEffect *)
    unfold mountEffect. rewrite Hf. simpl. repeat split; auto.
  - repeat split; auto.
  - repeat split; auto.
  - (* SubmitForm *)
    unfold handleTextSubmit, handleSubmitAnswer.
    destruct (negb (truthy (trim (inputText (st (chat c)))))
              || c_loading (closureOf (st (chat c)))) eqn:G; simpl.
    + repeat split; auto.
    + apply orb_false_iff in G as [_ G]. simpl in G.
      assert (Hp : pending (chat c) = []).
      { destruct (pending (chat c)); [reflexivity|].
        rewrite Hload in G; [discriminate | discriminate]. }
      rewrite Hp. simpl. repeat split; auto.
  - (* Socket *)
    destruct e as [ | msg | | m ]; simpl; try (repeat split; auto; fail).
    destruct msg as [t | t | t vm | t | ]; simpl; try (repeat split; auto; fail).
    (* the [done] message is the one that reaches [handleSubmitAnswer] *)
    simpl in Hfresh. apply Bool.eqb_prop in Hfresh.
    unfold handleVoiceDone, handleSubmitAnswer.
    destruct (negb (truthy (trim t)) || c_loading cl) eqn:G; simpl.
    + repeat split; auto.
    + apply orb_false_iff in G as [_ G]. rewrite Hfresh in G.
      assert (Hp : pending (chat c) = []).
      { destruct (pending (chat c)); [reflexivity|].
        rewrite Hload in G; [discriminate | discriminate]. }
      rewrite Hp. simpl. repeat split; auto.
  - (* SubmitAnswerSettles *)
    destruct (takePending isAwaitSubmit (pending (chat c)))
      as [[[u cl|] rest]|] eqn:T; simpl; try (repeat split; auto; fail).
    apply takePending_short in T as [_ ->]; [|exact Hlen].
    unfold handleSubmitAnswer_resume.
    destruct r as [res|]; simpl.
    + destruct (is_interview_over res); simpl; repeat split; auto;
        intros; congruence.
    + repeat split; auto; intros; congruence.
  - (* GetNextQuestionSettles *)
    destruct (takePending isAwaitNext (pending (chat c)))
      as [[x rest]|] eqn:T; simpl; try (repeat split; auto; fail).
    apply takePending_short in T as [_ ->]; [|exact Hlen].
    destruct (fetchNextQuestion_resume_loading now r (st (chat c))) as [_ H2].
    destruct (fetchNextQuestion_resume now r (st (chat c))) as [s eff].
    simpl in *. repeat split; auto; simpl; congruence.
  - (* PanelClick *)
    destruct (hintPanelProps p (st (chat c))); simpl; repeat split; auto.
Qed.

Lemma step_fst p ev c : fst (step p ev c) = remount p (fst (handleEvent p ev c)).
Proof. unfold step. destruct (handleEvent p ev c). reflexivity. Qed.

Lemma run_fst_cons p ev evs c :
  fst (run p (ev :: evs) c) = fst (run p evs (fst (step p ev c))).
Proof.
  simpl. destruct (step p ev c) as [c1 e1]. simpl.
  destruct (run p evs c1). reflexivity.
Qed.

Lemma Inv_run p evs : forall c,
  Inv c -> freshRun p evs c = true -> Inv (fst (run p evs c)).
Proof.
  induction evs as [|ev evs IH]; intros c HI HF; [exact HI|].
  simpl in HF. apply andb_true_iff in HF as [Hf Hr].
  rewrite run_fst_cons. apply IH; [|exact Hr].
  rewrite step_fst. apply Inv_remount. now apply Inv_handleEvent.
Qed.

Lemma inFlight_le_length w :
  (inFlightSubmits w <= List.length (pending w))%nat.
Proof. unfold inFlightSubmits. apply filter_length_le. Qed.

End ChatFacts.

Module SubmitFacts.

Import Chat Client ChatFacts.

(** Where a [submitAnswer] request of one event can come from: the form,
    with the text of the input box, or a [done] message of the voice
    socket, with its transcript and metrics; never with a blank answer
    and never from a handler whose closure has [loading] set. *)
Lemma handleEvent_submit p ev c sid d :
  In (CallSubmitAnswer sid d) (snd (handleEvent p ev c)) ->
  sid = sessionId p /\ blank (answer d) = false /\
  ( (exists now, ev = SubmitForm now
       /\ d = {| answer := inputText (st (chat c)); voice_metrics := None |}
       /\ loading (st (chat c)) = false)
    \/ (exists cl now t vm,
         ev = Socket cl now (VoiceRecorder.WsMessage (VoiceRecorder.MsgDone t vm))
         /\ d = {| answer := t; voice_metrics := Some vm |}
         /\ c_loading cl = false) ).
Proof.
  destruct ev as [ | v | m | now | cl now e | r | now r | a ]; simpl.
  - unfold mountEffect. destruct (hasFetchedFirst (st (chat c))); simpl;
      intros H; [contradiction | destruct H as [H|[]]; discriminate].
  - contradiction.
  - contradiction.
  - unfold handleTextSubmit, handleSubmitAnswer. rewrite truthy_trim.
    destruct (blank (inputText (st (chat c)))) eqn:Hb; simpl; [contradiction|].
    destruct (loading (st (chat c))) eqn:Hl; simpl; [contradiction|].
    intros [H|[]]. injection H as <- <-. repeat split; auto.
    left. exists now. auto.
  - destruct e as [ | msg | | m ]; simpl;
      try (intros H; repeat (destruct H as [H|H]; try discriminate);
           contradiction).
    destruct msg as [t | t | t vm | t | ]; simpl;
      try (intros H; repeat (destruct H as [H|H]; try discriminate);
           contradiction).
    unfold handleVoiceDone, handleSubmitAnswer. rewrite truthy_trim.
    destruct (blank t) eqn:Hb; simpl; [contradiction|].
    destruct (c_loading cl) eqn:Hl; simpl; [contradiction|].
    intros [H|[]]. injection H as <- <-. repeat split; auto.
    right. exists cl, now, t, vm. auto.
  - destruct (takePending isAwaitSubmit (pending (chat c)))
      as [[[u cl|] rest]|]; simpl; try contradiction.
    unfold handleSubmitAnswer_resume. destruct r as [res|]; simpl.
    + destruct (is_interview_over res); simpl; intros H;
        [contradiction | destruct H as [H|[]]; discriminate].
    + intros [H|[]]; discriminate.
  - destruct (takePending isAwaitNext (pending (chat c))) as [[x rest]|];
      simpl; try contradiction.
    unfold fetchNextQuestion_resume. destruct r as [res|]; simpl.
    + destruct (done res); simpl; [contradiction|].
      destruct (question res) as [q|]; simpl; [|contradiction].
      destruct (nq_persona res); simpl; [|contradiction].
      destruct (truthy q); simpl; contradiction.
    + intros [H|[]]; discriminate.
  - destruct (hintPanelProps p (st (chat c))); simpl; contradiction.
Qed.

Lemma step_snd p ev c : snd (step p ev c) = snd (handleEvent p ev c).
Proof. unfold step. destruct (handleEvent p ev c). reflexivity. Qed.

Lemma run_snd_cons p ev evs c :
  snd (run p (ev :: evs) c)
  = snd (step p ev c) ++ snd (run p evs (fst (step p ev c))).
Proof.
  simpl. destruct (step p ev c) as [c1 e1]. simpl.
  destruct (run p evs c1). reflexivity.
Qed.

(** Every effect of a run is the effect of one of its events. *)
Lemma run_effect_origin p evs : forall c e,
  In e (snd (run p evs c)) ->
  exists ev c', In ev evs /\ In e (snd (handleEvent p ev c')).
Proof.
  induction evs as [|ev evs IH]; intros c e H; [contradiction|].
  rewrite run_snd_cons in H. apply in_app_or in H as [H|H].
  - exists ev, c. rewrite step_snd in H. split; [left; reflexivity | exact H].
  - destruct (IH _ _ H) as (ev' & c' & Hin & He).
    exists ev', c'. split; [right; exact Hin | exact He].
Qed.

(** While a continuation is suspended, no event of the current render
    posts an answer. *)
Lemma busy_no_submit p ev c :
  Inv c -> fresh ev c = true -> pending (chat c) <> [] ->
  submits (snd (step p ev c)) = [].
Proof.
  intros (_ & _ & Hload) Hfresh Hp. specialize (Hload Hp).
  rewrite step_snd. unfold submits.
  destruct (filter isSubmit (snd (handleEvent p ev c))) as [|e l] eqn:F;
    [reflexivity|].
  assert (Hin : In e (filter isSubmit (snd (handleEvent p ev c))))
    by (rewrite F; left; reflexivity).
  apply filter_In in Hin as [Hin He]. destruct e as [|sid d|]; try discriminate.
  apply handleEvent_submit in Hin as (_ & _ & [H|H]).
  - destruct H as (now & _ & _ & Hl). congruence.
  - destruct H as (cl & now & t & vm & -> & _ & Hl).
    simpl in Hfresh. apply Bool.eqb_prop in Hfresh. congruence.
Qed.

End SubmitFacts.

(* ===================================================================== *)
(** ** The interview screen *)
(* ===================================================================== *)

Module InterviewChatSpec.

Import Chat Client ChatFacts SubmitFacts.

(** What the guard of [handleSubmitAnswer] achieves.  The handler
    returns without submitting whenever the [loading] it reads is true.
    In every run of the mounted component in which a [done] message of
    the voice socket is handled by the render on screen: at most one
    [submitAnswer] request awaits its response; [loading] is true as
    long as a request of the turn (the answer, then the next question)
    is outstanding; and while that is so, no event posts a second
    answer. *)
Lemma fresh_run_one_answer_in_flight (p : Props) (evs : list Event) :
  freshRun p evs (mounted p) = true ->
  (forall cl now txt vm w,
      c_loading cl = true -> handleSubmitAnswer p cl now txt vm w = (w, []))
  /\ (inFlightSubmits (chat (fst (run p evs (mounted p)))) <= 1)%nat
  /\ (pending (chat (fst (run p evs (mounted p)))) <> [] ->
      loading (st (chat (fst (run p evs (mounted p))))) = true)
  /\ (forall ev,
        fresh ev (fst (run p evs (mounted p))) = true ->
        pending (chat (fst (run p evs (mounted p)))) <> [] ->
        submits (snd (step p ev (fst (run p evs (mounted p))))) = []).
Proof.
  intros HF.
  pose proof (Inv_run p evs (mounted p) (Inv_mounted p) HF) as HI.
  split; [|split; [|split]].
  - intros cl now txt vm w Hl. apply handleSubmitAnswer_guard. now right.
  - destruct HI as (_ & Hlen & _).
    eapply Nat.le_trans; [apply inFlight_le_length | exact Hlen].
  - destruct HI as (_ & _ & Hl). exact Hl.
  - intros ev Hfr Hp. now apply busy_no_submit.
Qed.

(** C1.  Two answers in flight.  The socket handlers of the voice
    recorder are installed when the recording starts and keep calling
    the [onDone] of that render, in which [loading] is false.  When a
    second [done] message arrives on the socket while the answer of
    the first is still awaiting its response, the guard of
    [handleSubmitAnswer] reads that stale [loading] and lets it pass:
    the answer is posted a second time although [loading] is true on
    screen, and two [submitAnswer] requests are in flight at once. *)
Theorem C1_second_done_is_posted_while_loading :
  loading (st (chat (fst (run (Sample.props practice)
                            (removelast Sample.twoDones)
                            (mounted (Sample.props practice)))))) = true
  /\ inFlightSubmits
       (chat (fst (run (Sample.props practice) (removelast Sample.twoDones)
                     (mounted (Sample.props practice))))) = 1%nat
  /\ submits (snd (run (Sample.props practice) Sample.twoDones
                     (mounted (Sample.props practice))))
     = [CallSubmitAnswer (of_string "s-1")
          {| answer := of_string "I led the migration.";
             voice_metrics := Some Sample.someMetrics |};
        CallSubmitAnswer (of_string "s-1")
          {| answer := of_string "I led the migration.";
             voice_metrics := Some Sample.someMetrics |}]
  /\ inFlightSubmits
       (chat (fst (run (Sample.props practice) Sample.twoDones
                     (mounted (Sample.props practice))))) = 2%nat
  /\ freshRun (Sample.props practice) Sample.twoDones
       (mounted (Sample.props practice)) = false.
Proof.
  split; [vm_compute; reflexivity|].
  split; [vm_compute; reflexivity|].
  split; [vm_compute; reflexivity|].
  split; vm_compute; reflexivity.
Qed.

(** In the sample run the spoken answer and the first press of Send are
    posted, the second press is not; the typed answer is still in flight
    at the end. *)
Example spokenThenTyped_submits :
  submits (snd (run (Sample.props practice) Sample.spokenThenTyped
                  (mounted (Sample.props practice))))
  = [CallSubmitAnswer (of_string "s-1")
       {| answer := of_string "I led the migration.";
          voice_metrics := Some Sample.someMetrics |};
     CallSubmitAnswer (of_string "s-1")
       {| answer := of_string "I led the migration."; voice_metrics := None |}]
  /\ inFlightSubmits
       (chat (fst (run (Sample.props practice) Sample.spokenThenTyped
                     (mounted (Sample.props practice))))) = 1%nat.
Proof. split; reflexivity. Qed.

(** C8.  A blank answer (empty, or whitespace only) is not submitted:
    [handleSubmitAnswer] returns at its guard, whatever the render it
    belongs to, leaving the state as it is (no user message appended,
    nothing pending) and calling nothing; so do the form and a [done]
    message of the voice socket; and no [submitAnswer] request of any
    run carries such an answer. *)
Theorem C8_blank_answer_is_not_submitted (p : Props) (txt : jsstring) :
  blank txt = true ->
  (forall cl now vm w, handleSubmitAnswer p cl now txt vm w = (w, []))
  /\ (forall c now,
        inputText (st (chat c)) = txt ->
        chat (fst (step p (SubmitForm now) c)) = chat c
        /\ snd (step p (SubmitForm now) c) = [])
  /\ (forall c cl now vm,
        chat (fst (step p (Socket cl now (VoiceRecorder.WsMessage
                                           (VoiceRecorder.MsgDone txt vm))) c))
        = chat c
        /\ snd (step p (Socket cl now (VoiceRecorder.WsMessage
                                         (VoiceRecorder.MsgDone txt vm))) c) = [])
  /\ (forall evs c sid d,
        In (CallSubmitAnswer sid d) (snd (run p evs c)) -> answer d <> txt).
Proof.
  intros Hb.
  assert (G : forall cl now vm w, handleSubmitAnswer p cl now txt vm w = (w, []))
    by (intros; apply handleSubmitAnswer_guard; now left).
  split; [exact G|]. split; [|split].
  - intros c now Ht. unfold step. simpl. unfold handleTextSubmit.
    rewrite Ht, G. simpl. auto.
  - intros c cl now vm. unfold step. simpl. unfold handleVoiceDone.
    rewrite G. simpl. auto.
  - intros evs c sid d Hin Heq.
    apply run_effect_origin in Hin as (ev & c' & _ & Hin).
    apply handleEvent_submit in Hin as (_ & Hnb & _).
    rewrite Heq in Hnb. congruence.
Qed.

Lemma C8_blank_answer_is_not_submitted_witness :
  blank (of_string "   ") = true
  /\ handleSubmitAnswer (Sample.props practice) Sample.idle 7
       (of_string "   ") None (chat (mounted (Sample.props practice)))
     = (chat (mounted (Sample.props practice)), []).
Proof.
  split; [reflexivity|].
  exact (proj1 (C8_blank_answer_is_not_submitted (Sample.props practice)
                  (of_string "   ") eq_refl)
           Sample.idle 7 None (chat (mounted (Sample.props practice)))).
Defined.

(** C5.  A voice failure is reported and by itself submits nothing.
    An event by which the voice pipeline fails (a typed [error]
    message, a socket error, a rejected microphone request) makes the
    recorder call [onError] with the message, which the screen writes
    to the console; it changes nothing of the chat state and posts
    nothing.  A [done] message posts at most the one request made of
    its transcript and its [voice_metrics]; no other socket event posts
    anything.  Hence in every run, every request that carries voice
    metrics stems from a [done] message of that run and carries exactly
    its transcript and metrics.  (Nothing is said of a [done] message
    that arrives after a failure.) *)
Theorem C5_voice_submits_only_on_done (p : Props) :
  (forall cl now e c,
      match e with
      | VoiceRecorder.WsMessage (VoiceRecorder.MsgDone t vm) =>
          snd (step p (Socket cl now e) c) = []
          \/ snd (step p (Socket cl now e) c)
             = [CallSubmitAnswer (sessionId p)
                  {| answer := t; voice_metrics := Some vm |}]
      | _ =>
          submits (snd (step p (Socket cl now e) c)) = []
          /\ pending (chat (fst (step p (Socket cl now e) c))) = pending (chat c)
          /\ messages (st (chat (fst (step p (Socket cl now e) c))))
             = messages (st (chat c))
      end)
  /\ (forall cl now e c m,
        VoiceRecorder.failureMessage e = Some m ->
        snd (VoiceRecorder.handle e (recorder c)) = [VoiceRecorder.OnError m]
        /\ snd (step p (Socket cl now e) c) = [ConsoleError (VoiceError m)]
        /\ chat (fst (step p (Socket cl now e) c)) = chat c)
  /\ (forall evs c sid d vm,
        In (CallSubmitAnswer sid d) (snd (run p evs c)) ->
        voice_metrics d = Some vm ->
        exists cl now,
          In (Socket cl now (VoiceRecorder.WsMessage
                               (VoiceRecorder.MsgDone (answer d) vm))) evs).
Proof.
  split; [|split].
  - intros cl now e c. rewrite !step_snd, !step_fst.
    destruct e as [ | msg | | m ]; simpl; auto.
    destruct msg as [t | t | t vm | t | ]; simpl; auto.
    unfold handleVoiceDone.
    destruct (handleSubmitAnswer_effects p cl now t (Some vm) (chat c)) as [H|H];
      destruct (handleSubmitAnswer p cl now t (Some vm) (chat c)) as [w eff];
      simpl in *; subst eff; auto.
  - intros cl now e c m Hm. rewrite step_snd, step_fst.
    destruct e as [ | msg | | [m'|] ]; simpl in *; try discriminate;
      [destruct msg; try discriminate| | |];
      injection Hm as <-; simpl; destruct c as [[s pd] r pn]; auto.
  - intros evs c sid d vm Hin Hvm.
    apply run_effect_origin in Hin as (ev & c' & Hev & Hin).
    apply handleEvent_submit in Hin as (_ & _ & [H|H]).
    + destruct H as (now & _ & -> & _). discriminate.
    + destruct H as (cl & now & t & vm' & -> & -> & _).
      simpl in Hvm. injection Hvm as ->. exists cl, now. exact Hev.
Qed.

Lemma C5_voice_submits_only_on_done_witness :
  VoiceRecorder.failureMessage
    (VoiceRecorder.WsMessage (VoiceRecorder.MsgError (of_string "transcribe failed")))
  = Some (of_string "transcribe failed")
  /\ snd (step (Sample.props practice)
            (Socket Sample.idle 4
               (VoiceRecorder.WsMessage
                  (VoiceRecorder.MsgError (of_string "transcribe failed"))))
            (fst (run (Sample.props practice) Sample.recordingStarted
                    (mounted (Sample.props practice)))))
     = [ConsoleError (VoiceError (of_string "transcribe failed"))].
Proof.
  split; [reflexivity|].
  exact (proj1 (proj2 (proj1 (proj2 (C5_voice_submits_only_on_done
                                       (Sample.props practice)))
                         Sample.idle 4
                         (VoiceRecorder.WsMessage
                            (VoiceRecorder.MsgError (of_string "transcribe failed")))
                         (fst (run (Sample.props practice) Sample.recordingStarted
                                 (mounted (Sample.props practice))))
                         (of_string "transcribe failed") eq_refl))).
Defined.

(** C5, counterexample.  The failure handlers release the audio but
    neither close the socket nor detach its handlers, so that a [done]
    message arriving after an [error] message on the same socket is
    handled like any other: the recording has failed, the error is on
    the console, and an answer of that recording is posted all the
    same, by a handler that is even the one of the render on screen. *)
Lemma C5_done_after_error_is_submitted :
  In (Socket Sample.idle 4
        (VoiceRecorder.WsMessage
           (VoiceRecorder.MsgError (of_string "transcribe failed"))))
     Sample.errorThenDone
  /\ snd (run (Sample.props practice) Sample.errorThenDone
            (mounted (Sample.props practice)))
     = [ConsoleError (VoiceError (of_string "transcribe failed"));
        CallSubmitAnswer (of_string "s-1")
          {| answer := of_string "I led";
             voice_metrics := Some Sample.someMetrics |}]
  /\ freshRun (Sample.props practice) Sample.errorThenDone
       (mounted (Sample.props practice)) = true.
Proof.
  split; [|split; vm_compute; reflexivity].
  unfold Sample.errorThenDone, Sample.failedRecording.
  apply in_or_app. left. apply in_or_app. right. left. reflexivity.
Qed.

(** A recording that ends in an error posts no answer and leaves one
    console line. *)
Example failedRecording_effects :
  snd (run (Sample.props practice) Sample.failedRecording
         (mounted (Sample.props practice)))
  = [ConsoleError (VoiceError (of_string "transcribe failed"))].
Proof. reflexivity. Qed.

End InterviewChatSpec.

(* ===================================================================== *)
(** ** The hint panel *)
(* ===================================================================== *)

Module HintFacts.

Import HintPanel.

(** A panel without bullets and personal hooks is [null] in every state. *)
Lemma render_bare p s :
  hasLength (bullets (hints p)) = false ->
  hasLength (personal_hooks (hints p)) = false ->
  render p s = None.
Proof. intros Hb Hh. unfold render. rewrite Hb, Hh. reflexivity. Qed.

Lemma click_bare p a s :
  render p s = None -> click p a s = (s, []).
Proof. intros H. unfold click. rewrite H. reflexivity. Qed.

Lemma clicks_cons p a acts s :
  clicks p (a :: acts) s
  = (fst (clicks p acts (fst (click p a s))),
     snd (click p a s) ++ snd (clicks p acts (fst (click p a s)))).
Proof.
  simpl. destruct (click p a s) as [s1 cb1]. simpl.
  destruct (clicks p acts s1). reflexivity.
Qed.

Lemma clicks_bare p acts : forall s,
  (forall s', render p s' = None) -> clicks p acts s = (s, []).
Proof.
  induction acts as [|a acts IH]; intros s H; [reflexivity|].
  rewrite clicks_cons, (click_bare p a s (H s)). simpl.
  rewrite (IH s H). reflexivity.
Qed.

(** [showExample] is set by a click on the example button only, [open]
    by a click on the toggle only. *)
Lemma click_showExample p a s :
  showExample (fst (click p a s)) = true ->
  showExample s = true \/ a = ClickShowExample.
Proof.
  unfold click. destruct (render p s) as [v|]; simpl; auto.
  destruct a; auto.
  destruct (toggleDisabled v); simpl; auto.
Qed.

Lemma click_open p a s :
  open (fst (click p a s)) = true -> open s = true \/ a = ClickToggle.
Proof.
  unfold click. destruct (render p s) as [v|]; simpl; auto.
  destruct a; auto.
  destruct (exampleSection v) as [[|]|]; simpl; auto.
Qed.

Lemma clicks_showExample p acts : forall s,
  showExample (fst (clicks p acts s)) = true ->
  showExample s = true \/ In ClickShowExample acts.
Proof.
  induction acts as [|a acts IH]; intros s H; [left; exact H|].
  rewrite clicks_cons in H. simpl in H.
  destruct (IH _ H) as [H1|H1]; [|right; right; exact H1].
  destruct (click_showExample p a s H1) as [H2| ->]; [left; exact H2|].
  right; left; reflexivity.
Qed.

Lemma clicks_open p acts : forall s,
  open (fst (clicks p acts s)) = true ->
  open s = true \/ In ClickToggle acts.
Proof.
  induction acts as [|a acts IH]; intros s H; [left; exact H|].
  rewrite clicks_cons in H. simpl in H.
  destruct (IH _ H) as [H1|H1]; [|right; right; exact H1].
  destruct (click_open p a s H1) as [H2| ->]; [left; exact H2|].
  right; left; reflexivity.
Qed.

(** The example answer is readable only in an open panel whose
    [showExample] is set. *)
Lemma shownExample_inv p s ex :
  shownExample (render p s) = Some ex ->
  open s = true /\ showExample s = true /\ example_answer (hints p) = Some ex.
Proof.
  unfold shownExample, render.
  destruct (negb (hasLength (bullets (hints p)))
            && negb (hasLength (personal_hooks (hints p)))); [discriminate|].
  simpl. destruct (open s); [|discriminate].
  destruct (example_answer (hints p)) as [e|]; [|discriminate].
  destruct (truthy e); [|discriminate].
  destruct (showExample s); simpl; [|discriminate].
  intros H. injection H as ->. auto.
Qed.

(** Without an [onReveal] prop the panel calls nothing. *)
Lemma click_silent p a s : onReveal p = false -> snd (click p a s) = [].
Proof.
  intros H. unfold click. destruct (render p s) as [v|]; [|reflexivity].
  destruct a.
  - destruct (toggleDisabled v); [reflexivity|]. simpl.
    rewrite H, andb_false_r. reflexivity.
  - destruct (exampleSection v) as [[|]|]; reflexivity.
Qed.

End HintFacts.

Module HintPanelSpec.

Import HintPanel HintFacts.

(** C9.  When [bullets] and [personal_hooks] are both empty or absent the
    panel returns [null], in every state and whatever [avoid] and
    [example_answer] hold: no click reaches a handler, the state stays
    as it was, and neither the avoid list nor the example answer is ever
    shown; the interview screen then shows no panel for these hints. *)
Theorem C9_bare_hints_render_nothing
    (h : HintData) (dis rev : bool) (acts : list Action) (s : State) :
  bullets h = None \/ bullets h = Some [] ->
  personal_hooks h = None \/ personal_hooks h = Some [] ->
  render {| hints := h; disabled := dis; onReveal := rev |} s = None
  /\ clicks {| hints := h; disabled := dis; onReveal := rev |} acts s = (s, [])
  /\ shownAvoid
       (render {| hints := h; disabled := dis; onReveal := rev |}
          (fst (clicks {| hints := h; disabled := dis; onReveal := rev |} acts s)))
     = None
  /\ shownExample
       (render {| hints := h; disabled := dis; onReveal := rev |}
          (fst (clicks {| hints := h; disabled := dis; onReveal := rev |} acts s)))
     = None
  /\ (forall p cs pn,
        Chat.currentHints cs = Some h ->
        Client.shownPanel (Client.render p cs pn) = None).
Proof.
  intros Hb Hh.
  assert (Hb' : hasLength (bullets h) = false) by (destruct Hb as [-> | ->]; reflexivity).
  assert (Hh' : hasLength (personal_hooks h) = false) by (destruct Hh as [-> | ->]; reflexivity).
  assert (R : forall d r s', render {| hints := h; disabled := d; onReveal := r |} s' = None)
    by (intros; apply render_bare; assumption).
  rewrite (clicks_bare _ acts s (R dis rev)). simpl. rewrite (R dis rev).
  repeat split; try reflexivity.
  intros p cs pn Hc. unfold Client.render, Client.shownPanel.
  destruct (Chat.isDone cs) eqn:Hd; [reflexivity|]. simpl.
  unfold Client.hintPanelProps. rewrite Hd, Hc.
  destruct (Chat.mode p); [apply R | reflexivity].
Qed.

Lemma C9_bare_hints_render_nothing_witness :
  (bullets Sample.bareHints = None \/ bullets Sample.bareHints = Some [])
  /\ (personal_hooks Sample.bareHints = None
      \/ personal_hooks Sample.bareHints = Some [])
  /\ shownExample
       (render {| hints := Sample.bareHints; disabled := false; onReveal := false |}
          (fst (clicks {| hints := Sample.bareHints; disabled := false;
                          onReveal := false |}
                  [ClickToggle; ClickShowExample] initial)))
     = None.
Proof.
  split; [right; reflexivity|]. split; [left; reflexivity|].
  exact (proj1 (proj2 (proj2 (proj2
    (C9_bare_hints_render_nothing Sample.bareHints false false
       [ClickToggle; ClickShowExample] initial
       (or_intror eq_refl) (or_introl eq_refl)))))).
Defined.

(** *** The panel inside the interview screen *)

Section PanelIsLocal.

Import Chat Client ChatFacts SubmitFacts.

(** A click on the panel stays inside the panel. *)
Lemma panelClick_local p a c :
  snd (step p (PanelClick a) c) = []
  /\ chat (fst (step p (PanelClick a) c)) = chat c.
Proof.
  rewrite step_snd, step_fst. simpl.
  destruct (hintPanelProps p (st (chat c))); simpl; auto.
Qed.

(** The callbacks of the recorder depend on the socket event only. *)
Lemma recorder_callbacks e r1 r2 :
  snd (VoiceRecorder.handle e r1) = snd (VoiceRecorder.handle e r2).
Proof. destruct e as [ | [ | | | | ] | | ]; reflexivity. Qed.

(** What an event other than a panel click does to the chat state, and
    what it emits, depends on the chat state only. *)
Lemma step_chat_only p ev c1 c2 :
  isPanelClick ev = false -> chat c1 = chat c2 ->
  chat (fst (step p ev c1)) = chat (fst (step p ev c2))
  /\ snd (step p ev c1) = snd (step p ev c2).
Proof.
  intros Hev Hc. rewrite !step_snd, !step_fst.
  destruct c1 as [w1 r1 p1], c2 as [w2 r2 p2]. simpl in Hc. subst w2.
  destruct ev as [ | v | m | now | cl now e | r | now r | a ]; simpl;
    try discriminate; auto.
  - destruct (mountEffect p w1); auto.
  - destruct (handleTextSubmit p now w1); auto.
  - pose proof (recorder_callbacks e r1 r2) as Hcb.
    destruct (VoiceRecorder.handle e r1) as [r1' cb1].
    destruct (VoiceRecorder.handle e r2) as [r2' cb2].
    simpl in Hcb. subst cb2.
    destruct (dispatchAll p cl now cb1 w1); auto.
  - destruct (takePending isAwaitSubmit (pending w1)) as [[[u cl|] rest]|];
      simpl; auto.
    destruct (handleSubmitAnswer_resume p u cl r {| st := st w1; pending := rest |});
      auto.
  - destruct (takePending isAwaitNext (pending w1)) as [[x rest]|]; simpl; auto.
    destruct (fetchNextQuestion_resume now r (st w1)); auto.
Qed.

(** Leaving the clicks on the hint panel out of a run changes neither
    what the client emits nor its chat state. *)
Lemma panel_noninterference p evs : forall c1 c2,
  chat c1 = chat c2 ->
  snd (run p evs c1) = snd (run p (withoutPanelClicks evs) c2)
  /\ chat (fst (run p evs c1)) = chat (fst (run p (withoutPanelClicks evs) c2)).
Proof.
  induction evs as [|ev evs IH]; intros c1 c2 Hc; [simpl; auto|].
  rewrite run_snd_cons, run_fst_cons. unfold withoutPanelClicks. simpl.
  destruct (isPanelClick ev) eqn:Hev; simpl.
  - destruct ev; try discriminate.
    destruct (panelClick_local p a c1) as [-> Hch]. simpl.
    apply IH. congruence.
  - destruct (step_chat_only p ev c1 c2 Hev Hc) as [Hch Heff].
    fold (withoutPanelClicks evs).
    destruct (IH _ _ Hch) as [H1 H2].
    change (match step p ev c2 with (c3, e1) =>
              let '(c4, e2) := run p (withoutPanelClicks evs) c3 in (c4, e1 ++ e2)
            end) with (run p (ev :: withoutPanelClicks evs) c2).
    rewrite run_snd_cons, run_fst_cons. rewrite Heff, H1. auto.
Qed.

End PanelIsLocal.

(** C4, as the sources have it.  Showing the example answer (tier 3)
    takes an explicit additional action: from a freshly mounted panel
    the example is readable only after a click on the toggle (which
    shows tiers 1 and 2) and a click on the example button.  The reveal
    stays inside the panel: a click on the panel emits nothing and
    leaves the chat state as it is, and a run of the client emits the
    same requests, in particular the same [submitAnswer] requests (an
    answer and its voice metrics), with and without its clicks on the
    hint panel. *)
Theorem C4_example_needs_its_own_click_and_stays_local
    (hp : Props) (acts : list Action) (ex : jsstring) :
  shownExample (render hp (fst (clicks hp acts initial))) = Some ex ->
  (In ClickToggle acts /\ In ClickShowExample acts)
  /\ (forall p a c,
        snd (Client.step p (Client.PanelClick a) c) = []
        /\ Client.chat (fst (Client.step p (Client.PanelClick a) c))
           = Client.chat c)
  /\ (forall p evs c,
        snd (Client.run p evs c)
        = snd (Client.run p (Client.withoutPanelClicks evs) c)
        /\ Client.chat (fst (Client.run p evs c))
           = Client.chat (fst (Client.run p (Client.withoutPanelClicks evs) c))).
Proof.
  intros H. apply shownExample_inv in H as (Ho & Hs & _).
  split; [split|split].
  - destruct (clicks_open hp acts initial Ho) as [H|H]; [discriminate | exact H].
  - destruct (clicks_showExample hp acts initial Hs) as [H|H];
      [discriminate | exact H].
  - intros p a c. apply panelClick_local.
  - intros p evs c. now apply panel_noninterference.
Qed.

Lemma C4_example_needs_its_own_click_and_stays_local_witness :
  shownExample
    (render {| hints := Sample.someHints; disabled := false; onReveal := false |}
       (fst (clicks {| hints := Sample.someHints; disabled := false;
                       onReveal := false |}
               [ClickToggle; ClickShowExample] initial)))
  = Some (of_string "In my last role I led ...")
  /\ In ClickShowExample [ClickToggle; ClickShowExample].
Proof.
  split; [reflexivity|].
  exact (proj2 (proj1
    (C4_example_needs_its_own_click_and_stays_local
       {| hints := Sample.someHints; disabled := false; onReveal := false |}
       [ClickToggle; ClickShowExample]
       (of_string "In my last role I led ...") eq_refl))).
Defined.

(** C4, counterexample.  In practice mode, with the first question and
    its hints on screen, the user opens the hints and reveals the
    example answer.  The example is then on screen, but the
    two clicks have called nothing and have left the chat state as it
    was, and the answer given next is posted as the very request that
    is posted when no hint was opened: nothing tells the back end that
    the example was revealed. *)
Lemma C4_reveal_is_not_recorded :
  Client.shownPanel
    (Client.render (Sample.props practice)
       (Chat.st (Client.chat (fst (Client.run (Sample.props practice)
                                     Sample.revealExample
                                     (Client.mounted (Sample.props practice))))))
       (Client.panel (fst (Client.run (Sample.props practice)
                              Sample.revealExample
                              (Client.mounted (Sample.props practice))))))
  = render {| hints := Sample.someHints; disabled := false; onReveal := false |}
      {| open := true; showExample := true |}
  /\ shownExample
       (render {| hints := Sample.someHints; disabled := false; onReveal := false |}
          {| open := true; showExample := true |})
     = Some (of_string "In my last role I led ...")
  /\ snd (Client.run (Sample.props practice) Sample.revealExample
            (Client.mounted (Sample.props practice))) = []
  /\ Client.chat (fst (Client.run (Sample.props practice) Sample.revealExample
                         (Client.mounted (Sample.props practice))))
     = Client.chat (fst (Client.run (Sample.props practice)
                           (Client.withoutPanelClicks Sample.revealExample)
                           (Client.mounted (Sample.props practice))))
  /\ snd (Client.run (Sample.props practice)
            (Sample.revealExample ++ Sample.typedTwice)
            (Client.mounted (Sample.props practice)))
     = snd (Client.run (Sample.props practice)
              (Client.withoutPanelClicks Sample.revealExample ++ Sample.typedTwice)
              (Client.mounted (Sample.props practice)))
  /\ Client.submits
       (snd (Client.run (Sample.props practice)
               (Sample.revealExample ++ Sample.typedTwice)
               (Client.mounted (Sample.props practice))))
     = [Chat.CallSubmitAnswer (of_string "s-1")
          {| answer := of_string "I led the migration."; voice_metrics := None |}].
Proof. repeat (split; [vm_compute; reflexivity|]). vm_compute. reflexivity. Qed.

End HintPanelSpec.

(* ===================================================================== *)
(** ** Hints and the interview mode *)
(* ===================================================================== *)

Module ModeSpec.

Import Chat Client.

(** A chat bubble shows nothing of the hints stored with its message. *)
Lemma ChatMessage_ignores_hints (m : ChatMessage) :
  ChatMessageView.render (withoutHints m) = ChatMessageView.render m.
Proof. reflexivity. Qed.

Lemma hintPanelProps_practice p cs hp :
  hintPanelProps p cs = Some hp -> mode p = practice.
Proof.
  unfold hintPanelProps. destruct (isDone cs); [discriminate|].
  destruct (currentHints cs); [|discriminate].
  destruct (mode p); [reflexivity | discriminate].
Qed.

Lemma shownPanel_practice p cs pn v :
  shownPanel (render p cs pn) = Some v -> mode p = practice.
Proof.
  unfold render. destruct (isDone cs); [discriminate|]. simpl.
  destruct (hintPanelProps p cs) as [hp|] eqn:H; [|discriminate].
  intros _. exact (hintPanelProps_practice p cs hp H).
Qed.

(** C3.  In real mode no hints reach the user.  The result of
    get-next-question carries no hints when the session's mode is real,
    and carries hints only when it is practice (back end, modelled from
    the specification).  On the client, whatever the response held, the
    interview screen of a real-mode session mounts no hint panel, and
    what it shows does not depend on any hint data: it is the screen of
    the same state with all hints erased.  A hint panel is on screen
    only in practice mode. *)
Theorem C3_real_mode_has_no_hints
    (Report : Type) (hintsFor : Orchestrator.PlanItem -> HintData)
    (s : Orchestrator.Session Report)
    (p : Props) (cs : State) (pn : HintPanel.State) :
  Orchestrator.s_mode s = real -> mode p = real ->
  nq_hints (Orchestrator.get_next hintsFor s) = None
  /\ (forall s' h,
        nq_hints (Orchestrator.get_next hintsFor s') = Some h ->
        Orchestrator.s_mode (Report := Report) s' = practice)
  /\ hintPanelProps p cs = None
  /\ shownPanel (render p cs pn) = None
  /\ render p cs pn = render p (eraseHints cs) HintPanel.initial
  /\ (forall p' cs' pn' v,
        shownPanel (render p' cs' pn') = Some v -> mode p' = practice).
Proof.
  intros Hs Hp.
  assert (HP : forall cs', hintPanelProps p cs' = None).
  { intros cs'. unfold hintPanelProps. rewrite Hp.
    destruct (isDone cs'); [reflexivity|]. destruct (currentHints cs'); reflexivity. }
  repeat split.
  - unfold Orchestrator.get_next.
    destruct (nth_error (Orchestrator.plan s) (Orchestrator.index s)); [|reflexivity].
    destruct (Orchestrator.isInterviewing (Orchestrator.phase s)); [|reflexivity].
    simpl. rewrite Hs. reflexivity.
  - intros s' h. unfold Orchestrator.get_next.
    destruct (nth_error (Orchestrator.plan s') (Orchestrator.index s'));
      [|discriminate].
    destruct (Orchestrator.isInterviewing (Orchestrator.phase s')); [|discriminate].
    simpl. destruct (Orchestrator.s_mode s'); [reflexivity | discriminate].
  - apply HP.
  - unfold render. destruct (isDone cs); [reflexivity|]. simpl. now rewrite HP.
  - unfold render. simpl. destruct (isDone cs); [reflexivity|].
    rewrite !HP. simpl. rewrite map_map.
    (* each bubble of the erased state is the bubble of the original *)
    reflexivity.
  - intros p' cs' pn' v. apply shownPanel_practice.
Qed.

Lemma C3_real_mode_has_no_hints_witness :
  Orchestrator.s_mode
    (Orchestrator.planned unit real Sample.plan) = real
  /\ mode (Sample.props real) = real
  /\ nq_hints (Orchestrator.get_next (fun _ => Sample.someHints)
                 (Orchestrator.planned unit real Sample.plan)) = None
  /\ shownPanel
       (render (Sample.props real)
          (st (chat (fst (run (Sample.props real) Sample.revealExample
                            (mounted (Sample.props real))))))
          HintPanel.initial) = None.
Proof.
  split; [reflexivity|]. split; [reflexivity|].
  pose proof (C3_real_mode_has_no_hints unit (fun _ => Sample.someHints)
                (Orchestrator.planned unit real Sample.plan)
                (Sample.props real)
                (st (chat (fst (run (Sample.props real) Sample.revealExample
                                  (mounted (Sample.props real))))))
                HintPanel.initial eq_refl eq_refl) as H.
  split; [exact (proj1 H) | exact (proj1 (proj2 (proj2 (proj2 H))))].
Defined.

(** The same response, with hints, shows a panel in practice mode and
    none in real mode. *)
Example hints_shown_in_practice_only :
  shownPanel
    (render (Sample.props practice)
       (st (chat (fst (run (Sample.props practice)
                         [GetNextQuestionSettles 1 (Resolved Sample.firstQuestion)]
                         (mounted (Sample.props practice))))))
       HintPanel.initial)
  = HintPanel.render
      {| HintPanel.hints := Sample.someHints; HintPanel.disabled := false;
         HintPanel.onReveal := false |} HintPanel.initial
  /\ shownPanel
       (render (Sample.props real)
          (st (chat (fst (run (Sample.props real)
                            [GetNextQuestionSettles 1 (Resolved Sample.firstQuestion)]
                            (mounted (Sample.props real))))))
          HintPanel.initial)
     = None.
Proof. split; vm_compute; reflexivity. Qed.

End ModeSpec.

(* ===================================================================== *)
(** ** The back end as specified *)
(* ===================================================================== *)

Module AnalysisSpec.

Import Analysis.










End AnalysisSpec.

Module OrchestratorSpec.

Import Orchestrator.

Section Evaluate.

Variable Report : Type.

(** A successful [evaluate] leaves a [DONE] session holding the report. *)
Lemma evaluate_stores (agent : list Turn -> Report) (s s' : Session Report) r :
  evaluate agent s = (inl r, s') ->
  phase s' = DONE /\ report s' = Some r.
Proof.
  unfold evaluate.
  destruct (isDonePhase (phase s)) eqn:Hd; destruct (report s) as [r0|] eqn:Hr;
    try (destruct (turns s); intros H; inversion H; subst; simpl; auto; fail).
  intros H. inversion H; subst. split; [|assumption].
  destruct (phase s'); try discriminate; reflexivity.
Qed.

(** On a [DONE] session holding a report, [evaluate] returns it and runs
    no agent. *)
Lemma evaluate_cached (agent : list Turn -> Report) (s : Session Report) r :
  phase s = DONE -> report s = Some r -> evaluate agent s = (inl r, s).
Proof. intros Hp Hr. unfold evaluate. rewrite Hp, Hr. reflexivity. Qed.

End Evaluate.

(** C6.  [evaluate] is idempotent.  When a call on a session returns a
    report, the session it leaves is [DONE] and holds that report, and
    a second call returns the same report and leaves the session as it
    is, whatever the evaluation agent would compute this time: the
    cached report is returned, nothing is recomputed.  The first call
    on a session that is not yet [DONE] returns what the agent computes
    from the turn history. *)
Theorem C6_evaluate_twice_same_report
    (Report : Type) (agent agent' : list Turn -> Report)
    (s s' : Session Report) (r : Report) :
  evaluate agent s = (inl r, s') ->
  evaluate agent' s' = (inl r, s')
  /\ phase s' = DONE /\ report s' = Some r
  /\ (phase s <> DONE -> r = agent (turns s)).
Proof.
  intros H. destruct (evaluate_stores Report agent s s' r H) as [Hp Hr].
  split; [now apply evaluate_cached|]. split; [exact Hp|]. split; [exact Hr|].
  intros Hn. unfold evaluate in H.
  destruct (phase s); try (now elim Hn); simpl in H;
    destruct (turns s); try discriminate; inversion H; reflexivity.
Qed.

Lemma C6_evaluate_twice_same_report_witness :
  evaluate (fun ts => List.length ts)
    (submit_all Sample.lenient Sample.answers
               (planned nat practice Sample.plan))
  = (inl 6%nat,
     snd (evaluate (fun ts => List.length ts)
            (submit_all Sample.lenient Sample.answers
               (planned nat practice Sample.plan))))
  /\ evaluate (fun _ => 0%nat)
       (snd (evaluate (fun ts => List.length ts)
               (submit_all Sample.lenient Sample.answers
               (planned nat practice Sample.plan))))
     = (inl 6%nat,
        snd (evaluate (fun ts => List.length ts)
               (submit_all Sample.lenient Sample.answers
               (planned nat practice Sample.plan)))).
Proof.
  split; [reflexivity|].
  exact (proj1 (C6_evaluate_twice_same_report nat
                  (fun ts => List.length ts) (fun _ => 0%nat)
                  (submit_all Sample.lenient Sample.answers
               (planned nat practice Sample.plan))
                  (snd (evaluate (fun ts => List.length ts)
                          (submit_all Sample.lenient Sample.answers
                             (planned nat practice Sample.plan))))
                  6%nat eq_refl)).
Defined.


Section Routing.

Variable Report : Type.
Variable limit : nat.












End Routing.




(** The sample interview: each of the three items gets one follow-up and
    is then left. *)
Example sample_decisions :
  decisions (submit_all Sample.lenient Sample.answers
               (planned unit practice Sample.plan))
  = [ (0, follow_up); (0, switch_persona); (1, follow_up);
      (1, switch_persona); (2, follow_up); (2, switch_persona) ]%nat.
Proof. reflexivity. Qed.

End OrchestratorSpec.

(* ===================================================================== *)
(** ** Binary64 arithmetic on samples *)
(* ===================================================================== *)

Module FloatFacts.

Import Num VoiceRecorder.

(** *** Mantissas shifted left *)

Lemma shiftl_nat_S m k : Pos.shiftl_nat m (S k) = xO (Pos.shiftl_nat m k).
Proof. reflexivity. Qed.

Lemma Pos_iter_xO m d : Pos.iter xO m d = Pos.shiftl_nat m (Pos.to_nat d).
Proof. rewrite Pos2Nat.inj_iter. reflexivity. Qed.

Lemma shiftl_nat_Z m k : Zpos (Pos.shiftl_nat m k) = Zpos m * 2 ^ Z.of_nat k.
Proof.
  induction k as [|k IH]; [simpl; lia|].
  rewrite shiftl_nat_S, Pos2Z.inj_xO, IH, Nat2Z.inj_succ, Z.pow_succ_r; lia.
Qed.

Lemma shiftl_nat_add m a b :
  Pos.shiftl_nat (Pos.shiftl_nat m a) b = Pos.shiftl_nat m (a + b).
Proof.
  induction b as [|b IH]; [now rewrite Nat.add_0_r|].
  rewrite Nat.add_succ_r, !shiftl_nat_S, IH. reflexivity.
Qed.

Lemma shiftl_nat_mul x a y b :
  (Pos.shiftl_nat x a * Pos.shiftl_nat y b)%positive
  = Pos.shiftl_nat (x * y) (a + b).
Proof.
  apply Pos2Z.inj. rewrite Pos2Z.inj_mul, !shiftl_nat_Z, Pos2Z.inj_mul.
  rewrite Nat2Z.inj_add, Z.pow_add_r; lia.
Qed.

Lemma digits_pos m : (1 <= digits m)%nat.
Proof. unfold digits. lia. Qed.

Lemma Zdigits2_digits m : Zpos (digits2_pos m) = Z.of_nat (digits m).
Proof. unfold digits. now rewrite positive_nat_Z. Qed.

Lemma digits_shiftl m k : digits (Pos.shiftl_nat m k) = (digits m + k)%nat.
Proof.
  unfold digits. induction k as [|k IH]; [now rewrite Nat.add_0_r|].
  rewrite shiftl_nat_S. simpl. rewrite Pos2Nat.inj_succ, IH. lia.
Qed.

Lemma digits2_pos_size m : digits2_pos m = Pos.size m.
Proof. induction m; simpl; congruence. Qed.

(** [2^(digits m - 1) <= m < 2^(digits m)] *)
Lemma digits_bounds m :
  2 ^ (Z.of_nat (digits m) - 1) <= Zpos m < 2 ^ Z.of_nat (digits m).
Proof.
  rewrite <- Zdigits2_digits, digits2_pos_size.
  pose proof (Pos.size_gt m) as Hgt. pose proof (Pos.size_le m) as Hle.
  apply Pos2Z.pos_lt_pos in Hgt. apply Pos2Z.pos_le_pos in Hle.
  rewrite Pos2Z.inj_pow in Hgt, Hle.
  change (Z.pos 2) with 2 in Hle. change (Z.pos m~0) with (2 * Z.pos m) in Hle.
  split; [|exact Hgt].
  assert (H2 : 2 ^ Z.pos (Pos.size m) = 2 * 2 ^ (Z.pos (Pos.size m) - 1)).
  { rewrite <- Z.pow_succ_r by lia. f_equal. lia. }
  lia.
Qed.

Lemma digits_le m k : Zpos m < 2 ^ Z.of_nat k -> (digits m <= k)%nat.
Proof.
  intros H. destruct (digits_bounds m) as [Hlo _].
  destruct (Nat.le_gt_cases (digits m) k) as [|Hgt]; [assumption|].
  assert (2 ^ Z.of_nat k <= 2 ^ (Z.of_nat (digits m) - 1))
    by (apply Z.pow_le_mono_r; lia).
  lia.
Qed.

(** *** Rounding that has nothing to round *)

Lemma iter_pos_nat {A : Type} (f : A -> A) p : forall x,
  iter_pos f p x = Nat.iter (Pos.to_nat p) f x.
Proof.
  induction p as [p IH|p IH|]; intros x.
  - change (iter_pos f p~1 x) with (iter_pos f p (iter_pos f p (f x))).
    rewrite !IH, Pos2Nat.inj_xI.
    change (f x) with (Nat.iter 1 f x). rewrite <- !Nat.iter_add.
    f_equal. lia.
  - change (iter_pos f p~0 x) with (iter_pos f p (iter_pos f p x)).
    rewrite !IH, Pos2Nat.inj_xO, <- Nat.iter_add. f_equal. lia.
  - reflexivity.
Qed.

(** Shifting out [k] zero bits loses nothing. *)
Lemma shr_zero_bits q k :
  Nat.iter k shr_1 (exact (Pos.shiftl_nat q k)) = exact q.
Proof.
  induction k as [|k IH]; [reflexivity|].
  rewrite Nat.iter_succ_r, shiftl_nat_S. exact IH.
Qed.

Lemma fexp64 z : -1074 <= z - 53 -> fexp prec64 emax64 z = z - 53.
Proof. unfold fexp, emin, prec64, emax64. lia. Qed.

(** A mantissa [q * 2^j] with more than 53 digits whose [n] excess digits
    are among the [j] trailing zeros is shifted right by [n], exactly. *)
Lemma shr_fexp_exact q j ex n :
  (digits q + j = 53 + n)%nat -> (n <= j)%nat ->
  -1074 <= ex + Z.of_nat n ->
  shr_fexp prec64 emax64 (Zpos (Pos.shiftl_nat q j)) ex loc_Exact
  = (exact (Pos.shiftl_nat q (j - n)), ex + Z.of_nat n).
Proof.
  intros Hd Hn He. unfold shr_fexp.
  change (Zdigits2 (Zpos (Pos.shiftl_nat q j)))
    with (Zpos (digits2_pos (Pos.shiftl_nat q j))).
  rewrite Zdigits2_digits, digits_shiftl, Hd, fexp64 by lia.
  replace (Z.of_nat (53 + n) + ex - 53 - ex) with (Z.of_nat n) by lia.
  change (shr_record_of_loc (Zpos (Pos.shiftl_nat q j)) loc_Exact)
    with (exact (Pos.shiftl_nat q j)).
  destruct n as [|n'].
  - simpl. rewrite Nat.sub_0_r, Z.add_0_r. reflexivity.
  - unfold shr.
    change (Z.of_nat (S n')) with (Zpos (Pos.of_succ_nat n')).
    cbv beta iota. rewrite iter_pos_nat, SuccNat2Pos.id_succ.
    replace j with ((j - S n') + S n')%nat at 1 by lia.
    rewrite <- shiftl_nat_add, shr_zero_bits. reflexivity.
Qed.

(** [binary_round_aux] on such a mantissa returns it, shifted. *)
Lemma binary_round_aux_exact sg q j ex n :
  (digits q + j = 53 + n)%nat -> (n <= j)%nat ->
  -1074 <= ex + Z.of_nat n -> ex + Z.of_nat n <= 971 ->
  binary_round_aux prec64 emax64 sg (Zpos (Pos.shiftl_nat q j)) ex loc_Exact
  = S754_finite sg (Pos.shiftl_nat q (j - n)) (ex + Z.of_nat n).
Proof.
  intros Hd Hn Hlo Hhi. unfold binary_round_aux.
  rewrite (shr_fexp_exact q j ex n Hd Hn Hlo).
  change (round_nearest_even (shr_m (exact (Pos.shiftl_nat q (j - n))))
            (loc_of_shr_record (exact (Pos.shiftl_nat q (j - n)))))
    with (Zpos (Pos.shiftl_nat q (j - n))).
  rewrite (shr_fexp_exact q (j - n) (ex + Z.of_nat n) 0) by lia.
  rewrite Nat.sub_0_r. simpl shr_m. rewrite Z.add_0_r.
  unfold emax64, prec64.
  destruct (Z.leb_spec (ex + Z.of_nat n) (1024 - 53)); [reflexivity | lia].
Qed.

Lemma digits_ge m k : 2 ^ Z.of_nat k <= Zpos m -> (k + 1 <= digits m)%nat.
Proof.
  intros H. destruct (digits_bounds m) as [_ Hhi].
  destruct (Nat.le_gt_cases (k + 1) (digits m)) as [|Hgt]; [assumption|].
  assert (2 ^ Z.of_nat (digits m) <= 2 ^ Z.of_nat k)
    by (apply Z.pow_le_mono_r; lia).
  lia.
Qed.

(** The digits of a product. *)
Lemma digits_mul m c :
  (digits m + digits c - 1 <= digits (m * c) <= digits m + digits c)%nat.
Proof.
  destruct (digits_bounds m) as [Hm1 Hm2], (digits_bounds c) as [Hc1 Hc2].
  pose proof (digits_pos m). pose proof (digits_pos c).
  split.
  - assert (H1 : (digits m + digits c - 2 + 1 <= digits (m * c))%nat).
    { apply digits_ge. rewrite Pos2Z.inj_mul.
      replace (Z.of_nat (digits m + digits c - 2))
        with ((Z.of_nat (digits m) - 1) + (Z.of_nat (digits c) - 1)) by lia.
      rewrite Z.pow_add_r by lia. apply Z.mul_le_mono_nonneg; lia. }
    lia.
  - apply digits_le. rewrite Pos2Z.inj_mul, Nat2Z.inj_add, Z.pow_add_r by lia.
    apply Z.mul_lt_mono_nonneg; lia.
Qed.

(** *** Canonical numbers *)

(** Reading a finite binary32 sample gives the canonical binary64 number
    of its mantissa and exponent. *)
Lemma isFloat32_finite sg m e :
  isFloat32 (S754_finite sg m e) = true ->
  (digits m <= 24)%nat /\ -149 <= e <= 104.
Proof.
  unfold isFloat32, valid_binary, bounded, canonical_mantissa, fexp, emin,
    prec32, emax32.
  rewrite Zdigits2_digits. intros H.
  apply andb_true_iff in H as [H1 H2].
  apply Z.eqb_eq in H1. apply Z.leb_le in H2. lia.
Qed.

Lemma ofFloat32_finite sg m e :
  isFloat32 (S754_finite sg m e) = true ->
  ofFloat32 (S754_finite sg m e) = dyadic sg m e.
Proof.
  intros H. apply isFloat32_finite in H as [Hd He].
  pose proof (digits_pos m) as Hp.
  unfold ofFloat32, binary_round, dyadic.
  rewrite Zdigits2_digits, fexp64 by lia. unfold shl_align.
  assert (Hk : Zpos (Pos.of_nat (53 - digits m)) = Z.of_nat (53 - digits m))
    by (rewrite <- positive_nat_Z, Nat2Pos.id by lia; reflexivity).
  replace (Z.of_nat (digits m) + e - 53 - e)
    with (Zneg (Pos.of_nat (53 - digits m)))
    by (rewrite <- Pos2Z.opp_pos, Hk; lia).
  rewrite Pos_iter_xO, Nat2Pos.id by lia.
  rewrite (binary_round_aux_exact sg m (53 - digits m) _ 0) by lia.
  rewrite Nat.sub_0_r. f_equal. lia.
Qed.

(** The literals of the conversion. *)
Lemma literals :
  ofZ 1 = dyadic false 1 0 /\ ofZ (-1) = dyadic true 1 0
  /\ ofZ 32768 = dyadic false 32768 0 /\ ofZ 32767 = dyadic false 32767 0
  /\ ofZ 0 = S754_zero false.
Proof. repeat split; reflexivity. Qed.

(** The product of two canonical numbers whose mantissas multiply to at
    most 53 digits is computed without rounding. *)
Lemma mul_dyadic sg m e c :
  (digits (m * c) <= 53)%nat -> -1000 <= e <= 900 ->
  mul (dyadic sg m e) (dyadic false c 0) = dyadic sg (m * c) e.
Proof.
  intros Hd He.
  pose proof (digits_mul m c) as [Hmc1 Hmc2].
  pose proof (digits_pos m). pose proof (digits_pos c).
  pose proof (digits_pos (m * c)).
  unfold mul, dyadic, SFmul. rewrite xorb_false_r, shiftl_nat_mul.
  rewrite (binary_round_aux_exact sg (m * c)
             (53 - digits m + (53 - digits c)) _
             (53 + digits (m * c) - digits m - digits c)) by lia.
  f_equal; [f_equal; lia | lia].
Qed.

(** Dropping the fraction of a canonical number. *)
Lemma truncate_dyadic sg m e :
  truncate (dyadic sg m e) = cond_Zopp sg (Z.shiftl (Zpos m) e).
Proof.
  unfold truncate, dyadic. f_equal.
  rewrite shiftl_nat_Z, <- Z.shiftl_mul_pow2 by lia.
  rewrite Z.shiftl_shiftl by lia. f_equal. lia.
Qed.

(** The mantissa of a canonical number has exactly 53 digits. *)
Lemma dyadic_mantissa m :
  (digits m <= 53)%nat ->
  4503599627370496 <= Zpos (Pos.shiftl_nat m (53 - digits m)).
Proof.
  intros Hd. pose proof (digits_pos m). destruct (digits_bounds m) as [Hlo _].
  rewrite shiftl_nat_Z.
  change 4503599627370496 with (2 ^ 52).
  replace 52 with ((Z.of_nat (digits m) - 1) + Z.of_nat (53 - digits m)) by lia.
  rewrite Z.pow_add_r by lia.
  apply Z.mul_le_mono_nonneg_r; [apply Z.pow_nonneg; lia | exact Hlo].
Qed.

(** *** The clamp *)

(** [Math.max(-1, Math.min(1, x))] on a finite sample: a sample of
    magnitude 1 or more (its exponent plus its number of digits is
    positive) becomes [1] or [-1], any other is kept. *)
Lemma clampSample_finite sg m e :
  isFloat32 (S754_finite sg m e) = true ->
  clampSample (S754_finite sg m e)
  = if 1 <=? e + Z.of_nat (digits m) then dyadic sg 1 0 else dyadic sg m e.
Proof.
  intros Hx. unfold clampSample.
  rewrite (ofFloat32_finite sg m e Hx).
  apply isFloat32_finite in Hx as [Hd He].
  destruct literals as (-> & -> & _).
  pose proof (dyadic_mantissa m ltac:(lia)) as HM.
  change (dyadic false 1 0) with (S754_finite false 4503599627370496 (-52)).
  change (dyadic true 1 0) with (S754_finite true 4503599627370496 (-52)).
  change (dyadic sg 1 0) with (S754_finite sg 4503599627370496 (-52)).
  unfold dyadic.
  set (M := Pos.shiftl_nat m (53 - digits m)) in *.
  set (E := e - Z.of_nat (53 - digits m)).
  assert (HE : E = e + Z.of_nat (digits m) - 53) by (unfold E; lia).
  clearbody M E.
  destruct sg; unfold Math_min, Math_max, SFcompare;
    change (PosDef.Pos.compare_cont Eq 4503599627370496 M)
      with (Pos.compare 4503599627370496 M).
  - (* a negative sample *)
    destruct (Z.compare_spec (-52) E) as [H|H|H].
    + destruct (Pos.compare_spec 4503599627370496 M) as [H'|H'|H']; simpl;
        try (apply Pos2Z.pos_lt_pos in H'; lia);
        (destruct (Z.leb_spec 1 (e + Z.of_nat (digits m))); [reflexivity | lia]).
    + simpl. destruct (Z.leb_spec 1 (e + Z.of_nat (digits m))); [reflexivity | lia].
    + simpl. destruct (Z.leb_spec 1 (e + Z.of_nat (digits m))); [lia | reflexivity].
  - (* a positive sample *)
    destruct (Z.compare_spec (-52) E) as [H|H|H].
    + destruct (Pos.compare_spec 4503599627370496 M) as [H'|H'|H']; simpl;
        try (apply Pos2Z.pos_lt_pos in H'; lia);
        (destruct (Z.leb_spec 1 (e + Z.of_nat (digits m))); [reflexivity | lia]).
    + simpl. destruct (Z.leb_spec 1 (e + Z.of_nat (digits m))); [reflexivity | lia].
    + simpl. destruct (Z.leb_spec 1 (e + Z.of_nat (digits m))); [lia | reflexivity].
Qed.

(** The clamped sample lies between [-1] and [1]. *)
Lemma clampSample_bounds sg m e :
  isFloat32 (S754_finite sg m e) = true ->
  SFleb (ofZ (-1)) (clampSample (S754_finite sg m e)) = true
  /\ SFleb (clampSample (S754_finite sg m e)) (ofZ 1) = true.
Proof.
  intros Hx. rewrite (clampSample_finite sg m e Hx).
  apply isFloat32_finite in Hx as [Hd He].
  destruct literals as (-> & -> & _).
  change (dyadic false 1 0) with (S754_finite false 4503599627370496 (-52)).
  change (dyadic true 1 0) with (S754_finite true 4503599627370496 (-52)).
  change (dyadic sg 1 0) with (S754_finite sg 4503599627370496 (-52)).
  destruct (Z.leb_spec 1 (e + Z.of_nat (digits m))) as [H|H].
  - destruct sg; split; reflexivity.
  - unfold dyadic, SFleb, SFcompare.
    assert (HE : e - Z.of_nat (53 - digits m) < -52) by lia.
    destruct sg; split; try reflexivity.
    + apply Z.compare_gt_iff in HE. now rewrite HE.
    + apply Z.compare_lt_iff in HE. now rewrite HE.
Qed.

(** *** Scaling and storing *)

Lemma scaleSample_dyadic sg m e :
  (digits m <= 24)%nat -> -1000 <= e <= 900 ->
  scaleSample (dyadic sg m e) = dyadic sg (m * scaleOf sg) e.
Proof.
  intros Hd He. unfold scaleSample.
  destruct literals as (_ & _ & -> & -> & ->).
  assert (Hlt : lt (dyadic sg m e) (S754_zero false) = sg)
    by (destruct sg; reflexivity).
  rewrite Hlt.
  assert (Hc : (digits (scaleOf sg) <= 16)%nat) by (destruct sg; vm_compute; lia).
  pose proof (digits_mul m (scaleOf sg)) as [_ Hmc].
  destruct sg; apply mul_dyadic; simpl in *; lia.
Qed.

(** Storing into the [Int16Array] an integer that fits does not wrap. *)
Lemma wrap16_small t :
  -32768 <= t <= 32767 ->
  (if 32768 <=? t mod 65536 then t mod 65536 - 65536 else t mod 65536) = t.
Proof.
  intros H. destruct (Z.leb_spec 32768 (t mod 65536)) as [H1|H1];
    Z.div_mod_to_equations; lia.
Qed.

Lemma ToInt16_dyadic sg m e :
  -32768 <= cond_Zopp sg (Z.shiftl (Zpos m) e) <= 32767 ->
  ToInt16 (dyadic sg m e) = cond_Zopp sg (Z.shiftl (Zpos m) e)
  /\ truncate (dyadic sg m e) = cond_Zopp sg (Z.shiftl (Zpos m) e).
Proof.
  intros H. pose proof (truncate_dyadic sg m e) as Ht. split; [|exact Ht].
  unfold ToInt16. change (dyadic sg m e)
    with (S754_finite sg (Pos.shiftl_nat m (53 - digits m))
            (e - Z.of_nat (53 - digits m))) at 1.
  cbv beta iota.
  change (S754_finite sg (Pos.shiftl_nat m (53 - digits m))
            (e - Z.of_nat (53 - digits m))) with (dyadic sg m e).
  rewrite Ht. now apply wrap16_small.
Qed.

Lemma magnitude_range sg m e :
  0 <= magnitude sg m e <= Zpos (scaleOf sg).
Proof.
  unfold magnitude. split; [|apply Z.le_min_l].
  apply Z.min_glb; [lia|]. apply Z.shiftl_nonneg. lia.
Qed.

(** A sample of magnitude 1 or more reaches the cap, a smaller one does
    not. *)
Lemma magnitude_clamped sg m e :
  1 <= e + Z.of_nat (digits m) -> magnitude sg m e = Zpos (scaleOf sg).
Proof.
  intros H. unfold magnitude. apply Z.min_l.
  destruct (digits_bounds m) as [Hlo _]. pose proof (digits_pos m).
  destruct (Z.le_gt_cases 0 e) as [He|He].
  - rewrite Z.shiftl_mul_pow2 by lia.
    assert (1 <= 2 ^ e) by (apply (Z.pow_le_mono_r 2 0 e); lia).
    assert (Zpos (scaleOf sg) <= Zpos m * Zpos (scaleOf sg)) by nia.
    nia.
  - rewrite Z.shiftl_div_pow2 by lia.
    assert (Hp : 2 ^ (- e) <= 2 ^ (Z.of_nat (digits m) - 1))
      by (apply Z.pow_le_mono_r; lia).
    assert (0 < 2 ^ (- e)) by (apply Z.pow_pos_nonneg; lia).
    apply Z.div_le_lower_bound; [assumption | nia].
Qed.

Lemma magnitude_small sg m e :
  e + Z.of_nat (digits m) <= 0 ->
  magnitude sg m e = Z.shiftl (Zpos m * Zpos (scaleOf sg)) e
  /\ magnitude sg m e < Zpos (scaleOf sg).
Proof.
  intros H. destruct (digits_bounds m) as [_ Hhi]. pose proof (digits_pos m).
  assert (Hp : 2 ^ Z.of_nat (digits m) <= 2 ^ (- e))
    by (apply Z.pow_le_mono_r; lia).
  assert (0 < 2 ^ (- e)) by (apply Z.pow_pos_nonneg; lia).
  assert (Hlt : Z.shiftl (Zpos m * Zpos (scaleOf sg)) e < Zpos (scaleOf sg)).
  { rewrite Z.shiftl_div_pow2 by lia.
    apply Z.div_lt_upper_bound; [assumption | nia]. }
  unfold magnitude. rewrite Z.min_r by lia. split; [reflexivity | exact Hlt].
Qed.

(** The stored sample of a finite input. *)
Lemma pcmSample_finite sg m e :
  isFloat32 (S754_finite sg m e) = true ->
  pcmSample (S754_finite sg m e)
  = cond_Zopp sg (magnitude sg m e)
  /\ truncate (scaleSample
                 (clampSample (S754_finite sg m e)))
     = cond_Zopp sg (magnitude sg m e).
Proof.
  intros Hx. unfold pcmSample.
  rewrite (clampSample_finite sg m e Hx).
  apply isFloat32_finite in Hx as [Hd He].
  pose proof (magnitude_range sg m e) as Hr.
  assert (Hs : Zpos (scaleOf sg) <= 32768 /\ (sg = false -> Zpos (scaleOf sg) = 32767))
    by (destruct sg; simpl; split; try lia; intros; try reflexivity; discriminate).
  assert (Hfit : -32768 <= cond_Zopp sg (magnitude sg m e) <= 32767)
    by (destruct sg; simpl; destruct Hs as [Hs1 Hs2];
        [lia | specialize (Hs2 eq_refl); lia]).
  destruct (Z.leb_spec 1 (e + Z.of_nat (digits m))) as [H|H].
  - rewrite scaleSample_dyadic by (simpl; try (vm_compute; lia); lia).
    rewrite (magnitude_clamped sg m e H) in *.
    change (Zpos (scaleOf sg)) with (Z.shiftl (Zpos (1 * scaleOf sg)) 0) in Hfit |- *.
    now apply ToInt16_dyadic.
  - rewrite scaleSample_dyadic by lia.
    destruct (magnitude_small sg m e ltac:(lia)) as [Hm _].
    rewrite Hm in *. rewrite <- Pos2Z.inj_mul in Hfit |- *.
    now apply ToInt16_dyadic.
Qed.

End FloatFacts.

Module PcmSpec.

Import Num VoiceRecorder FloatFacts.

(** What one sample is stored as, and that storing it does not wrap. *)
Lemma pcmSample_spec (x : spec_float) :
  isFloat32 x = true ->
  pcmSample x = truncate (scaleSample (clampSample x))
  /\ pcmSample x
     = match x with
       | S754_finite sg m e => cond_Zopp sg (magnitude sg m e)
       | S754_infinity sg => cond_Zopp sg (Zpos (scaleOf sg))
       | S754_zero _ | S754_nan => 0
       end.
Proof.
  intros Hx. destruct x as [s | s | | sg m e].
  - destruct s; split; reflexivity.
  - destruct s; split; reflexivity.
  - split; reflexivity.
  - destruct (pcmSample_finite sg m e Hx) as [H1 H2]. split; congruence.
Qed.

(** C10.  Every sample of a [Float32Array] is stored as a 16-bit value
    in [-32768, 32767], whatever the input: finite values inside or
    outside [-1, 1], infinities, zeros and NaN.  The sample is first
    clamped to [-1, 1] (NaN stays NaN and is stored as 0), then scaled,
    by 32768 when negative and by 32767 otherwise; the product is exact
    in binary64, and its integer part already fits 16 bits, so that the
    store into the [Int16Array] does not wrap: the stored value is the
    integer part of the scaled clamped sample, [magnitude] with the sign
    of the input. *)
Theorem C10_pcm_samples_fit_int16 (float32 : list spec_float) :
  forallb isFloat32 float32 = true ->
  Forall inInt16 (int16 float32)
  /\ (forall x, In x float32 ->
        inInt16 (pcmSample x)
        /\ pcmSample x = truncate (scaleSample (clampSample x))
        /\ pcmSample x
           = match x with
             | S754_finite sg m e => cond_Zopp sg (magnitude sg m e)
             | S754_infinity sg => cond_Zopp sg (Zpos (scaleOf sg))
             | S754_zero _ | S754_nan => 0
             end
        /\ (x <> S754_nan ->
            SFleb (ofZ (-1)) (clampSample x) = true
            /\ SFleb (clampSample x) (ofZ 1) = true)).
Proof.
  intros Hall. rewrite forallb_forall in Hall.
  assert (P : forall x, In x float32 ->
        inInt16 (pcmSample x)
        /\ pcmSample x = truncate (scaleSample (clampSample x))
        /\ pcmSample x
           = match x with
             | S754_finite sg m e => cond_Zopp sg (magnitude sg m e)
             | S754_infinity sg => cond_Zopp sg (Zpos (scaleOf sg))
             | S754_zero _ | S754_nan => 0
             end
        /\ (x <> S754_nan ->
            SFleb (ofZ (-1)) (clampSample x) = true
            /\ SFleb (clampSample x) (ofZ 1) = true)).
  { intros x Hin. specialize (Hall x Hin).
    destruct (pcmSample_spec x Hall) as [H1 H2].
    split; [|split; [exact H1 | split; [exact H2|]]].
    - rewrite H2. unfold inInt16.
      destruct x as [s | s | | sg m e]; try lia.
      + destruct s; simpl; lia.
      + pose proof (magnitude_range sg m e). destruct sg; simpl in *; lia.
    - intros Hn. destruct x as [s | s | | sg m e].
      + destruct s; split; reflexivity.
      + destruct s; split; reflexivity.
      + now elim Hn.
      + now apply clampSample_bounds. }
  split; [|exact P].
  unfold int16. apply Forall_forall. intros z Hz.
  apply in_map_iff in Hz as (x & <- & Hin). exact (proj1 (P x Hin)).
Qed.

Lemma C10_pcm_samples_fit_int16_witness :
  forallb isFloat32 Sample.buffer = true
  /\ Forall inInt16 (int16 Sample.buffer).
Proof.
  split; [reflexivity|].
  exact (proj1 (C10_pcm_samples_fit_int16 Sample.buffer eq_refl)).
Defined.

(** The sample buffer: 1 gives 32767, -0.3 gives -9830, a large value
    is clamped to 32767, a tiny negative value gives 0, minus infinity
    gives -32768, NaN and -0 give 0. *)
Example buffer_pcm :
  int16 Sample.buffer = [32767; -9830; 32767; 0; -32768; 0; 0].
Proof. vm_compute. reflexivity. Qed.

End PcmSpec.

(* ===================================================================== *)
(** ** More on the interview screen *)
(* ===================================================================== *)

Module TranscriptFacts.

Import Chat Client Transcript ChatFacts SubmitFacts.

(** Every event changes the chat in one of four ways. *)
Lemma handleEvent_change p ev c :
  Change (st (chat c)) (st (chat (fst (handleEvent p ev c))))
    (snd (handleEvent p ev c)).
Proof.
  destruct ev as [ | v | m | now | cl now e | r | now r | a ]; simpl.
  - unfold mountEffect. destruct (hasFetchedFirst (st (chat c))); simpl;
      apply Unchanged; simpl; auto.
  - apply Unchanged; simpl; auto.
  - apply Unchanged; simpl; auto.
  - unfold handleTextSubmit, handleSubmitAnswer.
    destruct (negb (truthy (trim (inputText (st (chat c)))))
              || c_loading (closureOf (st (chat c)))); simpl.
    + apply Unchanged; simpl; auto.
    + apply (@Answered _ _ _ now (inputText (st (chat c)))); simpl; auto.
  - destruct e as [ | msg | | m ]; simpl; try (apply Unchanged; simpl; auto; fail).
    destruct msg as [t | t | t vm | t | ]; simpl;
      try (apply Unchanged; simpl; auto; fail).
    unfold handleVoiceDone, handleSubmitAnswer.
    destruct (negb (truthy (trim t)) || c_loading cl); simpl.
    + apply Unchanged; simpl; auto.
    + apply (@Answered _ _ _ now t); simpl; auto.
  - destruct (takePending isAwaitSubmit (pending (chat c)))
      as [[[u cl|] rest]|]; simpl; try (apply Unchanged; simpl; auto; fail).
    unfold handleSubmitAnswer_resume. destruct r as [res|]; simpl.
    + destruct (is_interview_over res); simpl;
        apply (@Analysed _ _ _ (analysis res) u); simpl; auto.
    + apply Unchanged; simpl; auto.
  - destruct (takePending isAwaitNext (pending (chat c))) as [[x rest]|];
      simpl; try (apply Unchanged; simpl; auto; fail).
    unfold fetchNextQuestion_resume. destruct r as [res|]; simpl.
    + destruct (done res); simpl; [apply Unchanged; simpl; auto|].
      destruct (question res) as [q|]; simpl; [|apply Unchanged; simpl; auto].
      destruct (nq_persona res) as [per|]; simpl; [|apply Unchanged; simpl; auto].
      destruct (truthy q); simpl; [|apply Unchanged; simpl; auto].
      eapply Asked; simpl; eauto.
    + apply Unchanged; simpl; auto.
  - destruct (hintPanelProps p (st (chat c))); simpl; apply Unchanged; simpl; auto.
Qed.

Lemma step_change p ev c :
  Change (st (chat c)) (st (chat (fst (step p ev c)))) (snd (step p ev c)).
Proof. rewrite step_fst, step_snd. apply handleEvent_change. Qed.

(** A property of the chat state kept by each kind of change holds
    along every run. *)
Lemma run_keeps (P : State -> Prop) p :
  (forall s s' eff, Change s s' eff -> P s -> P s') ->
  forall evs c, P (st (chat c)) -> P (st (chat (fst (run p evs c)))).
Proof.
  intros HP. induction evs as [|ev evs IH]; intros c Hc; [exact Hc|].
  rewrite run_fst_cons. apply IH.
  exact (HP _ _ _ (step_change p ev c) Hc).
Qed.

Lemma annotate_bare a u msgs : map bare (annotate a u msgs) = map bare msgs.
Proof.
  unfold annotate. rewrite map_map. apply map_ext. intros m.
  destruct (MsgId_eqb (id m) u); reflexivity.
Qed.

Lemma annotate_filter (f : ChatMessage -> bool) a u msgs :
  (forall m, f (withAnalysis a m) = f m) ->
  filter f (annotate a u msgs) = annotate a u (filter f msgs).
Proof.
  intros Hf. unfold annotate. induction msgs as [|m msgs IH]; [reflexivity|].
  simpl. destruct (MsgId_eqb (id m) u) eqn:E.
  - rewrite Hf. destruct (f m); simpl; rewrite ?E, IH; reflexivity.
  - destruct (f m); simpl; rewrite ?E, IH; reflexivity.
Qed.

Lemma annotate_length a u msgs :
  List.length (annotate a u msgs) = List.length msgs.
Proof. apply length_map. Qed.

Lemma annotate_texts a u msgs : map text (annotate a u msgs) = map text msgs.
Proof.
  unfold annotate. rewrite map_map. apply map_ext. intros m.
  destruct (MsgId_eqb (id m) u); reflexivity.
Qed.

Lemma postedAnswers_app e1 e2 :
  postedAnswers (e1 ++ e2) = postedAnswers e1 ++ postedAnswers e2.
Proof.
  induction e1 as [|[sid|sid d|l] e1 IH]; simpl; rewrite ?IH; reflexivity.
Qed.

End TranscriptFacts.

Module AwaitedFacts.

Import Chat Client Transcript ChatFacts SubmitFacts TranscriptFacts.

Lemma awaited_handleEvent p ev c :
  Inv c -> fresh ev c = true -> awaitedAnswerIsLast (chat c) ->
  awaitedAnswerIsLast (chat (fst (handleEvent p ev c))).
Proof.
  intros (Hf & Hlen & Hload) Hfresh HA.
  assert (Hidle : loading (st (chat c)) = false -> pending (chat c) = []).
  { intros Hl. destruct (pending (chat c)) as [|x l]; [reflexivity|].
    rewrite Hload in Hl; discriminate. }
  destruct ev as [ | v | m | now | cl now e | r | now r | a ]; simpl.
  - unfold mountEffect. rewrite Hf. exact HA.
  - exact HA.
  - exact HA.
  - unfold handleTextSubmit, handleSubmitAnswer.
    destruct (negb (truthy (trim (inputText (st (chat c)))))
              || c_loading (closureOf (st (chat c)))) eqn:G; simpl; [exact HA|].
    apply orb_false_iff in G as [_ G]. simpl in G. rewrite (Hidle G).
    intros u cl H. simpl in H. injection H as <- _. simpl.
    eexists _, _. split; [reflexivity|]. auto.
  - destruct e as [ | msg | | m ]; simpl; try exact HA.
    destruct msg as [t | t | t vm | t | ]; simpl; try exact HA.
    simpl in Hfresh. apply Bool.eqb_prop in Hfresh.
    unfold handleVoiceDone, handleSubmitAnswer.
    destruct (negb (truthy (trim t)) || c_loading cl) eqn:G; simpl; [exact HA|].
    apply orb_false_iff in G as [_ G]. rewrite Hfresh in G. rewrite (Hidle G).
    intros u cl' H. simpl in H. injection H as <- _. simpl.
    eexists _, _. split; [reflexivity|]. auto.
  - destruct (takePending isAwaitSubmit (pending (chat c)))
      as [[[u cl|] rest]|] eqn:T; simpl; try exact HA.
    apply takePending_short in T as [_ ->]; [|exact Hlen].
    unfold handleSubmitAnswer_resume. destruct r as [res|]; simpl.
    + destruct (is_interview_over res); simpl; intros u' cl' H; discriminate.
    + intros u' cl' H; discriminate.
  - destruct (takePending isAwaitNext (pending (chat c))) as [[x rest]|] eqn:T;
      simpl; try exact HA.
    apply takePending_short in T as [_ ->]; [|exact Hlen].
    destruct (fetchNextQuestion_resume now r (st (chat c))). simpl.
    intros u' cl' H; discriminate.
  - destruct (hintPanelProps p (st (chat c))); exact HA.
Qed.

Lemma awaited_run p evs : forall c,
  Inv c -> awaitedAnswerIsLast (chat c) -> freshRun p evs c = true ->
  Inv (fst (run p evs c)) /\ awaitedAnswerIsLast (chat (fst (run p evs c))).
Proof.
  induction evs as [|ev evs IH]; intros c HI HA HF; [auto|].
  simpl in HF. apply andb_true_iff in HF as [Hf Hr].
  rewrite run_fst_cons. apply IH; [| |exact Hr]; rewrite step_fst.
  - apply Inv_remount. now apply Inv_handleEvent.
  - now apply awaited_handleEvent.
Qed.

(** Submitting an answer takes the hints away, and they come back with
    the next question only. *)
Lemma quiet_handleEvent p ev c :
  Inv c -> fresh ev c = true -> noHintsWhileBusy (chat c) ->
  noHintsWhileBusy (chat (fst (handleEvent p ev c))).
Proof.
  intros (Hf & Hlen & Hload) Hfresh HQ. unfold noHintsWhileBusy in *.
  destruct ev as [ | v | m | now | cl now e | r | now r | a ]; simpl.
  - unfold mountEffect. rewrite Hf. exact HQ.
  - exact HQ.
  - exact HQ.
  - unfold handleTextSubmit, handleSubmitAnswer.
    destruct (negb (truthy (trim (inputText (st (chat c)))))
              || c_loading (closureOf (st (chat c)))); simpl; auto.
  - destruct e as [ | msg | | m ]; simpl; try exact HQ.
    destruct msg as [t | t | t vm | t | ]; simpl; try exact HQ.
    unfold handleVoiceDone, handleSubmitAnswer.
    destruct (negb (truthy (trim t)) || c_loading cl); simpl; auto.
  - destruct (takePending isAwaitSubmit (pending (chat c)))
      as [[[u cl|] rest]|] eqn:T; simpl; try exact HQ.
    assert (Hne : pending (chat c) <> [])
      by (intros E; rewrite E in T; discriminate).
    apply takePending_short in T as [_ ->]; [|exact Hlen].
    unfold handleSubmitAnswer_resume. destruct r as [res|]; simpl.
    + destruct (is_interview_over res); simpl; intros _; exact (HQ Hne).
    + intros H; now elim H.
  - destruct (takePending isAwaitNext (pending (chat c))) as [[x rest]|] eqn:T;
      simpl; try exact HQ.
    apply takePending_short in T as [_ ->]; [|exact Hlen].
    destruct (fetchNextQuestion_resume now r (st (chat c))). simpl.
    intros H; now elim H.
  - destruct (hintPanelProps p (st (chat c))); exact HQ.
Qed.

Lemma quiet_run p evs : forall c,
  Inv c -> noHintsWhileBusy (chat c) -> freshRun p evs c = true ->
  noHintsWhileBusy (chat (fst (run p evs c))).
Proof.
  induction evs as [|ev evs IH]; intros c HI HQ HF; [exact HQ|].
  simpl in HF. apply andb_true_iff in HF as [Hf Hr].
  rewrite run_fst_cons. apply IH; [| |exact Hr]; rewrite step_fst.
  - apply Inv_remount. now apply Inv_handleEvent.
  - now apply quiet_handleEvent.
Qed.

(** A handler that ends with nothing awaited has reset [loading]. *)
Lemma awaiting_handleEvent p ev c :
  loadingIsAwaiting (chat c) ->
  loadingIsAwaiting (chat (fst (handleEvent p ev c))).
Proof.
  unfold loadingIsAwaiting. intros HN.
  assert (Hsnoc : forall (l : list Pending) x, l ++ [x] = [] -> False)
    by (intros l x H; apply app_eq_nil in H as [_ H]; discriminate).
  destruct ev as [ | v | m | now | cl now e | r | now r | a ]; simpl.
  - unfold mountEffect. destruct (hasFetchedFirst (st (chat c))); simpl; auto.
    intros H. elim (Hsnoc _ _ H).
  - exact HN.
  - exact HN.
  - unfold handleTextSubmit, handleSubmitAnswer.
    destruct (negb (truthy (trim (inputText (st (chat c)))))
              || c_loading (closureOf (st (chat c)))); simpl; auto.
    intros H. elim (Hsnoc _ _ H).
  - destruct e as [ | msg | | m ]; simpl; try exact HN.
    destruct msg as [t | t | t vm | t | ]; simpl; try exact HN.
    unfold handleVoiceDone, handleSubmitAnswer.
    destruct (negb (truthy (trim t)) || c_loading cl); simpl; auto.
    intros H. elim (Hsnoc _ _ H).
  - destruct (takePending isAwaitSubmit (pending (chat c)))
      as [[[u cl|] rest]|]; simpl; try exact HN.
    unfold handleSubmitAnswer_resume. destruct r as [res|]; simpl; auto.
    destruct (is_interview_over res); simpl; auto.
    intros H. elim (Hsnoc _ _ H).
  - destruct (takePending isAwaitNext (pending (chat c))) as [[x rest]|];
      simpl; try exact HN.
    pose proof (fetchNextQuestion_resume_loading now r (st (chat c))) as Hl.
    destruct (fetchNextQuestion_resume now r (st (chat c))). simpl in *.
    intros _. exact (proj1 Hl).
  - destruct (hintPanelProps p (st (chat c))); exact HN.
Qed.

Lemma awaiting_run p evs : forall c,
  loadingIsAwaiting (chat c) -> loadingIsAwaiting (chat (fst (run p evs c))).
Proof.
  induction evs as [|ev evs IH]; intros c H; [exact H|].
  rewrite run_fst_cons. apply IH. rewrite step_fst.
  now apply awaiting_handleEvent.
Qed.

(** The state of an unmounted panel is gone. *)
Lemma run_panel_unmounted p evs : forall c,
  (hintPanelProps p (st (chat c)) = None -> panel c = HintPanel.initial) ->
  hintPanelProps p (st (chat (fst (run p evs c)))) = None ->
  panel (fst (run p evs c)) = HintPanel.initial.
Proof.
  induction evs as [|ev evs IH]; intros c Hc; [exact Hc|].
  rewrite run_fst_cons. apply IH. rewrite step_fst. unfold remount. simpl.
  intros H. now rewrite H.
Qed.

End AwaitedFacts.

Module TranscriptSpec.

Import Chat Client Transcript ChatFacts SubmitFacts TranscriptFacts AwaitedFacts.

(** X1.  The progress counter counts the questions in the chat: after
    every run of the mounted component, [currentQuestion] is the number
    of interviewer messages shown. *)
Theorem X1_currentQuestion_counts_questions (p : Props) (evs : list Event) :
  currentQuestion (st (chat (fst (run p evs (mounted p)))))
  = Z.of_nat (questionsShown (st (chat (fst (run p evs (mounted p)))))).
Proof.
  apply (run_keeps (fun s => currentQuestion s = Z.of_nat (questionsShown s)));
    [|reflexivity].
  intros s s' eff Hc H. unfold questionsShown in *.
  destruct Hc as [Hm Hq _ _ _ | now txt Hm Hq _ _ _ | a u Hm Hq _ _ _
                 | m Hm Hr _ _ Hq _ _]; rewrite Hm, Hq.
  - exact H.
  - rewrite filter_app, length_app. simpl. lia.
  - rewrite annotate_filter, annotate_length by reflexivity. exact H.
  - rewrite filter_app, length_app. unfold isInterviewer at 2. simpl.
    rewrite Hr. simpl. lia.
Qed.

(** X2.  The chat shows the answers that were posted: over any run, from
    any state, the answers added to the chat are, in order, the answers
    of the [submitAnswer] requests the run emitted. *)
Theorem X2_chat_answers_are_the_posted_answers
    (p : Props) (evs : list Event) (c : Client) :
  userTexts (st (chat (fst (run p evs c))))
  = userTexts (st (chat c)) ++ postedAnswers (snd (run p evs c)).
Proof.
  revert c. induction evs as [|ev evs IH]; intros c.
  - simpl. now rewrite app_nil_r.
  - rewrite run_fst_cons, run_snd_cons, postedAnswers_app, IH, app_assoc.
    f_equal. unfold userTexts.
    destruct (step_change p ev c) as [Hm _ _ He _ | now txt Hm _ _ He _
                                     | a u Hm _ _ He _ | m Hm Hr _ _ _ He _];
      rewrite Hm, He.
    + now rewrite app_nil_r.
    + rewrite filter_app, map_app. reflexivity.
    + rewrite annotate_filter, annotate_texts by reflexivity.
      now rewrite app_nil_r.
    + rewrite filter_app, map_app. unfold isUser at 2. simpl. rewrite Hr.
      simpl. now rewrite !app_nil_r.
Qed.

(** X3.  The chat only grows: over any run, from any state, the
    messages of the start, their analysis badges aside, are a prefix of
    the messages of the end; ids, roles, texts, topics and hints of
    messages already shown never change and no message is removed. *)
Theorem X3_chat_is_append_only (p : Props) (evs : list Event) (c : Client) :
  exists added,
    transcript (st (chat (fst (run p evs c))))
    = transcript (st (chat c)) ++ added.
Proof.
  revert c. induction evs as [|ev evs IH]; intros c.
  - exists []. simpl. now rewrite app_nil_r.
  - rewrite run_fst_cons. destruct (IH (fst (step p ev c))) as [added ->].
    unfold transcript.
    destruct (step_change p ev c) as [Hm _ _ _ _ | now txt Hm _ _ _ _
                                     | a u Hm _ _ _ _ | m Hm _ _ _ _ _ _];
      rewrite Hm.
    + now exists added.
    + rewrite map_app, <- app_assoc. eauto.
    + rewrite annotate_bare. now exists added.
    + rewrite map_app, <- app_assoc. eauto.
Qed.

(** X4.  The hints on offer are those of the question asked last: after
    every run of the mounted component, when a hint panel is mounted,
    the last message of the chat is a question and the panel holds the
    hints stored with it; hints of an earlier question are never on
    offer. *)
Theorem X4_hint_panel_belongs_to_last_question
    (p : Props) (evs : list Event) (hp : HintPanel.Props) :
  hintPanelProps p (st (chat (fst (run p evs (mounted p))))) = Some hp ->
  exists earlier m,
    messages (st (chat (fst (run p evs (mounted p))))) = earlier ++ [m]
    /\ role m = interviewer /\ hints m = Some (HintPanel.hints hp).
Proof.
  assert (H : hintsOfLastQuestion (st (chat (fst (run p evs (mounted p)))))).
  { apply (run_keeps hintsOfLastQuestion); [|exact I].
    intros s s' eff Hc HP. unfold hintsOfLastQuestion in *.
    destruct Hc as [Hm _ Hh _ _ | now txt _ _ Hh _ _ | a u Hm _ Hh _ _
                   | m Hm Hr _ Hh _ _ _]; rewrite Hh.
    - rewrite Hm. exact HP.
    - exact I.
    - destruct (currentHints s) as [h|]; [|exact I].
      destruct HP as (earlier & m & Hmsg & Hr & Hhi). rewrite Hm, Hmsg.
      unfold annotate. rewrite map_app. simpl.
      eexists _, _. split; [reflexivity|].
      destruct (MsgId_eqb (id m) u); simpl; auto.
    - destruct (hints m) as [h|] eqn:Hh'; [|exact I].
      exists (messages s), m. auto. }
  intros Hp. unfold hintsOfLastQuestion in H. unfold hintPanelProps in Hp.
  destruct (isDone (st (chat (fst (run p evs (mounted p)))))); [discriminate|].
  destruct (currentHints (st (chat (fst (run p evs (mounted p)))))) as [h|];
    [|discriminate].
  destruct (mode p); [|discriminate]. injection Hp as <-. exact H.
Qed.

Lemma X4_hint_panel_belongs_to_last_question_witness :
  hintPanelProps (Sample.props practice)
    (st (chat (fst (run (Sample.props practice) Sample.recordingStarted
                      (mounted (Sample.props practice))))))
  = Some {| HintPanel.hints := Sample.someHints; HintPanel.disabled := false;
            HintPanel.onReveal := false |}
  /\ exists earlier m,
       messages (st (chat (fst (run (Sample.props practice)
                                  Sample.recordingStarted
                                  (mounted (Sample.props practice)))))) 
       = earlier ++ [m]
       /\ role m = interviewer /\ hints m = Some Sample.someHints.
Proof.
  split; [reflexivity|].
  exact (X4_hint_panel_belongs_to_last_question (Sample.props practice)
           Sample.recordingStarted
           {| HintPanel.hints := Sample.someHints; HintPanel.disabled := false;
              HintPanel.onReveal := false |} eq_refl).
Defined.

(** X5.  A finished interview stays finished: once [isDone] is set, no
    event resets it, and the screen is the "Interview Complete" view
    whatever happens next. *)
Theorem X5_done_is_final (p : Props) (evs : list Event) (c : Client) :
  isDone (st (chat c)) = true ->
  isDone (st (chat (fst (run p evs c)))) = true
  /\ render p (st (chat (fst (run p evs c)))) (panel (fst (run p evs c)))
     = InterviewComplete (currentQuestion (st (chat (fst (run p evs c))))).
Proof.
  intros H.
  assert (Hd : isDone (st (chat (fst (run p evs c)))) = true).
  { apply (run_keeps (fun s => isDone s = true)); [|exact H].
    intros s s' eff Hc Hs.
    destruct Hc as [_ _ _ _ Hk | now txt _ _ _ _ Hk | a u _ _ _ _ Hk
                   | m _ _ _ _ _ _ Hk]; auto; congruence. }
  split; [exact Hd|]. unfold render. now rewrite Hd.
Qed.

Lemma X5_done_is_final_witness :
  isDone (st (chat (fst (run (Sample.props practice) overAtOnce
                           (mounted (Sample.props practice)))))) = true
  /\ isDone (st (chat (fst (run (Sample.props practice) Sample.typedTwice
                              (fst (run (Sample.props practice) overAtOnce
                                      (mounted (Sample.props practice)))))))) 
     = true.
Proof.
  split; [reflexivity|].
  exact (proj1 (X5_done_is_final (Sample.props practice) Sample.typedTwice
                  (fst (run (Sample.props practice) overAtOnce
                          (mounted (Sample.props practice)))) eq_refl)).
Defined.

(** X6.  The Send button tells the truth: whenever the text form is on
    screen, the button is disabled exactly when submitting the form
    would do nothing (blank input, or loading), and enabled exactly when
    it posts the text of the input box. *)
Theorem X6_send_button_matches_guard
    (p : Props) (w : World) (pn : HintPanel.State) (now : Z) (d : bool) :
  sendDisabled (render p (st w) pn) = Some d ->
  (d = true <-> handleTextSubmit p now w = (w, []))
  /\ (d = false <->
      snd (handleTextSubmit p now w)
      = [CallSubmitAnswer (sessionId p)
           {| answer := inputText (st w); voice_metrics := None |}]).
Proof.
  unfold sendDisabled, render. destruct (isDone (st w)); [discriminate|]. simpl.
  destruct (inputMode (st w)); [discriminate|]. intros H. injection H as <-.
  unfold handleTextSubmit, handleSubmitAnswer. simpl.
  rewrite (orb_comm (negb (truthy (trim (inputText (st w))))) (loading (st w))).
  destruct (loading (st w) || negb (truthy (trim (inputText (st w))))); simpl.
  - repeat split; auto; discriminate.
  - repeat split; auto; try discriminate.
Qed.

Lemma X6_send_button_matches_guard_witness :
  sendDisabled
    (render (Sample.props practice)
       (st (chat (fst (run (Sample.props practice) Sample.typedTwice
                         (mounted (Sample.props practice))))))
       HintPanel.initial) = Some true
  /\ handleTextSubmit (Sample.props practice) 9
       (chat (fst (run (Sample.props practice) Sample.typedTwice
                     (mounted (Sample.props practice)))))
     = (chat (fst (run (Sample.props practice) Sample.typedTwice
                     (mounted (Sample.props practice)))), []).
Proof.
  split; [reflexivity|].
  exact (proj1 (proj1 (X6_send_button_matches_guard (Sample.props practice)
                         (chat (fst (run (Sample.props practice) Sample.typedTwice
                                       (mounted (Sample.props practice)))))
                         HintPanel.initial 9 true eq_refl)) eq_refl).
Defined.

(** X7.  The analysis lands on the answer it belongs to.  In a run of
    the mounted component in which [done] messages are handled by the
    render on screen, while an answer awaits its response its bubble is
    the last message of the chat; when the response arrives, that bubble
    gets the analysis of the response, which also becomes
    [lastAnalysis], and the bubble keeps its text. *)
Theorem X7_analysis_lands_on_its_answer
    (p : Props) (evs : list Event) (res : AnswerResponse)
    (u : MsgId) (cl : Closure) :
  freshRun p evs (mounted p) = true ->
  pending (chat (fst (run p evs (mounted p)))) = [AwaitSubmitAnswer u cl] ->
  exists earlier m,
    messages (st (chat (fst (run p evs (mounted p))))) = earlier ++ [m]
    /\ role m = user /\ msg_analysis m = None
    /\ exists earlier',
         messages (st (chat (fst (step p (SubmitAnswerSettles (Resolved res))
                                    (fst (run p evs (mounted p)))))))
         = earlier' ++ [withAnalysis (analysis res) m]
         /\ lastAnalysis (st (chat (fst (step p (SubmitAnswerSettles (Resolved res))
                                           (fst (run p evs (mounted p)))))))
            = Some (analysis res).
Proof.
  intros HF HP.
  destruct (awaited_run p evs (mounted p) (Inv_mounted p)) as [_ HA];
    [intros u' cl' H; discriminate | exact HF |].
  destruct (HA u cl HP) as (earlier & m & Hm & Hid & Hr & Ha).
  exists earlier, m. repeat (split; [assumption|]).
  rewrite step_fst. simpl. rewrite HP. simpl.
  unfold handleSubmitAnswer_resume.
  exists (annotate (analysis res) u earlier).
  destruct (is_interview_over res); simpl; rewrite Hm; unfold annotate;
    rewrite map_app; simpl; rewrite Hid;
    (replace (MsgId_eqb u u) with true
       by (destruct u; simpl; symmetry; apply Z.eqb_refl)); auto.
Qed.

Lemma X7_analysis_lands_on_its_answer_witness :
  freshRun (Sample.props practice) Sample2.answerPosted
    (mounted (Sample.props practice)) = true
  /\ pending (chat (fst (run (Sample.props practice) Sample2.answerPosted
                           (mounted (Sample.props practice)))))
     = [AwaitSubmitAnswer (AId 4) Sample.idle]
  /\ exists earlier m,
       messages (st (chat (fst (run (Sample.props practice) Sample2.answerPosted
                                  (mounted (Sample.props practice))))))
       = earlier ++ [m]
       /\ role m = user /\ msg_analysis m = None.
Proof.
  split; [reflexivity|]. split; [reflexivity|].
  destruct (X7_analysis_lands_on_its_answer (Sample.props practice)
              Sample2.answerPosted Sample.answered (AId 4) Sample.idle
              eq_refl eq_refl) as (earlier & m & H1 & H2 & H3 & _).
  exists earlier, m. auto.
Defined.

(** X8.  Every question starts with its hints folded.  In a run of the
    mounted component in which [done] messages are handled by the
    render on screen, while the next question is awaited no hint panel
    is on screen, and when it arrives the panel, if one is mounted for
    it, is closed with the example answer hidden: what was opened for
    an earlier question does not carry over. *)
Theorem X8_question_arrives_to_a_closed_panel
    (p : Props) (evs : list Event) (now : Z) (r : Result NextQuestionResponse) :
  freshRun p evs (mounted p) = true ->
  pending (chat (fst (run p evs (mounted p)))) = [AwaitGetNextQuestion] ->
  shownPanel (render p (st (chat (fst (run p evs (mounted p)))))
                (panel (fst (run p evs (mounted p))))) = None
  /\ panel (fst (step p (GetNextQuestionSettles now r)
                   (fst (run p evs (mounted p)))))
     = HintPanel.initial.
Proof.
  intros HF HP.
  assert (HQ : currentHints (st (chat (fst (run p evs (mounted p))))) = None).
  { apply (quiet_run p evs (mounted p) (Inv_mounted p)); [|exact HF|].
    - intros _. reflexivity.
    - rewrite HP. discriminate. }
  assert (Hnone : hintPanelProps p (st (chat (fst (run p evs (mounted p)))))
                  = None).
  { unfold hintPanelProps. rewrite HQ.
    now destruct (isDone (st (chat (fst (run p evs (mounted p)))))). }
  assert (Hpanel : panel (fst (run p evs (mounted p))) = HintPanel.initial).
  { apply run_panel_unmounted; [|exact Hnone]. intros _. reflexivity. }
  split.
  - unfold shownPanel, render.
    destruct (isDone (st (chat (fst (run p evs (mounted p)))))); [reflexivity|].
    simpl. now rewrite Hnone.
  - rewrite step_fst. simpl. rewrite HP. simpl.
    destruct (fetchNextQuestion_resume now r
                (st (chat (fst (run p evs (mounted p)))))) as [s eff].
    unfold remount. simpl. rewrite Hpanel.
    now destruct (hintPanelProps p s).
Qed.

Lemma X8_question_arrives_to_a_closed_panel_witness :
  freshRun (Sample.props practice)
    (Sample.revealExample ++ Sample2.secondQuestionAwaited)
    (mounted (Sample.props practice)) = true
  /\ pending (chat (fst (run (Sample.props practice)
                           (Sample.revealExample ++ Sample2.secondQuestionAwaited)
                           (mounted (Sample.props practice)))))
     = [AwaitGetNextQuestion]
  /\ panel (fst (step (Sample.props practice)
                   (GetNextQuestionSettles 7 (Resolved Sample.firstQuestion))
                   (fst (run (Sample.props practice)
                           (Sample.revealExample ++ Sample2.secondQuestionAwaited)
                           (mounted (Sample.props practice))))))
     = HintPanel.initial.
Proof.
  split; [reflexivity|]. split; [reflexivity|].
  exact (proj2 (X8_question_arrives_to_a_closed_panel (Sample.props practice)
                  (Sample.revealExample ++ Sample2.secondQuestionAwaited) 7
                  (Resolved Sample.firstQuestion) eq_refl eq_refl)).
Defined.

(** X21.  The chat is never stuck loading.  After every run of the
    mounted component, stale handlers included, when [loading] is set
    (the input is disabled and the typing indicator shown) a request is
    in flight whose response will reset it: every handler that ends
    with nothing awaited has reset [loading], whether the request
    succeeded or failed. *)
Theorem X21_loading_means_a_request_is_in_flight
    (p : Props) (evs : list Event) :
  loading (st (chat (fst (run p evs (mounted p))))) = true ->
  pending (chat (fst (run p evs (mounted p)))) <> [].
Proof.
  intros Hl Hp.
  assert (H : loadingIsAwaiting (chat (fst (run p evs (mounted p))))).
  { apply awaiting_run. intros H. discriminate H. }
  rewrite (H Hp) in Hl. discriminate.
Qed.

Lemma X21_loading_means_a_request_is_in_flight_witness :
  loading (st (chat (fst (run (Sample.props practice) Sample2.answerPosted
                            (mounted (Sample.props practice)))))) = true
  /\ pending (chat (fst (run (Sample.props practice) Sample2.answerPosted
                           (mounted (Sample.props practice))))) <> [].
Proof.
  split; [reflexivity|].
  exact (X21_loading_means_a_request_is_in_flight (Sample.props practice)
           Sample2.answerPosted eq_refl).
Defined.

End TranscriptSpec.

(* ===================================================================== *)
(** ** More on HintPanel *)
(* ===================================================================== *)

Module PanelFacts.

Import HintPanel PanelRuns HintFacts.

Lemma click_keeps_example p a s :
  showExample s = true -> showExample (fst (click p a s)) = true.
Proof.
  intros H. unfold click. destruct (render p s) as [v|]; [|exact H].
  destruct a.
  - destruct (toggleDisabled v); simpl; exact H.
  - destruct (exampleSection v) as [[|]|]; simpl; auto.
Qed.

Lemma clicks_keep_example p acts : forall s,
  showExample s = true -> showExample (fst (clicks p acts s)) = true.
Proof.
  induction acts as [|a acts IH]; intros s H; [exact H|].
  rewrite clicks_cons. simpl. apply IH. now apply click_keeps_example.
Qed.

Lemma render_rendered p s :
  rendered p = true -> exists v, render p s = Some v /\ toggleDisabled v = disabled p.
Proof.
  unfold rendered, render. intros H.
  destruct (hasLength (bullets (hints p)));
    destruct (hasLength (personal_hooks (hints p))); try discriminate;
    simpl; eexists; split; reflexivity.
Qed.

Lemma click_example_open p s :
  open (fst (click p ClickShowExample s)) = open s
  /\ snd (click p ClickShowExample s) = [].
Proof.
  unfold click. destruct (render p s) as [v|]; [|auto].
  destruct (exampleSection v) as [[|]|]; auto.
Qed.

End PanelFacts.

Module PanelSpec.

Import HintPanel PanelRuns HintFacts PanelFacts.

(** X9.  A revealed example answer stays revealed.  Once the example
    answer is readable, no sequence of clicks hides it for good:
    [showExample] stays set, and whenever the panel is open again the
    example answer is readable without another click on "Show example
    answer". *)
Theorem X9_example_stays_revealed
    (p : Props) (s : State) (ex : jsstring) (acts : list Action) :
  shownExample (render p s) = Some ex ->
  showExample (fst (clicks p acts s)) = true
  /\ (open (fst (clicks p acts s)) = true ->
      shownExample (render p (fst (clicks p acts s))) = Some ex).
Proof.
  intros H.
  assert (Hs : showExample (fst (clicks p acts s)) = true)
    by (apply clicks_keep_example; now apply (shownExample_inv p s ex)).
  split; [exact Hs|]. intros Ho.
  unfold shownExample, render in *.
  destruct (negb (hasLength (bullets (hints p)))
            && negb (hasLength (personal_hooks (hints p)))); [discriminate|].
  simpl in *. rewrite Ho, Hs.
  destruct (open s); [|discriminate].
  destruct (example_answer (hints p)) as [e|]; [|discriminate].
  destruct (truthy e); [|discriminate].
  destruct (showExample s); simpl in *; [exact H | discriminate].
Qed.

Lemma X9_example_stays_revealed_witness :
  shownExample (render reporting {| open := true; showExample := true |})
  = example_answer Sample.someHints
  /\ showExample (fst (clicks reporting [ClickToggle; ClickToggle]
                         {| open := true; showExample := true |})) = true.
Proof.
  split; [reflexivity|].
  destruct (example_answer Sample.someHints) as [ex|] eqn:E; [|discriminate E].
  refine (proj1 (X9_example_stays_revealed reporting
                   {| open := true; showExample := true |} ex
                   [ClickToggle; ClickToggle] _)).
  vm_compute in E |- *. exact E.
Defined.

(** X10.  [onReveal] is called once for each opening.  On an enabled
    panel that renders something, the toggle clicks alone decide
    whether the panel is open (each one flips it, clicks on the example
    button do not), and the parent is told once each time the panel
    goes from closed to open, never when it closes; without an
    [onReveal] prop nothing is called. *)
Theorem X10_onReveal_once_per_opening
    (p : Props) (acts : list Action) (s : State) :
  rendered p = true -> disabled p = false ->
  open (fst (clicks p acts s)) = xorb (open s) (Nat.odd (toggles acts))
  /\ List.length (snd (clicks p acts s))
     = if onReveal p
       then if open s then Nat.div2 (toggles acts)
            else Nat.div2 (S (toggles acts))
       else 0%nat.
Proof.
  intros Hr Hd. revert s.
  induction acts as [|a acts IH]; intros s.
  - simpl. rewrite xorb_false_r. split; [reflexivity|].
    destruct (onReveal p), (open s); reflexivity.
  - rewrite clicks_cons. simpl fst. simpl snd. rewrite length_app.
    destruct (IH (fst (click p a s))) as [IHo IHn]. rewrite IHo, IHn.
    destruct a.
    + (* a click on the toggle *)
      assert (Hc : click p ClickToggle s = handleToggle p s).
      { unfold click. destruct (render_rendered p s Hr) as (v & -> & ->).
        now rewrite Hd. }
      rewrite Hc. unfold handleToggle. simpl fst. simpl snd. simpl open.
      unfold toggles. simpl filter. simpl List.length.
      fold (toggles acts). rewrite Nat.odd_succ, <- Nat.negb_odd.
      split.
      * destruct (open s), (Nat.odd (toggles acts)); reflexivity.
      * destruct (onReveal p), (open s); simpl; reflexivity.
    + (* a click on the example button *)
      destruct (click_example_open p s) as [-> ->].
      unfold toggles. simpl filter. fold (toggles acts). auto.
Qed.

Lemma X10_onReveal_once_per_opening_witness :
  rendered reporting = true /\ disabled reporting = false
  /\ List.length
       (snd (clicks reporting
               [ClickToggle; ClickShowExample; ClickToggle; ClickToggle]
               initial)) = 2%nat.
Proof.
  split; [reflexivity|]. split; [reflexivity|].
  exact (proj2 (X10_onReveal_once_per_opening reporting
                  [ClickToggle; ClickShowExample; ClickToggle; ClickToggle]
                  initial eq_refl eq_refl)).
Defined.

End PanelSpec.

(* ===================================================================== *)
(** ** More on the PCM conversion *)
(* ===================================================================== *)

Module ClipFacts.

Import Num VoiceRecorder FloatFacts.

(** Comparing a finite sample with [1] and with [-1]. *)
Lemma compare_one sg m e :
  isFloat32 (S754_finite sg m e) = true ->
  SFleb (ofZ 1) (ofFloat32 (S754_finite sg m e))
  = negb sg && (1 <=? e + Z.of_nat (digits m))
  /\ SFleb (ofFloat32 (S754_finite sg m e)) (ofZ (-1))
     = sg && (1 <=? e + Z.of_nat (digits m)).
Proof.
  intros Hx. rewrite (ofFloat32_finite sg m e Hx).
  apply isFloat32_finite in Hx as [Hd He].
  destruct literals as (-> & -> & _).
  pose proof (dyadic_mantissa m ltac:(lia)) as HM.
  change (dyadic false 1 0) with (S754_finite false 4503599627370496 (-52)).
  change (dyadic true 1 0) with (S754_finite true 4503599627370496 (-52)).
  unfold dyadic.
  set (M := Pos.shiftl_nat m (53 - digits m)) in *.
  set (E := e - Z.of_nat (53 - digits m)).
  assert (HE : E = e + Z.of_nat (digits m) - 53) by (unfold E; lia).
  clearbody M E.
  destruct sg; split.
  1, 4: reflexivity.
  - unfold SFleb, SFcompare.
    replace (PosDef.Pos.compare_cont Eq M 4503599627370496)
      with (Pos.compare M 4503599627370496) by reflexivity.
    rewrite andb_true_l.
    destruct (Z.compare_spec E (-52)) as [H|H|H].
    + destruct (Pos.compare_spec M 4503599627370496) as [H'|H'|H']; cbv beta iota;
       unfold CompOpp;
        try (apply Pos2Z.pos_lt_pos in H'; lia);
        (destruct (Z.leb_spec 1 (e + Z.of_nat (digits m))); [reflexivity | lia]).
    + destruct (Z.leb_spec 1 (e + Z.of_nat (digits m))); [lia | reflexivity].
    + destruct (Z.leb_spec 1 (e + Z.of_nat (digits m))); [reflexivity | lia].
  - unfold SFleb, SFcompare.
    replace (PosDef.Pos.compare_cont Eq 4503599627370496 M)
      with (Pos.compare 4503599627370496 M) by reflexivity.
    rewrite andb_true_l.
    destruct (Z.compare_spec (-52) E) as [H|H|H].
    + destruct (Pos.compare_spec 4503599627370496 M) as [H'|H'|H']; cbv beta iota;
        try (apply Pos2Z.pos_lt_pos in H'; lia);
        (destruct (Z.leb_spec 1 (e + Z.of_nat (digits m))); [reflexivity | lia]).
    + destruct (Z.leb_spec 1 (e + Z.of_nat (digits m))); [reflexivity | lia].
    + destruct (Z.leb_spec 1 (e + Z.of_nat (digits m))); [lia | reflexivity].
Qed.

(** A binary32 mantissa below the top exponent range is normal only. *)
Lemma canonical32 sg m e :
  isFloat32 (S754_finite sg m e) = true ->
  (digits m <= 24)%nat /\ (-149 < e -> digits m = 24%nat).
Proof.
  intros H. split; [now apply isFloat32_finite in H|].
  revert H.
  unfold isFloat32, valid_binary, bounded, canonical_mantissa, fexp, emin,
    prec32, emax32.
  rewrite Zdigits2_digits. intros H.
  apply andb_true_iff in H as [H1 _]. apply Z.eqb_eq in H1. lia.
Qed.

Lemma shiftl_le a b n : a <= b -> Z.shiftl a n <= Z.shiftl b n.
Proof.
  intros H. destruct (Z.le_gt_cases 0 n) as [Hn|Hn].
  - rewrite !Z.shiftl_mul_pow2 by lia.
    apply Z.mul_le_mono_nonneg_r; [apply Z.pow_nonneg; lia | exact H].
  - rewrite !Z.shiftl_div_pow2 by lia.
    apply Z.div_le_mono; [apply Z.pow_pos_nonneg; lia | exact H].
Qed.

Lemma magnitude_mono sg m1 e1 m2 e2 :
  e1 <= e2 -> Zpos m1 <= Zpos m2 * 2 ^ (e2 - e1) ->
  magnitude sg m1 e1 <= magnitude sg m2 e2.
Proof.
  intros He Hm. unfold magnitude. apply Z.min_le_compat_l.
  replace e2 with ((e2 - e1) + e1) at 1 by lia.
  rewrite <- Z.shiftl_shiftl by lia. apply shiftl_le.
  rewrite Z.shiftl_mul_pow2 by lia.
  assert (0 < 2 ^ (e2 - e1)) by (apply Z.pow_pos_nonneg; lia).
  nia.
Qed.

(** The order of two finite samples of the same sign, read off their
    representation, is the order of their magnitudes. *)
Lemma magnitude_lex sg m1 e1 m2 e2 :
  isFloat32 (S754_finite sg m1 e1) = true ->
  isFloat32 (S754_finite sg m2 e2) = true ->
  e1 < e2 \/ (e1 = e2 /\ (m1 <= m2)%positive) ->
  magnitude sg m1 e1 <= magnitude sg m2 e2.
Proof.
  intros H1 H2 [H|[-> H]].
  - apply magnitude_mono; [lia|].
    destruct (canonical32 _ _ _ H1) as [Hd1 _].
    destruct (canonical32 _ _ _ H2) as [_ Hd2].
    apply isFloat32_finite in H1 as [_ He1].
    destruct (digits_bounds m1) as [_ Hhi]. destruct (digits_bounds m2) as [Hlo _].
    rewrite Hd2 in Hlo by lia.
    assert (2 ^ Z.of_nat (digits m1) <= 2 ^ 24)
      by (apply Z.pow_le_mono_r; lia).
    assert (2 ^ 1 <= 2 ^ (e2 - e1)) by (apply Z.pow_le_mono_r; lia).
    change (2 ^ (Z.of_nat 24 - 1)) with 8388608 in Hlo.
    change (2 ^ 24) with 16777216 in *. change (2 ^ 1) with 2 in *. nia.
  - apply magnitude_mono; [lia|]. rewrite Z.sub_diag. simpl. lia.
Qed.

End ClipFacts.

Module ClipSpec.

Import Num VoiceRecorder FloatFacts ClipFacts.

(** X11.  Full scale is reached exactly by clipped samples.  A sample
    of a [Float32Array] is stored as [32767] exactly when it is at
    least [1], and as [-32768] exactly when it is at most [-1]; every
    sample strictly between [-1] and [1], as well as NaN, is stored
    strictly inside the 16-bit range. *)
Theorem X11_pcm_full_scale_iff_clipped (x : spec_float) :
  isFloat32 x = true ->
  (pcmSample x = 32767 <-> SFleb (ofZ 1) (ofFloat32 x) = true)
  /\ (pcmSample x = -32768 <-> SFleb (ofFloat32 x) (ofZ (-1)) = true).
Proof.
  intros Hx. destruct x as [s | s | | sg m e].
  - destruct s; split; split; intros H; vm_compute in H; discriminate.
  - destruct s; split; split; intros H; try reflexivity;
      vm_compute in H; discriminate.
  - split; split; intros H; vm_compute in H; discriminate.
  - destruct (pcmSample_finite sg m e Hx) as [-> _].
    destruct (compare_one sg m e Hx) as [-> ->].
    pose proof (magnitude_range sg m e) as Hr.
    destruct (Z.leb_spec 1 (e + Z.of_nat (digits m))) as [H|H].
    + rewrite (magnitude_clamped sg m e H).
      destruct sg; split; split; intros H'; try reflexivity; discriminate.
    + destruct (magnitude_small sg m e ltac:(lia)) as [_ Hlt].
      rewrite !andb_false_r. clear Hx.
      destruct sg; unfold cond_Zopp, scaleOf in *; split; split; intros H';
        try discriminate; lia.
Qed.

Lemma X11_pcm_full_scale_iff_clipped_witness :
  isFloat32 (S754_infinity true) = true
  /\ pcmSample (S754_infinity true) = -32768.
Proof.
  split; [reflexivity|].
  exact (proj2 (proj2 (X11_pcm_full_scale_iff_clipped (S754_infinity true)
                         eq_refl)) eq_refl).
Defined.

(** X12.  The conversion keeps the order of the samples: of two
    samples of a [Float32Array], the smaller one is never stored as the
    larger 16-bit value. *)
Theorem X12_pcm_is_monotone (x y : spec_float) :
  isFloat32 x = true -> isFloat32 y = true ->
  SFleb x y = true -> pcmSample x <= pcmSample y.
Proof.
  intros Hx Hy Hle.
  destruct (PcmSpec.pcmSample_spec x Hx) as [_ ->].
  destruct (PcmSpec.pcmSample_spec y Hy) as [_ ->].
  assert (Rx : forall sg m e, -32768 <= cond_Zopp sg (magnitude sg m e) <= 32767
                              /\ 0 <= magnitude sg m e).
  { intros sg m e. pose proof (magnitude_range sg m e).
    destruct sg; simpl in *; lia. }
  destruct x as [s1 | s1 | | s1 m1 e1]; destruct y as [s2 | s2 | | s2 m2 e2];
    try (vm_compute in Hle; discriminate Hle);
    try (destruct s1; try destruct s2; simpl in *; try discriminate Hle;
         try lia; fail).
  - (* zero and finite *)
    destruct (Rx s2 m2 e2). destruct s1, s2; simpl in *;
      try discriminate Hle; lia.
  - (* infinity and finite *)
    destruct (Rx s2 m2 e2). destruct s1, s2; simpl in *;
      try discriminate Hle; lia.
  - (* finite and zero *)
    destruct (Rx s1 m1 e1). destruct s1, s2; simpl in *;
      try discriminate Hle; lia.
  - (* finite and infinity *)
    destruct (Rx s1 m1 e1). destruct s1, s2; simpl in *;
      try discriminate Hle; lia.
  - (* two finite samples *)
    destruct (Rx s1 m1 e1) as [Ra Rb], (Rx s2 m2 e2) as [Rc Rd].
    unfold SFleb, SFcompare in Hle.
    destruct s1, s2; try discriminate Hle; simpl cond_Zopp; try lia.
    + (* both negative *)
      apply Z.opp_le_mono. rewrite !Z.opp_involutive.
      apply (magnitude_lex true m2 e2 m1 e1 Hy Hx).
      destruct (Z.compare_spec e1 e2) as [H|H|H]; try discriminate Hle.
      * right. split; [auto|].
        change (PosDef.Pos.compare_cont Eq m1 m2) with (Pos.compare m1 m2) in Hle.
        destruct (Pos.compare_spec m1 m2) as [H'|H'|H']; try discriminate Hle; lia.
      * left. lia.
    + (* both positive *)
      apply (magnitude_lex false m1 e1 m2 e2 Hx Hy).
      destruct (Z.compare_spec e1 e2) as [H|H|H]; try discriminate Hle.
      * right. split; [auto|].
        change (PosDef.Pos.compare_cont Eq m1 m2) with (Pos.compare m1 m2) in Hle.
        destruct (Pos.compare_spec m1 m2) as [H'|H'|H']; try discriminate Hle; lia.
      * left. lia.
Qed.

Lemma X12_pcm_is_monotone_witness :
  isFloat32 (S754_finite true 1 (-149)) = true
  /\ isFloat32 (S754_finite false 12582912 (-24)) = true
  /\ SFleb (S754_finite true 1 (-149)) (S754_finite false 12582912 (-24)) = true
  /\ pcmSample (S754_finite true 1 (-149))
     <= pcmSample (S754_finite false 12582912 (-24)).
Proof.
  split; [reflexivity|]. split; [reflexivity|]. split; [reflexivity|].
  exact (X12_pcm_is_monotone (S754_finite true 1 (-149))
           (S754_finite false 12582912 (-24)) eq_refl eq_refl eq_refl).
Defined.

End ClipSpec.

(* ===================================================================== *)
(** ** The page: app/page.tsx *)
(* ===================================================================== *)

Module HomeFacts.

Import Home StartApi.

Section Page.

Variable E : Type.
Variable truthyE : E -> bool.

Lemma home_run_fst_cons (ev : Event E) evs w :
  fst (run (ev :: evs) w) = fst (run evs (fst (step ev w))).
Proof.
  simpl. destruct (step ev w) as [w1 e1]. simpl.
  destruct (run evs w1). reflexivity.
Qed.

Lemma filled_step (ev : Event E) w :
  (forall res, In res (startResponses [ev]) -> truthy (session_id res) = true) ->
  (forall r, In r (reports [ev]) -> truthyE r = true) ->
  filled truthyE (st w) -> filled truthyE (st (fst (step ev w))).
Proof.
  intros Hres Hrep [Hi Hr]. unfold filled.
  destruct ev as [data | r | | r | confirmed | ]; simpl.
  - split; discriminate.
  - destruct (takePending isAwaitStart (pending w)) as [[x rest]|]; simpl; auto.
    destruct r as [res|]; simpl.
    + split; [|discriminate]. intros _. apply Hres. simpl. auto.
    + split; discriminate.
  - auto.
  - destruct (takePending isAwaitEvaluate (pending w)) as [[x rest]|]; simpl; auto.
    destruct r as [res|]; simpl; auto.
    split; [discriminate|]. intros _. exists res. split; [reflexivity|].
    apply Hrep. simpl. auto.
  - destruct confirmed; simpl; auto. split; discriminate.
  - split; discriminate.
Qed.

Lemma reports_cons (ev : Event E) evs :
  reports (ev :: evs) = reports [ev] ++ reports evs.
Proof. destruct ev as [ | | | [r|] | | ]; reflexivity. Qed.

Lemma startResponses_cons (ev : Event E) evs :
  startResponses (ev :: evs) = startResponses [ev] ++ startResponses evs.
Proof. destruct ev as [ | [res|] | | | | ]; reflexivity. Qed.

Lemma filled_run evs : forall w : World E,
  (forall res, In res (startResponses evs) -> truthy (session_id res) = true) ->
  (forall r, In r (reports evs) -> truthyE r = true) ->
  filled truthyE (st w) -> filled truthyE (st (fst (run evs w))).
Proof.
  induction evs as [|ev evs IH]; intros w Hres Hrep Hw; [exact Hw|].
  rewrite home_run_fst_cons. rewrite startResponses_cons in Hres.
  rewrite reports_cons in Hrep.
  apply IH.
  - intros res Hin. apply Hres. apply in_or_app. now right.
  - intros r Hin. apply Hrep. apply in_or_app. now right.
  - apply filled_step; [| |exact Hw].
    + intros res Hin. apply Hres. apply in_or_app. now left.
    + intros r Hin. apply Hrep. apply in_or_app. now left.
Qed.

(** The report phase is entered with [loading] reset, and while the
    report is shown only a call of [onInterviewEnd] could set it. *)
Lemma overlay_step (ev : Event E) w :
  onScreen truthyE ev (st w) = true ->
  (phase (st w) = Phase.report -> loading (st w) = false) ->
  phase (st (fst (step ev w))) = Phase.report ->
  loading (st (fst (step ev w))) = false.
Proof.
  intros Hon Hq.
  destruct ev as [data | r | | r | confirmed | ]; simpl.
  - discriminate.
  - destruct (takePending isAwaitStart (pending w)) as [[x rest]|]; simpl; auto.
    destruct r as [res|]; simpl; auto.
  - intros Hp. unfold onScreen, render in Hon. simpl in Hon.
    rewrite Hp in Hon. destruct (report (st w)) as [r|]; [|discriminate].
    destruct (truthyE r); discriminate.
  - destruct (takePending isAwaitEvaluate (pending w)) as [[x rest]|]; simpl; auto.
    destruct r as [res|]; simpl; auto.
  - destruct confirmed; simpl; auto. discriminate.
  - discriminate.
Qed.

Lemma overlay_run evs : forall w : World E,
  wellTimed truthyE evs w = true ->
  (phase (st w) = Phase.report -> loading (st w) = false) ->
  phase (st (fst (run evs w))) = Phase.report ->
  loading (st (fst (run evs w))) = false.
Proof.
  induction evs as [|ev evs IH]; intros w HW Hq; [exact Hq|].
  simpl in HW. apply andb_true_iff in HW as [Hon HW].
  rewrite home_run_fst_cons. apply IH; [exact HW|]. now apply overlay_step.
Qed.

Lemma session_step (ev : Event E) w (seen : list StartResponse) :
  (truthy (sessionId (st w)) = true ->
   exists res, In res seen /\ sessionFrom res (st w)) ->
  truthy (sessionId (st (fst (step ev w)))) = true ->
  exists res, In res (seen ++ startResponses [ev])
              /\ sessionFrom res (st (fst (step ev w))).
Proof.
  intros Hs.
  assert (Hkeep : truthy (sessionId (st w)) = true ->
                  exists res, In res (seen ++ startResponses [ev])
                              /\ sessionFrom res (st w)).
  { intros H. destruct (Hs H) as (res & Hin & Hf). exists res.
    split; [apply in_or_app; now left | exact Hf]. }
  destruct ev as [data | r | | r | confirmed | ]; simpl fst.
  - exact Hkeep.
  - simpl. destruct (takePending isAwaitStart (pending w)) as [[x rest]|];
      [|exact Hkeep].
    destruct r as [res|]; simpl.
    + intros _. exists res. split; [apply in_or_app; right; now left|].
      repeat split.
    + exact Hkeep.
  - exact Hkeep.
  - simpl. destruct (takePending isAwaitEvaluate (pending w)) as [[x rest]|];
      [|exact Hkeep].
    destruct r as [res|]; simpl; exact Hkeep.
  - simpl. destruct confirmed; simpl; [discriminate | exact Hkeep].
  - simpl. discriminate.
Qed.

Lemma session_run evs : forall (w : World E) (seen : list StartResponse),
  (truthy (sessionId (st w)) = true ->
   exists res, In res seen /\ sessionFrom res (st w)) ->
  truthy (sessionId (st (fst (run evs w)))) = true ->
  exists res, In res (seen ++ startResponses evs)
              /\ sessionFrom res (st (fst (run evs w))).
Proof.
  induction evs as [|ev evs IH]; intros w seen Hs.
  - simpl. rewrite app_nil_r. exact Hs.
  - rewrite home_run_fst_cons, startResponses_cons, app_assoc.
    apply IH. now apply session_step.
Qed.

End Page.

End HomeFacts.

Module HomeSpec.

Import Home StartApi HomeFacts.

(** X13.  The page is never blank.  Whatever the order of clicks,
    responses and failures, as long as the session ids the server
    returns are not empty and the reports it returns are not falsy
    values, one of the four main contents is on screen: the setup form,
    the research progress, the interview or the report; in the
    interview phase there is always a session to show, in the report
    phase always a report. *)
Theorem X13_page_is_never_blank
    (E : Type) (truthyE : E -> bool) (evs : list (Event E)) :
  (forall res, In res (startResponses evs) -> truthy (session_id res) = true) ->
  (forall r, In r (reports evs) -> truthyE r = true) ->
  main (render truthyE (st (fst (run evs (loaded E))))) <> None.
Proof.
  intros Hres Hrep.
  destruct (filled_run E truthyE evs (loaded E) Hres Hrep) as [Hi Hr];
    [split; discriminate|].
  unfold render. simpl.
  destruct (phase (st (fst (run evs (loaded E))))); try discriminate.
  - rewrite Hi by reflexivity. discriminate.
  - destruct (Hr eq_refl) as (r & -> & ->). discriminate.
Qed.

Lemma X13_page_is_never_blank_witness :
  (forall res, In res (startResponses visit) -> truthy (session_id res) = true)
  /\ (forall r, In r (reports visit) -> anyReport r = true)
  /\ main (render anyReport (st (fst (run visit (loaded unit))))) <> None.
Proof.
  assert (H : forall res, In res (startResponses visit) ->
                          truthy (session_id res) = true).
  { intros res [<-|[]]. reflexivity. }
  assert (H' : forall r, In r (reports visit) -> anyReport r = true).
  { intros r _. reflexivity. }
  split; [exact H|]. split; [exact H'|].
  exact (X13_page_is_never_blank unit anyReport visit H H').
Defined.

(** Both provisos are needed: a response of [evaluateInterview] whose
    body is a falsy value leaves the report phase with nothing to
    show. *)
Example falsy_report_leaves_the_page_blank :
  phase (st (fst (run falsyReport (loaded bool)))) = Phase.report
  /\ main (render (fun b : bool => b) (st (fst (run falsyReport (loaded bool)))))
     = None.
Proof. split; reflexivity. Qed.

(** X14.  The overlay "Generating evaluation report..." is never
    shown.  When every callback is called by an element that is on
    screen, [loading] is never set in the report phase: the report
    phase is entered in the update that resets [loading], and
    [onInterviewEnd], the only handler that sets [loading] without
    leaving the phase, belongs to the interview screen.  (The updates
    a handler makes between two [await]s are committed together.)
    While the report is generated the page stays on the interview
    screen. *)
Theorem X14_evaluation_overlay_is_never_shown
    (E : Type) (truthyE : E -> bool) (evs : list (Event E)) :
  wellTimed truthyE evs (loaded E) = true ->
  overlay (render truthyE (st (fst (run evs (loaded E))))) = false.
Proof.
  intros HW. unfold render. simpl.
  destruct (phase (st (fst (run evs (loaded E))))) eqn:Hp;
    simpl; try apply andb_false_r.
  rewrite (overlay_run E truthyE evs (loaded E) HW);
    [reflexivity | discriminate | exact Hp].
Qed.

Lemma X14_evaluation_overlay_is_never_shown_witness :
  wellTimed anyReport (started ++ [OnInterviewEnd unit]) (loaded unit) = true
  /\ phase (st (fst (run (started ++ [OnInterviewEnd unit]) (loaded unit))))
     = Phase.interview
  /\ loading (st (fst (run (started ++ [OnInterviewEnd unit]) (loaded unit))))
     = true
  /\ overlay (render anyReport
                (st (fst (run (started ++ [OnInterviewEnd unit])
                           (loaded unit))))) = false.
Proof.
  split; [reflexivity|]. split; [reflexivity|]. split; [reflexivity|].
  exact (X14_evaluation_overlay_is_never_shown unit anyReport
           (started ++ [OnInterviewEnd unit]) eq_refl).
Defined.

(** X15.  The interview on screen belongs to one session.  Whenever
    the InterviewChat is on screen, its session id, its number of
    questions and its vocabulary name are those of one and the same
    response of [startInterview] received in the run; data of two
    sessions are never mixed, and after a restart nothing of the old
    session is left to show. *)
Theorem X15_interview_props_come_from_one_response
    (E : Type) (truthyE : E -> bool) (evs : list (Event E)) (p : Chat.Props) :
  main (render truthyE (st (fst (run evs (loaded E)))))
  = Some (InterviewChatView E p) ->
  exists res, In res (startResponses evs) /\ sessionOf res p.
Proof.
  unfold render. simpl.
  destruct (phase (st (fst (run evs (loaded E))))); try discriminate.
  - destruct (truthy (sessionId (st (fst (run evs (loaded E)))))) eqn:Ht;
      [|discriminate].
    intros H. injection H as <-.
    destruct (session_run E evs (loaded E) []) as (res & Hin & Hf);
      [discriminate | exact Ht |].
    exists res. split; [exact Hin | exact Hf].
  - destruct (report (st (fst (run evs (loaded E))))) as [r|]; [|discriminate].
    destruct (truthyE r); discriminate.
Qed.

Lemma X15_interview_props_come_from_one_response_witness :
  exists p,
    main (render anyReport (st (fst (run started (loaded unit)))))
    = Some (InterviewChatView unit p)
    /\ exists res, In res (startResponses started) /\ sessionOf res p.
Proof.
  eexists. split; [reflexivity|].
  exact (X15_interview_props_come_from_one_response unit anyReport started _
           eq_refl).
Defined.

End HomeSpec.

(* ===================================================================== *)
(** ** The setup form: components/SetupForm.tsx *)
(* ===================================================================== *)

Module SetupFacts.

Import StartApi SetupForm.

Lemma str_eqb_eq a : forall b, str_eqb a b = true <-> a = b.
Proof.
  induction a as [|x a IH]; intros [|y b]; simpl; split; intros H;
    try reflexivity; try discriminate.
  - apply andb_true_iff in H as [H1 H2]. apply N.eqb_eq in H1.
    apply IH in H2. congruence.
  - injection H as -> ->. rewrite N.eqb_refl. simpl. now apply IH.
Qed.

Lemma str_eqb_refl a : str_eqb a a = true.
Proof. now apply str_eqb_eq. Qed.

Lemma noRepeat_inj {A : Type} (f : A -> jsstring) (l : list A) :
  noRepeat (map f l) = true ->
  forall x y, In x l -> In y l -> f x = f y -> x = y.
Proof.
  induction l as [|a l IH]; simpl; intros H x y Hx Hy Hf; [contradiction|].
  apply andb_true_iff in H as [Ha Hl]. apply negb_true_iff in Ha.
  assert (Hout : forall z, In z l -> f a <> f z).
  { intros z Hz E.
    assert (existsb (str_eqb (f a)) (map f l) = true).
    { apply existsb_exists. exists (f z). split; [now apply in_map|].
      now apply str_eqb_eq. }
    congruence. }
  destruct Hx as [<-|Hx], Hy as [<-|Hy]; auto.
  - elim (Hout y Hy Hf).
  - elim (Hout x Hx (eq_sym Hf)).
Qed.

Lemma distinct_In xs : forall c, In c (distinct xs) -> In c xs.
Proof.
  induction xs as [|x xs IH]; simpl; intros c H; [exact H|].
  destruct H as [H|H]; [now left|]. right. apply IH.
  now apply filter_In in H.
Qed.

(** Looking up by the id of an option of the list finds that option. *)
Lemma find_by_id (l : list CompanyRoleOption) (x : CompanyRoleOption) :
  noRepeat (map id l) = true -> In x l ->
  find (fun cr => str_eqb (id cr) (id x)) l = Some x.
Proof.
  intros Hn Hx.
  destruct (find (fun cr => str_eqb (id cr) (id x)) l) as [y|] eqn:F.
  - apply find_some in F as [Hy He]. apply str_eqb_eq in He.
    f_equal. exact (noRepeat_inj id l Hn y x Hy Hx He).
  - pose proof (find_none _ _ F x Hx) as H. simpl in H.
    rewrite str_eqb_refl in H. discriminate.
Qed.

(** What [trim] leaves is not blank, unless it is empty. *)
Lemma trim_not_blank (s : jsstring) :
  truthy (trim s) = true -> blank (trim s) = false.
Proof.
  unfold trim, trimEnd.
  destruct (trimStart (rev (trimStart s))) as [|c t] eqn:Ht;
    [discriminate|].
  intros _. rewrite blank_rev. simpl.
  now rewrite (trimStart_head _ _ _ Ht).
Qed.

(** The two LinkedIn fields of a request. *)
Lemma startRequest_linkedin (File : Type) (s : State File) sel rp lp :
  (lp <> None -> linkedinMode s = pdf) ->
  (linkedin_path (startRequest s sel rp lp) = None
   \/ linkedin_url (startRequest s sel rp lp) = None)
  /\ (forall u, linkedin_url (startRequest s sel rp lp) = Some u ->
                linkedinMode s = url /\ blank u = false).
Proof.
  intros Hlp. simpl. split.
  - destruct lp as [p|]; [right | now left].
    rewrite Hlp by discriminate. reflexivity.
  - intros u. destruct (linkedinMode s); simpl; [discriminate|].
    destruct (truthy (trim (linkedinUrl s))) eqn:Ht; [|discriminate].
    intros H. injection H as <-. split; [reflexivity|].
    now apply trim_not_blank.
Qed.

End SetupFacts.

Module SetupSpec.

Import StartApi SetupForm SetupFacts.

(** X16.  What the form starts an interview with.  Whatever the state
    of the form and the outcome of the uploads, [onStart] is called at
    most once for a submission, for the company and role of the
    selected option; the request never carries both a LinkedIn PDF and
    a LinkedIn URL; a URL is sent in URL mode only and is never blank;
    and when a resume was chosen, its upload has succeeded and the
    request carries the path the server returned: after a failed
    upload no interview is started. *)
Theorem X16_start_request_is_well_formed
    (File : Type) (first second : Chat.Result UploadResponse)
    (s : State File) (data : StartRequest) :
  In data (started (snd (handleSubmit first second s))) ->
  started (snd (handleSubmit first second s)) = [data]
  /\ (exists sel, selected s = Some sel
                  /\ sr_company data = company sel /\ sr_role data = role sel)
  /\ (linkedin_path data = None \/ linkedin_url data = None)
  /\ (forall u, linkedin_url data = Some u ->
                linkedinMode s = url /\ blank u = false)
  /\ (forall f, resumeFile s = Some f ->
                exists res, first = Chat.Resolved res
                            /\ resume_path data = Some (path res)).
Proof.
  unfold handleSubmit.
  destruct (selected s) as [sel|]; [|intros []].
  destruct (resumeFile s) as [f|];
    [destruct first as [res|]; [|intros []]|];
    (destruct (linkedinMode s) eqn:Hm;
     [destruct (linkedinFile s) as [g|];
      [match goal with
       | |- context [match ?r with Chat.Resolved _ => _ | Chat.Rejected => _ end] =>
           destruct r; [|intros []]
       end|]|]);
    simpl; intros [<-|[]];
    (split; [reflexivity|]); (split; [eauto|]);
    match goal with
    | |- context [startRequest s sel ?rp ?lp] =>
        destruct (startRequest_linkedin File s sel rp lp) as [A B];
        [rewrite Hm; first [reflexivity | intros H; now elim H]|]
    end;
    (split; [exact A|]);
    (split; [intros u Hu; destruct (B u Hu) as [Bm Bb]; split;
             [congruence | exact Bb]|]);
    intros f' H; try discriminate; injection H as <-; eauto.
Qed.

Lemma X16_start_request_is_well_formed_witness :
  exists data,
    In data (started (snd (handleSubmit (Chat.Resolved uploaded)
                             (Chat.Resolved uploaded) filledIn)))
    /\ linkedin_path data = None
    /\ linkedin_url data = Some (of_string "https://linkedin.com/in/someone")
    /\ started (snd (handleSubmit (Chat.Resolved uploaded)
                       (Chat.Resolved uploaded) filledIn)) = [data].
Proof.
  eexists. split; [left; reflexivity|]. split; [reflexivity|].
  split; [reflexivity|].
  refine (proj1 (X16_start_request_is_well_formed nat (Chat.Resolved uploaded)
                   (Chat.Resolved uploaded) filledIn _ _)).
  left. reflexivity.
Defined.

(** X17.  The dropdowns select what was picked.  When no two options
    share an id, picking a company of the company list selects the
    first option of that company, so that the form then shows that
    company and one of its roles; and picking a role of the role list
    selects the option of the current company with that role.  In both
    cases an option stays selected. *)
Theorem X17_dropdowns_select_what_was_picked (File : Type) (s : State File) :
  noRepeat (map id (companyRoles s)) = true ->
  (forall c, In c (companies s) ->
     exists sel,
       selected (handleCompanyChange c s) = Some sel
       /\ find (fun cr => str_eqb (company cr) c) (companyRoles s) = Some sel
       /\ company sel = c
       /\ selectedCompany (handleCompanyChange c s) = c
       /\ In sel (rolesForCompany (handleCompanyChange c s)))
  /\ (forall cr, In cr (rolesForCompany s) ->
        exists sel,
          selected (handleRoleChange (role cr) s) = Some sel
          /\ company sel = selectedCompany s /\ role sel = role cr).
Proof.
  intros Hn. split.
  - intros c Hc. apply distinct_In in Hc. apply in_map_iff in Hc as (x & Hx & Hin).
    unfold handleCompanyChange.
    destruct (find (fun cr => str_eqb (company cr) c) (companyRoles s))
      as [first|] eqn:F.
    + pose proof (find_some _ _ F) as [Hf He]. apply str_eqb_eq in He.
      assert (Hsel : selected (setSelectedId (id first) s) = Some first)
        by (unfold selected; simpl; now apply find_by_id).
      assert (Hcomp : selectedCompany (setSelectedId (id first) s) = c).
      { unfold selectedCompany. rewrite Hsel, He.
        destruct c; reflexivity. }
      exists first. repeat split; auto.
      unfold rolesForCompany. rewrite Hcomp. simpl. apply filter_In.
      split; [exact Hf | now apply str_eqb_eq].
    + pose proof (find_none _ _ F x Hin) as H. simpl in H.
      rewrite Hx, str_eqb_refl in H. discriminate.
  - intros cr Hcr. unfold rolesForCompany in Hcr.
    apply filter_In in Hcr as [Hin Hc]. unfold handleRoleChange.
    destruct (find (fun cr0 => str_eqb (company cr0) (selectedCompany s)
                               && str_eqb (role cr0) (role cr))
                (companyRoles s)) as [m|] eqn:F.
    + pose proof (find_some _ _ F) as [Hm He].
      apply andb_true_iff in He as [He1 He2].
      apply str_eqb_eq in He1. apply str_eqb_eq in He2.
      exists m. repeat split; auto.
      unfold selected. simpl. now apply find_by_id.
    + pose proof (find_none _ _ F cr Hin) as H. simpl in H.
      rewrite Hc, str_eqb_refl in H. discriminate.
Qed.

Lemma X17_dropdowns_select_what_was_picked_witness :
  noRepeat (map id (companyRoles filledIn)) = true
  /\ exists sel,
       selected (handleCompanyChange (of_string "Globex") filledIn) = Some sel
       /\ company sel = of_string "Globex".
Proof.
  split; [reflexivity|].
  destruct (proj1 (X17_dropdowns_select_what_was_picked nat filledIn eq_refl)
              (of_string "Globex")) as (sel & H1 & _ & H2 & _).
  - vm_compute. right. left. reflexivity.
  - exists sel. split; assumption.
Defined.

End SetupSpec.

(* ===================================================================== *)
(** ** The password gate: components/PasswordGate.tsx *)
(* ===================================================================== *)

Module GateFacts.

Import StartApi PasswordGate.

Lemma gate_run_fst_cons ev evs w :
  fst (run (ev :: evs) w) = fst (run evs (fst (step ev w))).
Proof.
  simpl. destruct (step ev w) as [w1 e1]. simpl.
  destruct (run evs w1). reflexivity.
Qed.

Lemma justified_step ev w b :
  justified b w ->
  justified (b || waivedBy ev w || negb (Nat.eqb (List.length (acceptedBy ev w)) 0))
    (fst (step ev w)).
Proof.
  intros [Ha Hc]. unfold justified.
  assert (Hb : forall x y, b = true -> b || x || y = true)
    by (intros x y ->; reflexivity).
  destruct ev as [r | v | | n o]; simpl.
  - destruct r as [[|]|]; destruct (pending w) as [|[|pw] rest]; simpl;
      rewrite ?orb_true_r, ?orb_false_r; auto.
    match goal with |- context [truthy ?x] => destruct (truthy x) end;
      simpl; split; auto.
  - rewrite !orb_false_r. auto.
  - unfold handleSubmit. rewrite !orb_false_r.
    destruct (truthy (trim (input (st w)))); simpl; auto.
  - destruct (takeNth n (pending w)) as [[[|pw] rest]|]; simpl;
      try (destruct o; simpl; rewrite !orb_false_r; auto; fail).
    destruct o; simpl; rewrite ?orb_true_r, ?orb_false_r; auto.
Qed.

Lemma justified_run evs : forall w b,
  justified b w ->
  justified (b || waived evs w || negb (Nat.eqb (List.length (accepted evs w)) 0))
    (fst (run evs w)).
Proof.
  induction evs as [|ev evs IH]; intros w b H.
  - simpl. now rewrite !orb_false_r.
  - rewrite gate_run_fst_cons.
    pose proof (IH _ _ (justified_step ev w b H)) as [H1 H2].
    assert (E : b || waivedBy ev w
                || negb (Nat.eqb (List.length (acceptedBy ev w)) 0)
                || waived evs (fst (step ev w))
                || negb (Nat.eqb (List.length (accepted evs (fst (step ev w)))) 0)
                = b || waived (ev :: evs) w
                  || negb (Nat.eqb (List.length (accepted (ev :: evs) w)) 0)).
    { simpl. rewrite length_app.
      destruct b, (waivedBy ev w), (waived evs (fst (step ev w))),
        (acceptedBy ev w), (accepted evs (fst (step ev w))); reflexivity. }
    rewrite E in H1, H2. split; assumption.
Qed.

(** What the storage holds was there at the start or was accepted. *)
Lemma stored_step ev w (known : list jsstring) (stored : option jsstring) pw :
  (forall q, storage w = Some q -> stored = Some q \/ In q known) ->
  storage (fst (step ev w)) = Some pw ->
  stored = Some pw \/ In pw (known ++ acceptedBy ev w).
Proof.
  intros H.
  assert (Hk : forall l, storage w = Some pw ->
                         stored = Some pw \/ In pw (known ++ l)).
  { intros l E. destruct (H pw E); [now left | right].
    apply in_or_app. now left. }
  destruct ev as [r | v | | n o]; simpl.
  - destruct r as [[|]|]; destruct (pending w) as [|[|q] rest]; simpl; auto.
    match goal with |- context [truthy ?x] => destruct (truthy x) end;
      simpl; auto.
  - auto.
  - unfold handleSubmit. destruct (truthy (trim (input (st w)))); simpl; auto.
  - destruct (takeNth n (pending w)) as [[[|q] rest]|]; simpl; auto;
      try (destruct o; now auto).
    destruct o; simpl; auto; try discriminate.
    intros E. injection E as ->. right. apply in_or_app. right. now left.
Qed.

Lemma stored_run evs : forall w (known : list jsstring) stored,
  (forall q, storage w = Some q -> stored = Some q \/ In q known) ->
  forall pw, storage (fst (run evs w)) = Some pw ->
             stored = Some pw \/ In pw (known ++ accepted evs w).
Proof.
  induction evs as [|ev evs IH]; intros w known stored H pw.
  - simpl. rewrite app_nil_r. apply H.
  - rewrite gate_run_fst_cons. simpl accepted. rewrite app_assoc.
    apply IH. intros q. now apply stored_step.
Qed.

End GateFacts.

Module GateSpec.

Import StartApi PasswordGate GateFacts.

(** X18.  The gate opens for a reason.  Whatever the session storage
    held and whatever happens, the children are on screen only if the
    check of the mount effect failed (the gate fails open), or the
    server said that no password is required, or the server accepted a
    password sent by the gate. *)
Theorem X18_gate_opens_for_a_reason
    (stored : option jsstring) (evs : list Event) :
  render (st (fst (run evs (mounted stored)))) = Children ->
  waived evs (mounted stored) = true \/ accepted evs (mounted stored) <> [].
Proof.
  intros Hr.
  destruct (justified_run evs (mounted stored) false) as [Ha Hc];
    [split; discriminate|].
  simpl in Ha, Hc. unfold render in Hr.
  destruct (checking (st (fst (run evs (mounted stored))))); [discriminate|].
  assert (H : waived evs (mounted stored)
              || negb (Nat.eqb (List.length (accepted evs (mounted stored))) 0)
              = true).
  { destruct (required (st (fst (run evs (mounted stored))))); simpl in Hr.
    - destruct (authenticated (st (fst (run evs (mounted stored)))));
        [now apply Ha | discriminate].
    - destruct (Hc eq_refl) as [H|H]; [discriminate | exact H]. }
  apply orb_true_iff in H as [H|H]; [now left | right].
  destruct (accepted evs (mounted stored)); [discriminate H | discriminate].
Qed.

Lemma X18_gate_opens_for_a_reason_witness :
  render (st (fst (run secondTry (mounted None)))) = Children
  /\ waived secondTry (mounted None) = false
  /\ accepted secondTry (mounted None) <> [].
Proof.
  split; [reflexivity|]. split; [reflexivity|].
  destruct (X18_gate_opens_for_a_reason None secondTry eq_refl) as [H|H];
    [discriminate H | exact H].
Defined.

(** X19.  What the session storage keeps.  At any time the stored
    password is the one the storage held when the gate was mounted or a
    password the server accepted since; a password that was typed but
    not accepted is never stored. *)
Theorem X19_stored_password_was_accepted
    (stored : option jsstring) (evs : list Event) (pw : jsstring) :
  storage (fst (run evs (mounted stored))) = Some pw ->
  stored = Some pw \/ In pw (accepted evs (mounted stored)).
Proof.
  intros H.
  destruct (stored_run evs (mounted stored) [] stored) with (pw := pw)
    as [E|E]; auto.
Qed.

Lemma X19_stored_password_was_accepted_witness :
  storage (fst (run secondTry (mounted None))) = Some (of_string "s3cret")
  /\ In (of_string "s3cret") (accepted secondTry (mounted None)).
Proof.
  split; [reflexivity|].
  destruct (X19_stored_password_was_accepted None secondTry
              (of_string "s3cret") eq_refl) as [H|H];
    [discriminate H | exact H].
Defined.

End GateSpec.

(* ===================================================================== *)
(** ** The research progress: components/ResearchProgress.tsx *)
(* ===================================================================== *)

Module ProgressSpec.

Import ResearchProgress.

(** X20.  The simulated progress stops at the last step.  After any
    number [n] of ticks of the interval the current step is
    [min n 5]: it never leaves the list of six steps.  The steps before
    it carry a check mark, the current one the spinner, the later ones
    a dot; so exactly one step spins, and the last step, "Generating
    interview plan", is never shown as completed. *)
Theorem X20_progress_stops_at_last_step (n : nat) :
  currentStep n = Nat.min n 5
  /\ map icon (render (currentStep n))
     = repeat CheckMark (Nat.min n 5) ++ [Spinner]
       ++ repeat Dot (5 - Nat.min n 5).
Proof.
  assert (H : currentStep n = Nat.min n 5).
  { induction n as [|n IH]; [reflexivity|].
    unfold currentStep in *. simpl Nat.iter. rewrite IH. unfold tick.
    change (List.length STEPS - 1)%nat with 5%nat.
    destruct (Nat.ltb_spec (Nat.min n 5) 5); lia. }
  split; [exact H|]. rewrite H.
  assert (C : (Nat.min n 5 = 0 \/ Nat.min n 5 = 1 \/ Nat.min n 5 = 2
               \/ Nat.min n 5 = 3 \/ Nat.min n 5 = 4 \/ Nat.min n 5 = 5)%nat)
    by lia.
  destruct C as [-> | [-> | [-> | [-> | [-> | ->]]]]]; reflexivity.
Qed.

End ProgressSpec.

(* ===================================================================== *)
(** ** The bubbles: components/ChatMessage.tsx *)
(* ===================================================================== *)

Module BubbleSpec.

Import ChatMessageView.

(** X22.  An answer shows its badge exactly when it has been analysed.
    [QUALITY_CONFIG] has an entry for each of the four quality values,
    so that the bubble of an analysed answer always carries the badge
    of its quality with the confidence score; a question, and an answer
    whose analysis has not arrived, carry none. *)
Theorem X22_badge_iff_analysed_answer (m : ChatMessage) :
  (exists a style,
      role m = user /\ msg_analysis m = Some a
      /\ QUALITY_CONFIG (quality_key (quality a)) = Some style
      /\ badge (render m)
         = Some {| b_style := style;
                   b_confidence := Some (confidence_score a) |})
  \/ (badge (render m) = None
      /\ (role m = interviewer \/ msg_analysis m = None)).
Proof.
  unfold render. simpl.
  destruct (role m) eqn:Hr; simpl; [right; auto|].
  destruct (msg_analysis m) as [a|] eqn:Ha; simpl; [|right; auto].
  left. exists a.
  destruct (quality a); simpl; eexists; repeat split; reflexivity.
Qed.

End BubbleSpec.
